(** * chrome-devtools-mcp-custom: connection orchestration

    A shallow embedding of [build/src/browser.js], [build/src/main.js] and
    [build/src/tools/browser-management.js]:

    - [Text]: the string helpers the code relies on (template strings,
      [trim], [join], number printing);
    - [NodeURL]: a model of the part of the WHATWG URL class ([node:url])
      that [rewriteWsEndpoint] and [fetchJsonVersion] use;
    - [Js]: JavaScript values of the model, exceptions, and the
      state-and-exception monad in which the asynchronous functions run;
    - [BrowserJs], [McpContext], [MainJs], [BrowserManagement]: the
      functions of the source files, in source order and under their source
      names; a function too long to state properties about is cut into named
      parts at its [try] blocks and loops;
    - [UrlText], [Observations]: what the properties are stated with: the
      text of an address, and relations between the states of the process;
    - [ToolDispatch]: the callback [registerTool] of main.js builds;
    - [Scenario], [Cases]: concrete worlds on which the properties are
      exercised.

    The properties follow the definitions, module by module: the text
    helpers, the URL model, [rewriteWsEndpoint], the frame rules of the
    effect monad, then the functions of each source file; after them the
    round trip between parsing and printing an address with what it gives
    for [rewriteWsEndpoint], and the outcomes of each function: what it
    asks of the outside, what it leaves as it was, and how it fails. *)

From Stdlib Require Import ZArith NArith String Ascii List Lia Bool.
From Stdlib Require Import DecimalString DecimalN DecimalZ.
From stdpp Require Import base option gmap strings list.

Local Open Scope string_scope.

(* ===================================================================== *)
(** * Text helpers *)
(* ===================================================================== *)

Module Text.

Definition code (c : ascii) : nat := nat_of_ascii c.

Definition is_digit (c : ascii) : bool :=
  (48 <=? code c)%nat && (code c <=? 57)%nat.

Definition is_upper (c : ascii) : bool :=
  (65 <=? code c)%nat && (code c <=? 90)%nat.

Definition is_lower (c : ascii) : bool :=
  (97 <=? code c)%nat && (code c <=? 122)%nat.

Definition is_alpha (c : ascii) : bool := is_upper c || is_lower c.

(** Lower-case hexadecimal digit (hosts are compared after lowering). *)
Definition is_lhex (c : ascii) : bool :=
  is_digit c || ((97 <=? code c)%nat && (code c <=? 102)%nat).

(** Printable ASCII without the space: codes 33 to 126. *)
Definition is_graphic (c : ascii) : bool :=
  (33 <=? code c)%nat && (code c <=? 126)%nat.

Definition lower_ascii (c : ascii) : ascii :=
  if is_upper c then ascii_of_nat (code c + 32) else c.

Fixpoint lower (s : string) : string :=
  match s with
  | EmptyString => EmptyString
  | String c r => String (lower_ascii c) (lower r)
  end.

(** [c] is one of the characters of [set]. *)
Fixpoint char_in (c : ascii) (set : string) : bool :=
  match set with
  | EmptyString => false
  | String d r => Ascii.eqb c d || char_in c r
  end.

Fixpoint all_chars (p : ascii -> bool) (s : string) : bool :=
  match s with
  | EmptyString => true
  | String c r => p c && all_chars p r
  end.

(** The longest prefix whose characters satisfy [p], and what follows. *)
Fixpoint span (p : ascii -> bool) (s : string) : string * string :=
  match s with
  | EmptyString => (EmptyString, EmptyString)
  | String c r =>
      if p c then let '(a, b) := span p r in (String c a, b)
      else (EmptyString, s)
  end.

Fixpoint drop_while (p : ascii -> bool) (s : string) : string :=
  match s with
  | EmptyString => EmptyString
  | String c r => if p c then drop_while p r else s
  end.

(** [s.split(sep)] for a one-character separator. *)
Fixpoint split_on (sep : ascii) (s : string) : list string :=
  match s with
  | EmptyString => [EmptyString]
  | String c r =>
      if Ascii.eqb c sep then EmptyString :: split_on sep r
      else match split_on sep r with
           | [] => [String c EmptyString]
           | x :: xs => String c x :: xs
           end
  end.

(** [parts.join(sep)]. *)
Fixpoint join (sep : string) (parts : list string) : string :=
  match parts with
  | [] => EmptyString
  | [x] => x
  | x :: rest => x +:+ sep +:+ join sep rest
  end.

Definition starts_with (p s : string) : bool := String.prefix p s.

(** What follows the first character of [s] when that character is [c]. *)
Definition strip_char (c : ascii) (s : string) : option string :=
  match s with
  | String d r => if Ascii.eqb d c then Some r else None
  | EmptyString => None
  end.

(** The double quote character. *)
Definition dquote : ascii := ascii_of_nat 34.

Definition is_empty (s : string) : bool :=
  match s with EmptyString => true | _ => false end.

(** Decimal printing of a natural number, as a template string prints a
    non-negative integer. *)
Definition show_N (n : N) : string := NilEmpty.string_of_uint (N.to_uint n).

(** Decimal printing of an integer ([String(p)] for an integral [p]). *)
Definition show_Z (z : Z) : string := NilEmpty.string_of_int (Z.to_int z).

(** Reads a string of decimal digits. *)
Definition read_N (s : string) : option N :=
  if is_empty s || negb (all_chars is_digit s) then None
  else N.of_uint <$> NilEmpty.uint_of_string s.

Definition hex_digit (n : N) : ascii :=
  if (n <? 10)%N then ascii_of_N (48 + n)%N else ascii_of_N (87 + n)%N.

(** Shortest lower-case hexadecimal form of a 16-bit piece. *)
Definition show_hex16 (n : N) : string :=
  let d3 := ((n / 4096) mod 16)%N in
  let d2 := ((n / 256) mod 16)%N in
  let d1 := ((n / 16) mod 16)%N in
  let d0 := (n mod 16)%N in
  let s := String (hex_digit d3) (String (hex_digit d2)
             (String (hex_digit d1) (String (hex_digit d0) EmptyString))) in
  match drop_while (Ascii.eqb "0") s with
  | EmptyString => "0"
  | r => r
  end.

Definition hex_value (c : ascii) : N :=
  if is_digit c then (N_of_ascii c - 48)%N else (N_of_ascii c - 87)%N.

(** Reads one to four lower-case hexadecimal digits. *)
Definition read_hex16 (s : string) : option N :=
  if is_empty s || negb (all_chars is_lhex s) || (4 <? String.length s)%nat
  then None
  else Some (fold_left (fun acc c => (acc * 16 + hex_value c)%N)
               (list_ascii_of_string s) 0%N).

Definition is_space (c : ascii) : bool :=
  char_in c (String " " (String "009" (String "010" (String "011"
               (String "012" (String "013" EmptyString)))))).

Fixpoint rev_string (s : string) : string :=
  match s with
  | EmptyString => EmptyString
  | String c r => rev_string r +:+ String c EmptyString
  end.

(** [s.trim()] on ASCII text. *)
Definition trim (s : string) : string :=
  rev_string (drop_while is_space (rev_string (drop_while is_space s))).

End Text.

(* ===================================================================== *)
(** * The URL class of [node:url] *)
(* ===================================================================== *)

(** [browser.js] and [browser-management.js] parse addresses with the WHATWG
    URL class, which is a library and not part of the repository.  The model
    covers the addresses this code handles: the special schemes with an
    authority ([http], [https], [ws], [wss], [ftp]), written in printable
    ASCII, without credentials, whose host is a domain name, a dotted-decimal
    IPv4 address or a bracketed IPv6 address in the form the parser itself
    serialises, and whose path, query and fragment need no percent-encoding
    and no dot-segment removal.  On those the record below holds what the
    parser holds; [parse] answers [None] where [new URL] throws and on text
    outside that fragment.

    So [parse s = Some u] says what [new URL(s)] is, while [parse s = None]
    alone does not say that [new URL(s)] throws: the URL class also parses
    addresses with credentials, with a host or a path that it normalises,
    with characters that it percent-encodes, with spaces around them, and
    with other schemes.  Where a property speaks of an address that does
    not parse, it is stated with [refused], which is true only of texts on
    which the URL class does throw.  The functions that call [new URL]
    ([rewriteWsEndpoint], [fetchJsonVersion], the [browserUrl] branch of
    the switch) are the code's on the texts that are [decided]: those
    that parse inside the fragment, and those that are refused. *)

Module NodeURL.
Import Text.

Record URL : Type := mkURL {
  scheme : string;            (* lower case, without the colon *)
  host : string;              (* serialised host, IPv6 in brackets *)
  port : option N;            (* [None] when absent or the scheme's default *)
  path : string;              (* serialised path, starts with a slash *)
  query : option string;
  fragment : option string
}.

Definition default_port (sch : string) : option N :=
  if String.eqb sch "ftp" then Some 21%N
  else if String.eqb sch "http" then Some 80%N
  else if String.eqb sch "https" then Some 443%N
  else if String.eqb sch "ws" then Some 80%N
  else if String.eqb sch "wss" then Some 443%N
  else None.

(** The special schemes that carry a host ([file] is left out). *)
Definition is_special (sch : string) : bool :=
  match default_port sch with Some _ => true | None => false end.

(** ** Hosts *)

(** Forbidden domain code points, among printable ASCII. *)
Definition domain_char (c : ascii) : bool :=
  is_graphic c && negb (char_in c "#/:<>?@[\]^|%").

(** An IPv6 address is eight 16-bit pieces. *)
Definition pieces_of (fields : string) : option (list N) :=
  if is_empty fields then Some []
  else mapM read_hex16 (split_on ":" fields).

(** Splits [s] at the first occurrence of a double colon. *)
Fixpoint split_compress (s : string) : option (string * string) :=
  match s with
  | String ":" (String ":" r) => Some (EmptyString, r)
  | String c r =>
      match split_compress r with
      | Some (a, b) => Some (String c a, b)
      | None => None
      end
  | EmptyString => None
  end.

Definition parse_ipv6 (s : string) : option (list N) :=
  match split_compress s with
  | Some (l, r) =>
      match pieces_of l, pieces_of r with
      | Some a, Some b =>
          if (List.length a + List.length b <=? 7)%nat
          then Some (a ++ repeat 0%N (8 - List.length a - List.length b) ++ b)%list
          else None
      | _, _ => None
      end
  | None =>
      match pieces_of s with
      | Some a => if (List.length a =? 8)%nat then Some a else None
      | None => None
      end
  end.

(** Length of the run of zero pieces that [l] starts with. *)
Fixpoint zero_run (l : list N) : nat :=
  match l with
  | 0%N :: r => S (zero_run r)
  | _ => 0
  end.

(** Start and length of the first longest run of zero pieces in [l], whose
    first piece has index [i]; [best] is the longest run seen before. *)
Fixpoint longest_zero_run (l : list N) (i : nat) (best : nat * nat)
  : nat * nat :=
  match l with
  | [] => best
  | _ :: r =>
      let n := zero_run l in
      longest_zero_run r (S i) (if (snd best <? n)%nat then (i, n) else best)
  end.

Definition serialize_ipv6 (l : list N) : string :=
  let '(start, len) := longest_zero_run l 0 (0, 0)%nat in
  if (len <? 2)%nat then join ":" (map show_hex16 l)
  else join ":" (map show_hex16 (firstn start l)) +:+ "::" +:+
       join ":" (map show_hex16 (skipn (start + len) l)).

Definition canonical_ipv6 (s : string) : bool :=
  match parse_ipv6 s with
  | Some l => String.eqb (serialize_ipv6 l) s
  | None => false
  end.

(** A bracketed host: the text between the brackets. *)
Definition unbracket (s : string) : option string :=
  r ← strip_char "[" s;
  m ← strip_char "]" (rev_string r);
  Some (rev_string m).

(** The last label of a host, a single trailing dot apart. *)
Definition last_label (s : string) : string :=
  match rev (split_on "." s) with
  | EmptyString :: x :: _ => x
  | x :: _ => x
  | [] => EmptyString
  end.

(** The "ends in a number" check of the host parser, on lowered text. *)
Definition ends_in_number (s : string) : bool :=
  let l := last_label s in
  (negb (is_empty l) && all_chars is_digit l)
  || match strip_char "0" l ≫= strip_char "x" with
     | Some r => all_chars is_lhex r
     | None => false
     end.

Definition canonical_octet (s : string) : bool :=
  match read_N s with
  | Some n => (n <=? 255)%N && String.eqb (show_N n) s
  | None => false
  end.

Definition canonical_ipv4 (s : string) : bool :=
  let parts := split_on "." s in
  (List.length parts =? 4)%nat && forallb canonical_octet parts.

(** A label that starts a Punycode form is outside the fragment. *)
Definition has_ace_label (s : string) : bool :=
  existsb (starts_with "xn--") (split_on "." s).

(** The host parser on the fragment: the host as it is serialised. *)
Definition parse_host (input : string) : option string :=
  let s := lower input in
  if starts_with "[" s
  then
    match unbracket s with
    | Some inner =>
        if all_chars (fun c => is_lhex c || Ascii.eqb c ":") inner
           && canonical_ipv6 inner
        then Some s else None
    | None => None
    end
  else if is_empty s || negb (all_chars domain_char s) then None
  else if ends_in_number s
       then (if canonical_ipv4 s then Some s else None)
       else if has_ace_label s then None else Some s.

(** ** The parser *)

Definition scheme_char (c : ascii) : bool :=
  is_alpha c || is_digit c || char_in c "+-.".

Definition is_slash (c : ascii) : bool := char_in c "/\".

(** The host state: the text up to the first colon outside brackets, and
    the text after that colon when there is one. *)
Fixpoint scan_host (s : string) (inside : bool) : string * option string :=
  match s with
  | EmptyString => (EmptyString, None)
  | String c r =>
      if Ascii.eqb c ":" && negb inside then (EmptyString, Some r)
      else
        let inside' :=
          if Ascii.eqb c "[" then true
          else if Ascii.eqb c "]" then false else inside in
        let '(h, p) := scan_host r inside' in (String c h, p)
  end.

(** The port state: decimal digits, at most 65535; the scheme's default
    port is not stored. *)
Definition parse_port (sch digits : string) : option (option N) :=
  if is_empty digits then Some None
  else match read_N digits with
       | Some n =>
           if (65535 <? n)%N then None
           else if decide (default_port sch = Some n) then Some None
           else Some (Some n)
       | None => None
       end.

Definition dot_segment (seg : string) : bool :=
  let l := lower seg in
  existsb (String.eqb l) [ "."; ".."; "%2e"; ".%2e"; "%2e."; "%2e%2e" ].

(** A path the parser keeps as written. *)
Definition plain_path (p : string) : bool :=
  all_chars (fun c => negb (Ascii.eqb c dquote || char_in c "\<>`{}^")) p
  && negb (existsb dot_segment (split_on "/" p)).

Definition plain_query (q : string) : bool :=
  all_chars (fun c => negb (Ascii.eqb c dquote || char_in c "<>'")) q.

Definition plain_fragment (f : string) : bool :=
  all_chars (fun c => negb (Ascii.eqb c dquote || char_in c "<>`")) f.

Definition parse_query_fragment (s : string)
  : option (option string * option string) :=
  let '(q, s1) :=
    match strip_char "?" s with
    | Some r => let '(q, s1) := span (fun c => negb (Ascii.eqb c "#")) r
                in (Some q, s1)
    | None => (None, s)
    end in
  let f := strip_char "#" s1 in
  if from_option plain_query true q && from_option plain_fragment true f
  then Some (q, f) else None.

(** [new URL(input)], without a base. *)
Definition parse (input : string) : option URL :=
  if negb (all_chars is_graphic input) then None else
  let '(sch, s1) := span scheme_char input in
  match sch, strip_char ":" s1 with
  | String c0 _, Some s2 =>
      let sch := lower sch in
      if negb (is_alpha c0) || negb (is_special sch) then None else
      let s3 := drop_while is_slash s2 in
      let '(authority, s4) := span (fun c => negb (char_in c "/\?#")) s3 in
      if negb (all_chars (fun c => negb (Ascii.eqb c "@")) authority)
      then None else
      let '(h, p) := scan_host authority false in
      let '(pa, s5) := span (fun c => negb (char_in c "?#")) s4 in
      match parse_host h, parse_port sch (default "" p),
            parse_query_fragment s5 with
      | Some h', Some p', Some (q, f) =>
          if plain_path pa
          then Some {| scheme := sch; host := h'; port := p';
                       path := if is_empty pa then "/" else pa;
                       query := q; fragment := f |}
          else None
      | _, _, _ => None
      end
  | _, _ => None
  end.

(** Texts on which [new URL(input)] throws, by the states of the parser
    that end in failure whatever follows.  The text is printable ASCII, so
    nothing is stripped or removed from it before parsing, and
    - it does not start with a scheme and a colon (a letter, then letters,
      digits, [+], [-] or [.]): without a base, the no-scheme state fails;
    - or its scheme is special, its authority holds no credentials, and
      the host is empty (the host state fails) or what follows the host's
      colon is not a number up to 65535 (the port state fails).
    The host itself is not looked at: a text with a host that the URL
    class rejects is not listed here. *)
Definition refused (input : string) : bool :=
  all_chars is_graphic input
  && let '(sch, s1) := span scheme_char input in
     match sch, strip_char ":" s1 with
     | String c0 _, Some s2 =>
         negb (is_alpha c0)
         || is_special (lower sch)
            && (let s3 := drop_while is_slash s2 in
                let '(authority, _) :=
                  span (fun c => negb (char_in c "/\?#")) s3 in
                all_chars (fun c => negb (Ascii.eqb c "@")) authority
                && let '(h, p) := scan_host authority false in
                   is_empty h
                   || match parse_port (lower sch) (default "" p) with
                      | Some _ => false
                      | None => true
                      end)
     | _, _ => true
     end.

(** The texts on which the model says what [new URL] does: it parses them
    as the URL class does, or it knows that the URL class throws. *)
Definition decided (input : string) : bool :=
  match parse input with
  | Some _ => true
  | None => refused input
  end.

(** ** Getters *)

Definition protocol (u : URL) : string := scheme u +:+ ":".

Definition hostname (u : URL) : string := host u.

Definition port_attr (u : URL) : string :=
  match port u with Some n => show_N n | None => "" end.

Definition pathname (u : URL) : string := path u.

(** [url.href], which [toString] returns. *)
Definition href (u : URL) : string :=
  scheme u +:+ "://" +:+ host u
  +:+ match port u with Some n => ":" +:+ show_N n | None => "" end
  +:+ path u
  +:+ match query u with Some q => "?" +:+ q | None => "" end
  +:+ match fragment u with Some f => "#" +:+ f | None => "" end.

Definition toString (u : URL) : string := href u.

(** ** Setters *)

(** The hostname state run on a setter's value: the text before the first
    of the characters that end a host; a colon outside brackets makes the
    setter give up. *)
Fixpoint scan_hostname (s : string) (inside : bool) : option string :=
  match s with
  | EmptyString => Some EmptyString
  | String c r =>
      if char_in c "/\?#" then Some EmptyString
      else if Ascii.eqb c ":" && negb inside then None
      else
        let inside' :=
          if Ascii.eqb c "[" then true
          else if Ascii.eqb c "]" then false else inside in
        String c <$> scan_hostname r inside'
  end.

(** [url.hostname = value]: a value that does not parse as a host of a
    special scheme leaves the URL as it was. *)
Definition set_hostname (u : URL) (value : string) : URL :=
  match scan_hostname value false with
  | Some buffer =>
      match parse_host buffer with
      | Some h => {| scheme := scheme u; host := h; port := port u;
                     path := path u; query := query u;
                     fragment := fragment u |}
      | None => u
      end
  | None => u
  end.

(** [url.port = value]: the empty string removes the port; otherwise the
    leading digits are read, and a value without leading digits or above
    65535 leaves the URL as it was. *)
Definition set_port (u : URL) (value : string) : URL :=
  let with_port p := {| scheme := scheme u; host := host u; port := p;
                        path := path u; query := query u;
                        fragment := fragment u |} in
  if is_empty value then with_port None
  else
    let '(digits, _) := span is_digit value in
    if is_empty digits then u
    else match parse_port (scheme u) digits with
         | Some p => with_port p
         | None => u
         end.

(** ** What the properties below speak about *)

(** The port a connection to [u] is made on: the stored port, or the default
    port of the scheme. *)
Definition effective_port (u : URL) : option N :=
  match port u with
  | Some n => Some n
  | None => default_port (scheme u)
  end.

(** What every address built by [parse] satisfies. *)
Record parsed (u : URL) : Prop := mk_parsed {
  parsed_special : is_special (scheme u) = true;
  parsed_host : parse_host (host u) = Some (host u);
  parsed_port : forall n, port u = Some n ->
                (n <= 65535)%N /\ default_port (scheme u) <> Some n
}.

End NodeURL.

(* ===================================================================== *)
(** * JavaScript values, exceptions and the effect monad *)
(* ===================================================================== *)

Module Js.
Import Text.

(** A thrown value.  Every value thrown in this code is an [Error] (or a
    subclass of it); only its [message] is ever read. *)
Inductive exn : Type := Error (message : string).

Definition message (e : exn) : string := let 'Error m := e in m.

(** [String(e)] for an [Error]. *)
Definition to_String (e : exn) : string :=
  if is_empty (message e) then "Error" else "Error: " +:+ message e.

(** [e.message || String(e)]. *)
Definition message_or_String (e : exn) : string :=
  if is_empty (message e) then to_String e else message e.

(** How a call ends: with a value, or by throwing (for a promise: fulfilled
    or rejected). *)
Inductive Res (A : Type) : Type :=
| Ok (a : A)
| Throw (e : exn).
Arguments Ok {A} a.
Arguments Throw {A} e.

(** Truthiness of an optional string: [undefined] and the empty string are
    falsy. *)
Definition truthy (o : option string) : bool :=
  match o with
  | Some s => negb (is_empty s)
  | None => false
  end.

(** [a || b] on optional strings. *)
Definition or_else (a b : option string) : option string :=
  if truthy a then a else b.

(** [hay.includes(needle)]. *)
Fixpoint includes (hay needle : string) : bool :=
  String.prefix needle hay
  || match hay with
     | EmptyString => false
     | String _ r => includes r needle
     end.

(** Handles on what the automation library gives out. *)
Definition Browser : Type := nat.
Definition Page : Type := nat.
Definition CDPSession : Type := nat.

(** A property value of a context object. *)
Inductive Value : Type :=
| VBrowser (b : Browser)
| VOther (n : nat).

#[global] Instance Value_eq_dec : EqDecision Value.
Proof. solve_decision. Defined.

(** An object is its own enumerable properties; objects live in a store and
    are passed around by address. *)
Definition loc : Type := nat.
Abbreviation Obj := (gmap string Value).

(** The body of [/json/version]. *)
Record VersionInfo : Type := mkVersionInfo {
  webSocketDebuggerUrl : option string;
  webSocketDebuggerUrlLegacy : option string
}.

(** What [fetch] resolves to: [res.ok], [res.status] and how [res.json()]
    ends. *)
Record Response : Type := mkResponse {
  ok : bool;
  status : N;
  json : Res VersionInfo
}.

(** The options object [ensureBrowserConnected] receives. *)
Record ConnectArgs : Type := mkConnectArgs {
  ca_browserURL : option string;
  ca_wsEndpoint : option string;
  ca_wsHeaders : option (list (string * string));
  ca_devtools : bool
}.

(** The options object handed to [puppeteer.connect]. *)
Record ConnectOptions : Type := mkConnectOptions {
  co_protocolTimeout : N;
  co_browserWSEndpoint : option string;
  co_headers : option (list (string * string))
}.

(** The options object [launch] receives. *)
Record LaunchArgs : Type := mkLaunchArgs {
  la_channel : option string;
  la_executablePath : option string;
  la_headless : bool;
  la_isolated : bool;
  la_userDataDir : option string;
  la_args : option (list string);
  la_devtools : bool;
  la_logFile : option string;
  la_viewport : option (N * N);
  la_acceptInsecureCerts : bool
}.

(** The options object handed to [puppeteer.launch]. *)
Record LaunchOptions : Type := mkLaunchOptions {
  lo_channel : option string;
  lo_targetFilter_devtools : bool;
  lo_executablePath : option string;
  lo_userDataDir : option string;
  lo_headless : bool;
  lo_args : list string;
  lo_acceptInsecureCerts : bool;
  lo_handleDevToolsAsPage : bool
}.

(** What the program does to the outside, in the order it does it. *)
Inductive Event : Type :=
| EvFetch (url : string) (timeoutMs : N)
| EvExecSync (command : string)
| EvConnect (options : ConnectOptions)
| EvPages (b : Browser)
| EvCreateCDPSession (p : Page)
| EvSend (client : CDPSession) (method : string)
| EvMkdir (dir : string)
| EvLaunch (options : LaunchOptions)
| EvPipe (b : Browser) (logFile : string)
| EvResize (p : Page) (width height : N)
| EvDisconnect (b : Browser)
| EvDnsLookup (hostname : string)
| EvMcpContextFrom (b : Browser)
| EvTimer (label : string)
| EvLog (line : string)
| EvResponseLine (line : string)
| EvIncludePages (flag : bool).

(** The outside world.  Every answer may depend on the moment the question
    is asked: the first argument of each field is the number of calls made
    before.  A timeout is one of the errors an answer can be. *)
Record Env : Type := mkEnv {
  env_fetch : nat -> string -> Res Response;
  env_execSync : nat -> string -> Res string;
  env_connect : nat -> ConnectOptions -> Res Browser;
  env_connected : nat -> Browser -> bool;
  env_pages : nat -> Browser -> Res (list Page);
  env_createCDPSession : nat -> Page -> Res CDPSession;
  env_send : nat -> CDPSession -> string -> Res unit;
  env_homedir : string;
  env_mkdir : nat -> string -> Res unit;
  env_launch : nat -> LaunchOptions -> Res Browser;
  env_resize : nat -> Page -> Res unit;
  env_disconnect : nat -> Browser -> Res unit;
  env_dns_lookup : nat -> string -> Res string;
  env_context_fields : nat -> Browser -> Res Obj;
  env_timer_first : nat -> bool
}.

(** The state of the process: the module-level variables of the three
    files, the object store, and what has happened so far. *)
Record World : Type := mkWorld {
  clock : nat;
  trace : list Event;
  browser_var : option Browser;        (* [let browser] of browser.js *)
  store : gmap loc Obj;
  context_var : option loc;            (* [let context] of main.js *)
  currentBrowserUrl : option string;   (* browser-management.js *)
  currentWsEndpoint : option string
}.

Definition M (A : Type) : Type := World -> Res A * World.

Definition ret {A} (a : A) : M A := fun w => (Ok a, w).

Definition throw {A} (e : exn) : M A := fun w => (Throw e, w).

Definition bind {A B} (m : M A) (k : A -> M B) : M B :=
  fun w =>
    match m w with
    | (Ok a, w') => k a w'
    | (Throw e, w') => (Throw e, w')
    end.

(** [try { m } catch (e) { handler e }]. *)
Definition try_catch {A} (m : M A) (handler : exn -> M A) : M A :=
  fun w =>
    match m w with
    | (Ok a, w') => (Ok a, w')
    | (Throw e, w') => handler e w'
    end.

(** [promise.catch(() => {})]: the outcome is discarded. *)
Definition swallow {A} (m : M A) : M unit :=
  fun w => (Ok tt, snd (m w)).

Definition gets {A} (f : World -> A) : M A := fun w => (Ok (f w), w).

Definition modify (f : World -> World) : M unit := fun w => (Ok tt, f w).

Definition record (ev : Event) (w : World) : World :=
  {| clock := clock w; trace := trace w ++ [ev]; browser_var := browser_var w;
     store := store w; context_var := context_var w;
     currentBrowserUrl := currentBrowserUrl w;
     currentWsEndpoint := currentWsEndpoint w |}.

Definition tick (w : World) : World :=
  {| clock := S (clock w); trace := trace w; browser_var := browser_var w;
     store := store w; context_var := context_var w;
     currentBrowserUrl := currentBrowserUrl w;
     currentWsEndpoint := currentWsEndpoint w |}.

Definition set_browser_var (b : Browser) (w : World) : World :=
  {| clock := clock w; trace := trace w; browser_var := Some b;
     store := store w; context_var := context_var w;
     currentBrowserUrl := currentBrowserUrl w;
     currentWsEndpoint := currentWsEndpoint w |}.

Definition set_store (s : gmap loc Obj) (w : World) : World :=
  {| clock := clock w; trace := trace w; browser_var := browser_var w;
     store := s; context_var := context_var w;
     currentBrowserUrl := currentBrowserUrl w;
     currentWsEndpoint := currentWsEndpoint w |}.

Definition set_context_var (c : loc) (w : World) : World :=
  {| clock := clock w; trace := trace w; browser_var := browser_var w;
     store := store w; context_var := Some c;
     currentBrowserUrl := currentBrowserUrl w;
     currentWsEndpoint := currentWsEndpoint w |}.

Definition set_current (url ws : option string) (w : World) : World :=
  {| clock := clock w; trace := trace w; browser_var := browser_var w;
     store := store w; context_var := context_var w;
     currentBrowserUrl := url; currentWsEndpoint := ws |}.

(** A call to the outside: it is recorded, the world answers, time moves. *)
Definition call {A} (ev : Event) (answer : nat -> Res A) : M A :=
  fun w => (answer (clock w), tick (record ev w)).

(** An effect on the outside that returns nothing and cannot fail. *)
Definition emit (ev : Event) : M unit := modify (record ev).

Definition logger (line : string) : M unit := emit (EvLog line).

(** [Promise.race([m, timer])] where the timer rejects with [Error(msg)]:
    the world says whether the timer is first.  The attempt [m] is not
    cancelled by the timer, so what it did stays done.

    The attempt is run to its end before the world is asked.  That is the
    code's order of events when the timer is not first.  When the timer is
    first, the code goes on while the attempt is still pending, and what
    the attempt does later (the assignment of [browser] at the end of
    [ensureBrowserConnected], under the timer of [getContext]) can fall
    between the caller's next steps; the model has no such run.  The races
    of [connectWithTimeout] and [sendWithTimeout] are over a single call
    that assigns nothing, so for them the order makes no difference to the
    variables and objects of the process. *)
Definition race_timer {A} (env : Env) (label msg : string) (m : M A) : M A :=
  fun w =>
    let '(r, w') := m w in
    if env_timer_first env (clock w')
    then (Throw (Error msg), tick (record (EvTimer label) w'))
    else (r, w').

(** A fresh address of the store. *)
Definition fresh_loc (s : gmap loc Obj) : loc := fresh (dom s).

(** ** What the properties below speak about *)

(** Starting a local browser process. *)
Definition is_launch (ev : Event) : bool :=
  match ev with
  | EvLaunch _ => true
  | _ => false
  end.

Definition no_launch (ev : Event) : Prop := is_launch ev = false.

(** From [w] to [w'] events were only added, and each satisfies [P]. *)
Definition emitted (P : Event -> Prop) (w w' : World) : Prop :=
  exists evs, trace w' = (trace w ++ evs)%list /\ Forall P evs.

(** From [w] to [w'] no object was written and [context] of main.js was
    not assigned. *)
Definition same_objects (w w' : World) : Prop :=
  store w' = store w /\ context_var w' = context_var w.

(** Every run of [m] takes a world to one related to it by [R]. *)
Definition preserves (R : World -> World -> Prop) {A} (m : M A) : Prop :=
  forall w, R w (snd (m w)).

(** What a relation between worlds must allow for the functions of
    [browser.js] to preserve it: the steps they are made of, where [P]
    holds of the events they record. *)
Class Frame (R : World -> World -> Prop) (P : Event -> Prop) : Prop := {
  frame_refl : forall w, R w w;
  frame_trans : forall w1 w2 w3, R w1 w2 -> R w2 w3 -> R w1 w3;
  frame_record : forall ev w, P ev -> R w (record ev w);
  frame_tick : forall w, R w (tick w);
  frame_set_browser_var : forall b w, R w (set_browser_var b w)
}.

Declare Scope js_scope.
Delimit Scope js_scope with js.
Notation "x <- m ;; k" := (bind m (fun x => k))
  (at level 20, m at level 99, k at level 200, only parsing) : js_scope.
Notation "' p <- m ;; k" := (bind m (fun p => k))
  (at level 20, p pattern, m at level 99, k at level 200, only parsing)
  : js_scope.
Notation "m ;; k" := (bind m (fun _ => k))
  (at level 100, k at level 200, right associativity, only parsing)
  : js_scope.

End Js.

(* ===================================================================== *)
(** * build/src/browser.js *)
(* ===================================================================== *)

Module BrowserJs.
Import Text Js.
Local Open Scope js_scope.

(** The [isLoopback] test of [rewriteWsEndpoint]. *)
Definition isLoopback (wsUrl : NodeURL.URL) : bool :=
  String.eqb (NodeURL.hostname wsUrl) "127.0.0.1"
  || String.eqb (NodeURL.hostname wsUrl) "localhost"
  || String.eqb (NodeURL.hostname wsUrl) "::1".

(** The body of the [try] of [rewriteWsEndpoint], in the exception monad
    [option]: [None] stands for [new NodeURL] throwing, which is what
    [NodeURL.parse] answering [None] means on the texts that are
    [NodeURL.decided]. *)
Definition rewriteWsEndpoint_try (originalWsUrl viaBrowserURL : string)
  : option string :=
  wsUrl ← NodeURL.parse originalWsUrl;
  via ← NodeURL.parse viaBrowserURL;
  if negb (isLoopback wsUrl)
     && String.eqb (NodeURL.port_attr wsUrl) (NodeURL.port_attr via)
  then Some originalWsUrl
  else
    let wsUrl := NodeURL.set_hostname wsUrl (NodeURL.hostname via) in
    let wsUrl := NodeURL.set_port wsUrl (NodeURL.port_attr via) in
    Some (NodeURL.toString wsUrl).

(** [rewriteWsEndpoint(originalWsUrl, viaBrowserURL)]: the [catch] returns
    the original text. *)
Definition rewriteWsEndpoint (originalWsUrl viaBrowserURL : string) : string :=
  match rewriteWsEndpoint_try originalWsUrl viaBrowserURL with
  | Some result => result
  | None => originalWsUrl
  end.

(** The address [rewriteWsEndpoint] serialises when it rewrites: the two
    assignments of its last branch. *)
Definition rewritten (wsUrl via : NodeURL.URL) : NodeURL.URL :=
  NodeURL.set_port (NodeURL.set_hostname wsUrl (NodeURL.hostname via))
                   (NodeURL.port_attr via).

(** [makeTargetFilter(devtools)], as a predicate on a target's URL. *)
Definition makeTargetFilter (devtools : bool) (url : string) : bool :=
  let ignoredPrefixes :=
    ([ "chrome://"; "chrome-extension://"; "chrome-untrusted://" ]
     ++ (if devtools then [] else [ "devtools://" ]))%list in
  if String.eqb url "chrome://newtab/" then true
  else negb (existsb (fun p => starts_with p url) ignoredPrefixes).

(** What [discoverWebtopBrowser] returns when it finds a browser. *)
Record Discovered : Type := mkDiscovered {
  d_browserURL : string;
  d_wsEndpoint : string;
  d_container : string;
  d_ip : string;
  d_port : N
}.

Section WithEnv.
Context (env : Env).

Definition lift {A} (r : Res A) : M A := fun w => (r, w).

Definition fetchJsonWithTimeout (url : string) (timeoutMs : N)
  : M VersionInfo :=
  res <- call (EvFetch url timeoutMs) (fun t => env_fetch env t url) ;;
  if negb (ok res)
  then throw (Error ("HTTP " +:+ show_N (status res) +:+ " from " +:+ url))
  else lift (json res).

Definition resolveWsFromBrowserURL (browserURL : string) (timeoutMs : N)
  : M string :=
  version <- fetchJsonWithTimeout (browserURL +:+ "/json/version") timeoutMs ;;
  match or_else (webSocketDebuggerUrl version)
                (webSocketDebuggerUrlLegacy version) with
  | Some original =>
      if is_empty original
      then throw (Error ("No webSocketDebuggerUrl in " +:+ browserURL
                         +:+ "/json/version"))
      else ret (rewriteWsEndpoint original browserURL)
  | None =>
      throw (Error ("No webSocketDebuggerUrl in " +:+ browserURL
                    +:+ "/json/version"))
  end.

Definition connectWithTimeout (connectOptions : ConnectOptions)
    (timeoutMs : N) : M Browser :=
  race_timer env "connect"
    ("Timed out connecting to Chrome after " +:+ show_N timeoutMs +:+ "ms")
    (call (EvConnect connectOptions)
          (fun t => env_connect env t connectOptions)).

Definition sendWithTimeout (client : CDPSession) (method : string)
    (timeoutMs : N) : M unit :=
  race_timer env method (method +:+ " timed out")
    (call (EvSend client method) (fun t => env_send env t client method)).

Definition execSync (command : string) : M string :=
  call (EvExecSync command) (fun t => env_execSync env t command).

Definition dockerCmd : string := "/usr/bin/docker".

(** The inner loop of [discoverWebtopBrowser], over the ports. *)
Fixpoint discover_ports (container ip : string) (ports : list N)
  : M (option Discovered) :=
  match ports with
  | [] => ret None
  | port :: rest =>
      try_catch
        (let browserURL := "http://" +:+ ip +:+ ":" +:+ show_N port in
         wsEndpoint <- resolveWsFromBrowserURL browserURL 2000 ;;
         ret (Some (mkDiscovered browserURL wsEndpoint container ip port)))
        (fun _ => discover_ports container ip rest)
  end.

(** The outer loop of [discoverWebtopBrowser], over the containers. *)
Fixpoint discover_containers (candidates : list string)
  : M (option Discovered) :=
  match candidates with
  | [] => ret None
  | container :: rest =>
      found <-
        try_catch
          (running <- execSync (dockerCmd +:+ " inspect -f '{{.State.Running}}' "
                                +:+ container) ;;
           if negb (String.eqb (trim running) "true") then ret None
           else
             ip <- execSync (dockerCmd +:+
                     " inspect -f '{{range .NetworkSettings.Networks}}{{.IPAddress}}{{end}}' "
                     +:+ container) ;;
             if is_empty (trim ip) then ret None
             else discover_ports container (trim ip) [9999; 9222]%N)
          (fun _ => ret None) ;;
      match found with
      | Some d => ret (Some d)
      | None => discover_containers rest
      end
  end.

Definition discoverWebtopBrowser : M (option Discovered) :=
  discover_containers [ "webtop1"; "webtop2"; "webtop3" ].

(** [browser?.connected], read now. *)
Definition live_browser : M (option Browser) :=
  fun w =>
    (Ok match browser_var w with
        | Some b => if env_connected env (clock w) b then Some b else None
        | None => None
        end, w).

(** The first part of [ensureBrowserConnected], up to the [try]: the
    connection target named in error messages and the options for
    [puppeteer.connect]. *)
Definition connect_plan (options : ConnectArgs)
  : M (option string * ConnectOptions) :=
  let browserURL := ca_browserURL options in
  '(connectionTarget, wsEndpoint) <-
    (if negb (truthy browserURL) && negb (truthy (ca_wsEndpoint options))
     then
       discovered <- discoverWebtopBrowser ;;
       match discovered with
       | Some d =>
           ret (Some (d_container d +:+ " (" +:+ d_ip d +:+ ":"
                      +:+ show_N (d_port d) +:+ ")"),
                Some (d_wsEndpoint d))
       | None =>
           throw (Error "No browserURL or wsEndpoint provided, and auto-discovery found no running webtop containers with Chrome DevTools")
       end
     else ret (or_else browserURL (ca_wsEndpoint options),
               ca_wsEndpoint options)) ;;
  if truthy wsEndpoint
  then ret (connectionTarget,
            {| co_protocolTimeout := 15000; co_browserWSEndpoint := wsEndpoint;
               co_headers := ca_wsHeaders options |})
  else if truthy browserURL
  then
    resolved <- resolveWsFromBrowserURL (default "" browserURL) 3000 ;;
    ret (connectionTarget,
         {| co_protocolTimeout := 15000; co_browserWSEndpoint := Some resolved;
            co_headers := None |})
  else ret (connectionTarget,
            {| co_protocolTimeout := 15000; co_browserWSEndpoint := None;
               co_headers := None |}).

(** The warm-up after a connect, with its own [try]/[catch]. *)
Definition preflight (b : Browser) : M unit :=
  try_catch
    (pages <- call (EvPages b) (fun t => env_pages env t b) ;;
     match pages with
     | page :: _ =>
         client <- call (EvCreateCDPSession page)
                        (fun t => env_createCDPSession env t page) ;;
         swallow (sendWithTimeout client "Runtime.enable" 1000) ;;
         swallow (sendWithTimeout client "Page.enable" 1000)
     | [] => ret tt
     end)
    (fun _ => ret tt).

Definition ensureBrowserConnected (options : ConnectArgs) : M Browser :=
  current <- live_browser ;;
  match current with
  | Some b => ret b
  | None =>
      '(connectionTarget, connectOptions) <- connect_plan options ;;
      try_catch
        (b <- connectWithTimeout connectOptions 8000 ;;
         modify (set_browser_var b) ;;
         preflight b ;;
         ret b)
        (fun error =>
           throw (Error ("Failed to connect to Chrome DevTools at "
                         +:+ default "null" connectionTarget +:+ ": "
                         +:+ message error)))
  end.

Definition path_join (parts : list string) : string := join "/" parts.

Definition launch (options : LaunchArgs) : M Browser :=
  let channel := la_channel options in
  let named_channel :=
    match channel with
    | Some c => if is_empty c || String.eqb c "stable" then None else Some c
    | None => None
    end in
  let profileDirName :=
    match named_channel with
    | Some c => "chrome-profile-" +:+ c
    | None => "chrome-profile"
    end in
  userDataDir <-
    (if negb (la_isolated options) && negb (truthy (la_userDataDir options))
     then
       let dir := path_join [ env_homedir env; ".cache"; "chrome-devtools-mcp";
                              profileDirName ] in
       call (EvMkdir dir) (fun t => env_mkdir env t dir) ;;
       ret (Some dir)
     else ret (la_userDataDir options)) ;;
  let args :=
    (default [] (la_args options) ++ [ "--hide-crash-restore-bubble" ]
     ++ (if la_headless options then [ "--screen-info={3840x2160}" ] else [])
     ++ (if la_devtools options then [ "--auto-open-devtools-for-tabs" ]
         else []))%list in
  let puppeteerChannel :=
    if truthy (la_executablePath options) then None
    else match named_channel with
         | Some c => Some ("chrome-" +:+ c)
         | None => Some "chrome"
         end in
  let launchOptions :=
    {| lo_channel := puppeteerChannel;
       lo_targetFilter_devtools := la_devtools options;
       lo_executablePath := la_executablePath options;
       lo_userDataDir := userDataDir;
       lo_headless := la_headless options;
       lo_args := args;
       lo_acceptInsecureCerts := la_acceptInsecureCerts options;
       lo_handleDevToolsAsPage := la_devtools options |} in
  try_catch
    (b <- call (EvLaunch launchOptions)
               (fun t => env_launch env t launchOptions) ;;
     match la_logFile options with
     | Some f => emit (EvPipe b f)
     | None => ret tt
     end ;;
     match la_viewport options with
     | Some (width, height) =>
         pages <- call (EvPages b) (fun t => env_pages env t b) ;;
         match pages with
         | page :: _ =>
             call (EvResize page width height)
                  (fun t => env_resize env t page)
         | [] => ret tt
         end
     | None => ret tt
     end ;;
     ret b)
    (fun error =>
       if truthy userDataDir
          && includes (message error) "The browser is already running"
       then throw (Error ("The browser is already running for "
                          +:+ default "" userDataDir
                          +:+ ". Use --isolated to run multiple browser instances."))
       else throw error).

Definition ensureBrowserLaunched (options : LaunchArgs) : M Browser :=
  current <- live_browser ;;
  match current with
  | Some b => ret b
  | None =>
      b <- launch options ;;
      modify (set_browser_var b) ;;
      ret b
  end.

End WithEnv.

End BrowserJs.

(* ===================================================================== *)
(** * McpContext.from *)
(* ===================================================================== *)

Module McpContext.
Import Text Js.
Local Open Scope js_scope.

(** Modelled from the spec: [McpContext.js] is not among the sources.  The
    spec calls the session context a capability view bound to the active
    connection, and the callers read the connection back as
    [context.browser]; so [McpContext.from(browser, logger)] is taken to
    build a new object whose [browser] property is the connection it was
    given, with whatever other properties the outside supplies, and it may
    fail. *)
Definition from (env : Env) (b : Browser) : M loc :=
  fields <- call (EvMcpContextFrom b) (fun t => env_context_fields env t b) ;;
  fun w =>
    let l := fresh_loc (store w) in
    (Ok l, set_store (<[ l := <[ "browser" := VBrowser b ]> fields ]> (store w)) w).

(** [context.browser], for a context held by address. *)
Definition browser_of (w : World) (c : loc) : option Browser :=
  match store w !! c with
  | Some obj =>
      match obj !! "browser" with
      | Some (VBrowser b) => Some b
      | _ => None
      end
  | None => None
  end.

End McpContext.

(* ===================================================================== *)
(** * build/src/main.js *)
(* ===================================================================== *)

Module MainJs.
Import Text Js BrowserJs.
Local Open Scope js_scope.

(** The parsed command line, [args]. *)
Record Args : Type := mkArgs {
  browserUrl : option string;
  wsEndpoint : option string;
  wsHeaders : option (list (string * string));
  chromeArg : option (list string);
  proxyServer : option string;
  experimentalDevtools : option bool;
  headless : bool;
  executablePath : option string;
  channel : option string;
  isolated : bool;
  viewport : option (N * N);
  acceptInsecureCerts : bool;
  logFile : option string
}.

Section WithEnv.
Context (env : Env) (args : Args).

Definition withTimeout {A} (promise : M A) (ms : N) (label : string) : M A :=
  race_timer env label
    (label +:+ " timed out after " +:+ show_N ms +:+ "ms") promise.

(** The connect attempt of [getContext]: the promise its [try] awaits. *)
Definition connect_attempt : M Browser :=
  withTimeout
    (ensureBrowserConnected env
       {| ca_browserURL := browserUrl args;
          ca_wsEndpoint := wsEndpoint args;
          ca_wsHeaders := wsHeaders args;
          ca_devtools := default false (experimentalDevtools args) |})
    12000 "connect to Chrome".

Definition getContext : M loc :=
  let extraArgs :=
    (default [] (chromeArg args)
     ++ (if truthy (proxyServer args)
         then [ "--proxy-server=" +:+ default "" (proxyServer args) ]
         else []))%list in
  let devtools := default false (experimentalDevtools args) in
  browser <-
    try_catch
      connect_attempt
      (fun connectError =>
         if negb (truthy (browserUrl args)) && negb (truthy (wsEndpoint args))
         then
           ensureBrowserLaunched env
             {| la_channel := channel args;
                la_executablePath := executablePath args;
                la_headless := headless args;
                la_isolated := isolated args;
                la_userDataDir := None;
                la_args := Some extraArgs;
                la_devtools := devtools;
                la_logFile := logFile args;
                la_viewport := viewport args;
                la_acceptInsecureCerts := acceptInsecureCerts args |}
         else throw connectError) ;;
  current <- gets (fun w =>
               match context_var w with
               | Some c =>
                   if decide (McpContext.browser_of w c = Some browser)
                   then Some c else None
               | None => None
               end) ;;
  match current with
  | Some c => ret c
  | None =>
      c <- McpContext.from env browser ;;
      modify (set_context_var c) ;;
      ret c
  end.

End WithEnv.

End MainJs.

(* ===================================================================== *)
(** * build/src/tools/browser-management.js *)
(* ===================================================================== *)

Module BrowserManagement.
Import Text Js.
Local Open Scope js_scope.

(** [/^\d{1,3}(\.\d{1,3}){3}$/.test(host)]. *)
Definition isIp (host : string) : bool :=
  let parts := split_on "." host in
  (List.length parts =? 4)%nat
  && forallb (fun p => negb (is_empty p) && all_chars is_digit p
                       && (String.length p <=? 3)%nat) parts.

(** What [tryCandidatesAndConnect] returns. *)
Record Connected : Type := mkConnected {
  newBrowser : Browser;
  resolvedHttpUrl : string;
  r_wsEndpoint : string
}.

(** [request.params] of [switch_browser]. *)
Record SwitchParams : Type := mkSwitchParams {
  p_container : option string;
  p_port : option Z;
  p_browserUrl : option string;
  p_wsEndpoint : option string
}.

(** The closure [pushCandidatesForHostPort] of the handler: it appends to
    the [candidates] array it closes over, passed here explicitly. *)
Definition pushCandidatesForHostPort (hostOrIp : string) (p : Z)
    (candidates : list string) : list string :=
  let candidates := (candidates ++ [ "http://" +:+ hostOrIp +:+ ":" +:+ show_Z p ])%list in
  let candidates :=
    if negb (p =? 9999)%Z
    then (candidates ++ [ "http://" +:+ hostOrIp +:+ ":9999" ])%list
    else candidates in
  let candidates :=
    if negb (p =? 9222)%Z
    then (candidates ++ [ "http://" +:+ hostOrIp +:+ ":9222" ])%list
    else candidates in
  candidates.

Section WithEnv.
Context (env : Env).

Definition resolveHostToIp (host : string) : M (option string) :=
  try_catch
    (address <- call (EvDnsLookup host) (fun t => env_dns_lookup env t host) ;;
     ret (Some address))
    (fun _ => ret None).

Definition fetchJsonVersion (httpBaseUrl : string) (timeoutMs : N)
  : M VersionInfo :=
  match NodeURL.parse httpBaseUrl with
  | None => throw (Error "Invalid URL")
  | Some u =>
      let base :=
        NodeURL.protocol u +:+ "//" +:+ NodeURL.hostname u +:+ ":"
        +:+ (if is_empty (NodeURL.port_attr u)
             then (if String.eqb (NodeURL.protocol u) "https:"
                   then "443" else "80")
             else NodeURL.port_attr u) in
      res <- call (EvFetch (base +:+ "/json/version") timeoutMs)
                  (fun t => env_fetch env t (base +:+ "/json/version")) ;;
      if negb (ok res)
      then throw (Error ("HTTP " +:+ show_N (status res)))
      else BrowserJs.lift (json res)
  end.

(** The body of the [try] of [tryCandidatesAndConnect] for one candidate. *)
Definition attempt (ensureBrowserConnected : ConnectArgs -> M Browser)
    (logger : string -> M unit) (candidate : string) : M Connected :=
  data <- fetchJsonVersion candidate 2000 ;;
  match webSocketDebuggerUrl data with
  | Some ws =>
      if is_empty ws
      then throw (Error "No webSocketDebuggerUrl in /json/version")
      else
        logger ("Resolved " +:+ candidate +:+ " -> " +:+ ws) ;;
        newBrowser <- ensureBrowserConnected
                        {| ca_browserURL := None; ca_wsEndpoint := Some ws;
                           ca_wsHeaders := None; ca_devtools := false |} ;;
        ret (mkConnected newBrowser candidate ws)
  | None => throw (Error "No webSocketDebuggerUrl in /json/version")
  end.

(** The loop of [tryCandidatesAndConnect], with the [errors] array gathered
    so far, and the [throw] that follows the loop. *)
Fixpoint tryCandidates_loop (ensureBrowserConnected : ConnectArgs -> M Browser)
    (logger : string -> M unit) (candidates : list string)
    (errors : list string) : M Connected :=
  match candidates with
  | [] =>
      let detail := join (String "010" EmptyString)
                         (map (fun e => "- " +:+ e) errors) in
      throw (Error ("Could not connect to any candidate endpoint:"
                    +:+ String "010" EmptyString +:+ detail))
  | candidate :: rest =>
      try_catch
        (attempt ensureBrowserConnected logger candidate)
        (fun e =>
           logger ("Failed candidate " +:+ candidate +:+ ": "
                   +:+ message_or_String e) ;;
           tryCandidates_loop ensureBrowserConnected logger rest
             (errors ++ [ candidate +:+ ": " +:+ message_or_String e ])%list)
  end.

Definition tryCandidatesAndConnect (candidates : list string)
    (ensureBrowserConnected : ConnectArgs -> M Browser)
    (logger : string -> M unit) : M Connected :=
  tryCandidates_loop ensureBrowserConnected logger candidates [].

(** [Object.assign(context, newContext)]: every own property of the source
    is written onto the target, which keeps its address and its other
    properties. *)
Definition Object_assign (target source : loc) : M unit :=
  modify (fun w =>
    set_store (<[ target := default ∅ (store w !! source)
                              ∪ default ∅ (store w !! target) ]> (store w)) w).

(** The part of the handler that finds the new browser: the direct
    WebSocket path, or candidates from a container name or a browser URL.
    It returns [newBrowser], [resolvedHttpUrl] and [resolvedWs]. *)
Definition switch_connect (params : SwitchParams)
  : M (Browser * option string * option string) :=
  if truthy (p_wsEndpoint params)
  then
    logger ("Connecting via provided WebSocket endpoint: "
            +:+ default "" (p_wsEndpoint params)) ;;
    newBrowser <- BrowserJs.ensureBrowserConnected env
                    {| ca_browserURL := None;
                       ca_wsEndpoint := p_wsEndpoint params;
                       ca_wsHeaders := None; ca_devtools := false |} ;;
    ret (newBrowser, None, p_wsEndpoint params)
  else
    candidates <-
      (if truthy (p_container params)
       then
         let container := default "" (p_container params) in
         logger ("Resolving container name " +:+ String dquote container
                 +:+ String dquote " to IP") ;;
         ip <- resolveHostToIp container ;;
         if negb (truthy ip)
         then throw (Error ("Unable to resolve container "
                            +:+ String dquote container
                            +:+ String dquote " to an IP address"))
         else
           let p := match p_port params with
                    | Some n => if (n =? 0)%Z then 9999%Z else n
                    | None => 9999%Z
                    end in
           logger ("Container " +:+ String dquote container
                   +:+ String dquote " resolved to " +:+ default "" ip
                   +:+ ". Trying ports [" +:+ show_Z p +:+ ", 9999, 9222]") ;;
           ret (pushCandidatesForHostPort (default "" ip) p [])
       else if truthy (p_browserUrl params)
       then
         match NodeURL.parse (default "" (p_browserUrl params)) with
         | None => throw (Error "Invalid URL")
         | Some u =>
             hostIp <-
               (if negb (isIp (NodeURL.hostname u))
                then
                  logger ("Resolving hostname " +:+ String dquote (NodeURL.hostname u)
                          +:+ String dquote " to IP") ;;
                  resolved <- resolveHostToIp (NodeURL.hostname u) ;;
                  if negb (truthy resolved)
                  then throw (Error ("Unable to resolve hostname "
                                     +:+ String dquote (NodeURL.hostname u)
                                     +:+ String dquote " to an IP address"))
                  else ret (default "" resolved)
                else ret (NodeURL.hostname u)) ;;
             let p := match NodeURL.port u with
                      | Some n => Z.of_N n
                      | None => if String.eqb (NodeURL.protocol u) "https:"
                                then 443%Z else 80%Z
                      end in
             logger ("Normalized browserUrl to IP " +:+ hostIp +:+ ":"
                     +:+ show_Z p) ;;
             ret (pushCandidatesForHostPort hostIp p [])
         end
       else ret []) ;;
    result <- tryCandidatesAndConnect candidates
                (BrowserJs.ensureBrowserConnected env) logger ;;
    ret (newBrowser result, Some (resolvedHttpUrl result),
         Some (r_wsEndpoint result)).

(** The guard of the handler: one of the three targets is given. *)
Definition has_target (params : SwitchParams) : bool :=
  truthy (p_container params) || truthy (p_browserUrl params)
  || truthy (p_wsEndpoint params).

(** [context.browser && context.browser.connected], read now: the browser
    of the context when it is connected. *)
Definition active_browser (context : loc) : M (option Browser) :=
  fun w =>
    (Ok match McpContext.browser_of w context with
        | Some b => if env_connected env (clock w) b then Some b else None
        | None => None
        end, w).

(** The step of the handler that disconnects the current browser. *)
Definition disconnect_current (context : loc) : M unit :=
  active <- active_browser context ;;
  match active with
  | Some b =>
      logger "Disconnecting from current browser" ;;
      call (EvDisconnect b) (fun t => env_disconnect env t b)
  | None => ret tt
  end.

(** [switchBrowser.handler(request, response, context)]; the context is the
    object the caller holds, given by address. *)
Definition switchBrowser_handler (params : SwitchParams) (context : loc)
  : M unit :=
  if negb (truthy (p_container params)) && negb (truthy (p_browserUrl params))
     && negb (truthy (p_wsEndpoint params))
  then throw (Error "Provide one of: container, browserUrl, or wsEndpoint")
  else
    disconnect_current context ;;
    '(newBrowser, resolvedHttpUrl, resolvedWs) <- switch_connect params ;;
    newContext <- McpContext.from env newBrowser ;;
    Object_assign context newContext ;;
    modify (set_current resolvedHttpUrl resolvedWs) ;;
    let target :=
      or_else (p_wsEndpoint params)
        (or_else resolvedWs
           (or_else resolvedHttpUrl
              (or_else (p_browserUrl params) (p_container params)))) in
    emit (EvResponseLine ("Successfully switched to browser at "
                          +:+ default "undefined" target)) ;;
    emit (EvIncludePages true).

(** ** What the properties below speak about *)

(** A run of [tryCandidatesAndConnect] over candidates that all fail, one
    after the other: [fails cs w reasons w'] when trying the candidates
    [cs] in order from the world [w], each attempt throws, its failure is
    logged, and the world is [w'] in the end; [reasons] lists what
    [e.message || String(e)] was for each. *)
Inductive fails (ensureBrowserConnected : ConnectArgs -> M Browser)
    (logger : string -> M unit)
  : list string -> World -> list string -> World -> Prop :=
| fails_nil w : fails ensureBrowserConnected logger [] w [] w
| fails_cons candidate rest w e w1 w2 reasons w3 :
    attempt ensureBrowserConnected logger candidate w = (Throw e, w1) ->
    logger ("Failed candidate " +:+ candidate +:+ ": "
            +:+ message_or_String e) w1 = (Ok tt, w2) ->
    fails ensureBrowserConnected logger rest w2 reasons w3 ->
    fails ensureBrowserConnected logger (candidate :: rest) w
          (message_or_String e :: reasons) w3.

(** The error thrown when no candidate connects, for the given candidates
    and their failure reasons. *)
Definition aggregate_error (candidates reasons : list string) : exn :=
  Error ("Could not connect to any candidate endpoint:"
         +:+ String "010" EmptyString
         +:+ join (String "010" EmptyString)
               (zip_with (fun c r => "- " +:+ c +:+ ": " +:+ r)
                         candidates reasons)).

End WithEnv.

(** The address of a candidate. *)
Definition candidate_url (host : string) (port : Z) : string :=
  "http://" +:+ host +:+ ":" +:+ show_Z port.

(** Following the words of the spec: the candidate ports in priority order,
    the requested port, the forwarding port and the default debug port. *)
Definition priority_ports (requested : Z) : list Z :=
  [ requested; 9999; 9222 ]%Z.

(** Following the words of the spec: deduplication, where of equal entries
    the first one stays. *)
Fixpoint dedup_from (seen l : list Z) : list Z :=
  match l with
  | [] => []
  | x :: r =>
      if existsb (Z.eqb x) seen then dedup_from seen r
      else x :: dedup_from (x :: seen) r
  end.

Definition deduplicate (l : list Z) : list Z := dedup_from [] l.

End BrowserManagement.

(* ===================================================================== *)
(** * The text of an address *)
(* ===================================================================== *)

(** What the round trip between [NodeURL.parse] and [NodeURL.href] is
    stated with. *)

Module UrlText.
Import Text NodeURL.

(** The text of a path as [parse] keeps it: printable, without the
    characters that end a path, empty or starting with a slash, and with
    nothing to encode or to remove. *)
Definition kept_path (p : string) : bool :=
  all_chars is_graphic p
  && all_chars (fun c => negb (char_in c "?#")) p
  && (is_empty p || starts_with "/" p)
  && plain_path p.

Definition kept_query (q : string) : bool :=
  all_chars is_graphic q
  && all_chars (fun c => negb (Ascii.eqb c "#")) q
  && plain_query q.

Definition kept_fragment (f : string) : bool :=
  all_chars is_graphic f && plain_fragment f.

(** The text of an address, from its parts as they are written: scheme,
    host, the digits after the colon when there is one, path, query and
    fragment. *)
Definition assemble (sch h : string) (digits : option string)
    (p : string) (q f : option string) : string :=
  sch +:+ "://" +:+ h
  +:+ match digits with Some d => ":" +:+ d | None => "" end
  +:+ p
  +:+ match q with Some x => "?" +:+ x | None => "" end
  +:+ match f with Some x => "#" +:+ x | None => "" end.

(** An address in the form [href] gives it: what [parse] builds, with a
    path, query and fragment kept as written. *)
Record serialised (u : URL) : Prop := mk_serialised {
  serialised_parsed : parsed u;
  serialised_path : kept_path (path u) = true /\ is_empty (path u) = false;
  serialised_query : forall q, query u = Some q -> kept_query q = true;
  serialised_fragment : forall f, fragment u = Some f -> kept_fragment f = true
}.

(** The first character of [s], if any, does not satisfy [p]. *)
Definition stops (p : ascii -> bool) (s : string) : Prop :=
  match s with
  | EmptyString => True
  | String c _ => p c = false
  end.

(** A character that can stand in an authority without ending it. *)
Definition authority_char (c : ascii) : bool :=
  is_graphic c && negb (char_in c "/\?#@").

(** The text after the authority: path, query and fragment. *)
Definition tail_text (p : string) (q f : option string) : string :=
  p +:+ match q with Some x => "?" +:+ x | None => "" end
    +:+ match f with Some x => "#" +:+ x | None => "" end.

Definition port_text (digits : option string) : string :=
  match digits with Some d => ":" +:+ d | None => "" end.

End UrlText.

(* ===================================================================== *)
(** * What the properties observe *)
(* ===================================================================== *)

Module Observations.
Import Text Js.

(** From [w] to [w'] no module-level variable was assigned and no object
    was written: only time has passed and events were recorded. *)
Definition steady (w w' : World) : Prop :=
  browser_var w' = browser_var w
  /\ store w' = store w
  /\ context_var w' = context_var w
  /\ currentBrowserUrl w' = currentBrowserUrl w
  /\ currentWsEndpoint w' = currentWsEndpoint w.

(** From [w] to [w'] the context objects and the connection details that
    [switch_browser] records are as they were. *)
Definition same_session (w w' : World) : Prop :=
  store w' = store w
  /\ context_var w' = context_var w
  /\ currentBrowserUrl w' = currentBrowserUrl w
  /\ currentWsEndpoint w' = currentWsEndpoint w.

(** What a relation between worlds must allow for code that only talks to
    the outside to preserve it. *)
Class Quiet (R : World -> World -> Prop) (P : Event -> Prop) : Prop := {
  quiet_refl : forall w, R w w;
  quiet_trans : forall w1 w2 w3, R w1 w2 -> R w2 w3 -> R w1 w3;
  quiet_record : forall ev w, P ev -> R w (record ev w);
  quiet_tick : forall w, R w (tick w)
}.

(** A connect that names the control channel it connects to. *)
Definition aimed (ev : Event) : Prop :=
  match ev with
  | EvConnect options => truthy (co_browserWSEndpoint options) = true
  | _ => True
  end.

(** Asking the outside where a browser is: a discovery request or a
    [docker] command. *)
Definition is_lookup (ev : Event) : bool :=
  match ev with
  | EvFetch _ _ | EvExecSync _ => true
  | _ => false
  end.

(** Going straight to the control channel [target]: no lookup, and no
    connect but with the options [target]. *)
Definition straight_to (target : ConnectOptions) (ev : Event) : Prop :=
  is_lookup ev = false /\ forall o, ev = EvConnect o -> o = target.

(** What [launch] does for the options it was given: a profile directory
    is created only when the launch is not isolated and none was named;
    the browser is started with the caller's arguments first and the
    crash-bubble switch after them, with a profile directory unless the
    launch is isolated, with the directory the caller named when there is
    one, and on a named channel exactly when no executable was given. *)
Definition launched_for (options : LaunchArgs) (ev : Event) : Prop :=
  match ev with
  | EvMkdir _ =>
      la_isolated options = false /\ truthy (la_userDataDir options) = false
  | EvLaunch lo =>
      (exists rest,
         lo_args lo
         = (default [] (la_args options)
            ++ "--hide-crash-restore-bubble" :: rest)%list)
      /\ (la_isolated options = false -> truthy (lo_userDataDir lo) = true)
      /\ (truthy (la_userDataDir options) = true ->
          lo_userDataDir lo = la_userDataDir options)
      /\ (lo_channel lo = None <-> truthy (la_executablePath options) = true)
  | EvFetch _ _ | EvExecSync _ | EvConnect _ => False
  | _ => True
  end.

(** The address that the discovery endpoint [browserURL] advertises when
    it is asked at time [t]: what a success response whose body parses
    names in [webSocketDebuggerUrl], or else in
    [webSocketDebuggerUrlLegacy]. *)
Definition advertised_at (env : Env) (t : nat) (browserURL : string)
  : option string :=
  match env_fetch env t (browserURL +:+ "/json/version") with
  | Ok res =>
      if ok res
      then match json res with
           | Ok version => or_else (webSocketDebuggerUrl version)
                                   (webSocketDebuggerUrlLegacy version)
           | Throw _ => None
           end
      else None
  | Throw _ => None
  end.

(** Connecting through the discovery endpoint [browserURL], which
    advertises [advertised]: the only request is for its [/json/version],
    no [docker] command is run, and a connect goes to the advertised
    address, which is not empty, as [rewriteWsEndpoint] gives it for that
    endpoint, without headers. *)
Definition resolved_through (advertised : option string)
    (browserURL : string) (ev : Event) : Prop :=
  match ev with
  | EvFetch url timeoutMs =>
      url = browserURL +:+ "/json/version" /\ timeoutMs = 3000%N
  | EvConnect options =>
      (exists original,
         advertised = Some original
         /\ is_empty original = false
         /\ co_browserWSEndpoint options
            = Some (BrowserJs.rewriteWsEndpoint original browserURL))
      /\ co_headers options = None
  | EvExecSync _ => False
  | _ => True
  end.


(** The connect attempt of [getContext], started in [w], settles before
    its timer of twelve seconds fires: the race is decided by the attempt,
    and nothing of it is still pending when [getContext] goes on.  (A
    world holds no pending attempt of an earlier call either: worlds are
    the states of the process between such calls.) *)
Definition settled_in_time (env : Env) (args : MainJs.Args) (w : World)
  : Prop :=
  env_timer_first env
    (clock (snd (BrowserJs.ensureBrowserConnected env
                   {| ca_browserURL := MainJs.browserUrl args;
                      ca_wsEndpoint := MainJs.wsEndpoint args;
                      ca_wsHeaders := MainJs.wsHeaders args;
                      ca_devtools :=
                        default false (MainJs.experimentalDevtools args) |}
                   w)))
  = false.

(** A launch as [getContext] asks for it: only without a connection hint,
    with the [--chromeArg] arguments of the command line first, then the
    proxy switch when a proxy server was named, then the crash-bubble
    switch; with a profile directory unless [--isolated]; and on a channel
    exactly when no executable path was given. *)
Definition launched_from_args (args : MainJs.Args) (ev : Event) : Prop :=
  forall lo, ev = EvLaunch lo ->
    truthy (MainJs.browserUrl args) = false
    /\ truthy (MainJs.wsEndpoint args) = false
    /\ (exists rest,
          lo_args lo
          = (default [] (MainJs.chromeArg args)
             ++ (if truthy (MainJs.proxyServer args)
                 then [ "--proxy-server="
                        +:+ default "" (MainJs.proxyServer args) ]
                 else [])
             ++ "--hide-crash-restore-bubble" :: rest)%list)
    /\ (MainJs.isolated args = false -> truthy (lo_userDataDir lo) = true)
    /\ (lo_channel lo = None
        <-> truthy (MainJs.executablePath args) = true).

End Observations.

(* ===================================================================== *)
(** * build/src/main.js: the callback of a registered tool *)
(* ===================================================================== *)

Module ToolDispatch.
Import Text Js MainJs.
Local Open Scope js_scope.

(** An item of the content a tool call answers with. *)
Inductive ContentItem : Type :=
| TextContent (text : string)
| OtherContent (n : nat).

(** What the callback of a registered tool resolves to; a missing
    [isError] reads [false]. *)
Record CallToolResult : Type := mkCallToolResult {
  content : list ContentItem;
  isError : bool
}.

(** [try { m } finally { f }]: [f] runs however [m] ends, and what [f]
    throws replaces the outcome of [m]. *)
Definition try_finally {A} (m : M A) (f : M unit) : M A :=
  fun w =>
    let '(r, w1) := m w in
    match f w1 with
    | (Ok _, w2) => (r, w2)
    | (Throw e, w2) => (Throw e, w2)
    end.

Section Callback.
Context (env : Env) (args : Args).

(** The callback is in main.js; [Mutex.js] and [McpResponse.js], which it
    calls, are not among the sources, and nothing is assumed of them: the
    mutex is any [acquire] that hands out a guard with any [dispose] of that
    guard, the tool is any [handler] working on a context, and the response
    any [handle] that turns what the tool wrote into content. *)
Context {Guard : Type} (acquire : M Guard) (dispose : Guard -> M unit).
Context (handler : loc -> M unit).
Context (handle : string -> loc -> M (list ContentItem)).

(** The [try]/[catch] of the callback, between acquiring the guard and
    disposing of it; [request] is the text of the parameters as
    [JSON.stringify] prints them. *)
Definition guarded (name request : string) : M CallToolResult :=
  try_catch
    (logger (name +:+ " request: " +:+ request) ;;
     context <- getContext env args ;;
     handler context ;;
     try_catch
       (content <- handle name context ;;
        ret {| content := content; isError := false |})
       (fun error =>
          ret {| content := [ TextContent (message error) ];
                 isError := true |}))
    (fun err =>
       logger (name +:+ " error: " +:+ message err) ;;
       ret {| content := [ TextContent ("[" +:+ name +:+ "] Error: "
                                        +:+ message err) ];
              isError := true |}).

(** The callback [registerTool] hands to the server for a tool. *)
Definition tool_callback (name request : string) : M CallToolResult :=
  guard <- acquire ;;
  try_finally (guarded name request) (dispose guard).

End Callback.

End ToolDispatch.

(* ===================================================================== *)
(** * Scenarios *)
(* ===================================================================== *)

(** Concrete worlds on which the properties below are exercised. *)

Module Scenario.
Import Text Js.

(** A process that has just started. *)
Definition start : World :=
  {| clock := 0; trace := []; browser_var := None; store := ∅;
     context_var := None; currentBrowserUrl := None;
     currentWsEndpoint := None |}.

Definition advertised : string := "ws://10.0.0.5:9999/devtools/browser/x".

(** Nothing answers: every call to the outside fails. *)
Definition unreachable : Env :=
  {| env_fetch := fun _ _ => Throw (Error "fetch failed");
     env_execSync := fun _ _ => Throw (Error "Command failed");
     env_connect := fun _ _ => Throw (Error "connect ECONNREFUSED");
     env_connected := fun _ _ => false;
     env_pages := fun _ _ => Throw (Error "Target closed");
     env_createCDPSession := fun _ _ => Throw (Error "Target closed");
     env_send := fun _ _ _ => Throw (Error "Target closed");
     env_homedir := "/root";
     env_mkdir := fun _ _ => Throw (Error "EACCES");
     env_launch := fun _ _ => Throw (Error "Failed to launch the browser process");
     env_resize := fun _ _ => Throw (Error "Target closed");
     env_disconnect := fun _ _ => Throw (Error "Target closed");
     env_dns_lookup := fun _ _ => Throw (Error "ENOTFOUND");
     env_context_fields := fun _ _ => Throw (Error "Target closed");
     env_timer_first := fun _ => false |}.

(** A browser that answers the connect (as connection 2) and on which a
    context can be built, but every step of the warm-up fails, and so does
    disconnecting.  Discovery at [url] is answered with the control-channel
    address [version url], when there is one; a connection counts as live
    when [live] says so. *)
Definition answering (version : string -> option string)
    (live : nat -> Browser -> bool) : Env :=
  {| env_fetch := fun _ url =>
       match version url with
       | Some ws =>
           Ok {| ok := true; status := 200;
                 json := Ok {| webSocketDebuggerUrl := Some ws;
                               webSocketDebuggerUrlLegacy := None |} |}
       | None => Throw (Error "fetch failed")
       end;
     env_execSync := fun _ _ => Throw (Error "Command failed");
     env_connect := fun _ _ => Ok 2;
     env_connected := live;
     env_pages := fun _ _ => Throw (Error "Target closed");
     env_createCDPSession := fun _ _ => Throw (Error "Target closed");
     env_send := fun _ _ _ => Throw (Error "Target closed");
     env_homedir := "/root";
     env_mkdir := fun _ _ => Ok tt;
     env_launch := fun _ _ => Ok 3;
     env_resize := fun _ _ => Ok tt;
     env_disconnect := fun _ _ => Throw (Error "Connection closed");
     env_dns_lookup := fun _ _ => Ok "10.0.0.5";
     env_context_fields := fun _ _ => Ok {[ "pages" := VOther 20 ]};
     env_timer_first := fun _ => false |}.

(** The browser sits behind a forwarder on port 9999 of 10.0.0.5, the only
    place where discovery is answered. *)
Definition reachable (live : nat -> Browser -> bool) : Env :=
  answering
    (fun url => if String.eqb url "http://10.0.0.5:9999/json/version"
                then Some advertised else None)
    live.

(** Every discovery request is answered with the same address. *)
Definition advertising (ws : string) : Env :=
  answering (fun _ => Some ws) (fun _ _ => false).

(** A process whose context, at address 0, is bound to connection 1. *)
Definition bound : World :=
  {| clock := 0; trace := []; browser_var := Some 1;
     store := {[ 0 := {[ "browser" := VBrowser 1; "pages" := VOther 10 ]} ]};
     context_var := Some 0; currentBrowserUrl := None;
     currentWsEndpoint := None |}.

(** Command-line arguments with an explicit WebSocket endpoint. *)
Definition explicit_args : MainJs.Args :=
  {| MainJs.browserUrl := None; MainJs.wsEndpoint := Some advertised;
     MainJs.wsHeaders := None; MainJs.chromeArg := None;
     MainJs.proxyServer := None; MainJs.experimentalDevtools := None;
     MainJs.headless := true; MainJs.executablePath := None;
     MainJs.channel := None; MainJs.isolated := false;
     MainJs.viewport := None; MainJs.acceptInsecureCerts := false;
     MainJs.logFile := None |}.

Definition connect_to_advertised : ConnectArgs :=
  {| ca_browserURL := None; ca_wsEndpoint := Some advertised;
     ca_wsHeaders := None; ca_devtools := false |}.

Definition default_launch : LaunchArgs :=
  {| la_channel := None; la_executablePath := None; la_headless := true;
     la_isolated := false; la_userDataDir := None; la_args := None;
     la_devtools := false; la_logFile := None; la_viewport := None;
     la_acceptInsecureCerts := false |}.

Definition switch_to_advertised : BrowserManagement.SwitchParams :=
  {| BrowserManagement.p_container := None;
     BrowserManagement.p_port := None;
     BrowserManagement.p_browserUrl := None;
     BrowserManagement.p_wsEndpoint := Some advertised |}.

End Scenario.

(** Further worlds, for the edge cases. *)

Module Cases.
Import Text Js.

(** A browser of an older make: discovery is answered everywhere, with the
    control-channel address [ws] in the legacy field only. *)
Definition legacy_only (ws : string) : Env :=
  {| env_fetch := fun _ _ =>
       Ok {| ok := true; status := 200;
             json := Ok {| webSocketDebuggerUrl := None;
                           webSocketDebuggerUrlLegacy := Some ws |} |};
     env_execSync := fun _ _ => Throw (Error "Command failed");
     env_connect := fun _ _ => Ok 2;
     env_connected := fun _ _ => false;
     env_pages := fun _ _ => Ok [];
     env_createCDPSession := fun _ _ => Throw (Error "Target closed");
     env_send := fun _ _ _ => Throw (Error "Target closed");
     env_homedir := "/root";
     env_mkdir := fun _ _ => Ok tt;
     env_launch := fun _ _ => Ok 3;
     env_resize := fun _ _ => Ok tt;
     env_disconnect := fun _ _ => Ok tt;
     env_dns_lookup := fun _ _ => Ok "10.0.0.5";
     env_context_fields := fun _ _ => Ok ∅;
     env_timer_first := fun _ => false |}.

(** A process whose context, at address 0, is bound to connection 1, which
    is gone, while the module-level [browser] holds connection 2. *)
Definition astray : World :=
  {| clock := 0; trace := []; browser_var := Some 2;
     store := {[ 0 := {[ "browser" := VBrowser 1 ]} ]};
     context_var := Some 0; currentBrowserUrl := None;
     currentWsEndpoint := None |}.

(** A browser that answers the connect, as connection 2, and on which no
    context can be built. *)
Definition contextless : Env :=
  {| env_fetch := fun _ _ => Throw (Error "fetch failed");
     env_execSync := fun _ _ => Throw (Error "Command failed");
     env_connect := fun _ _ => Ok 2;
     env_connected := fun _ _ => false;
     env_pages := fun _ _ => Ok [];
     env_createCDPSession := fun _ _ => Throw (Error "Target closed");
     env_send := fun _ _ _ => Throw (Error "Target closed");
     env_homedir := "/root";
     env_mkdir := fun _ _ => Ok tt;
     env_launch := fun _ _ => Ok 3;
     env_resize := fun _ _ => Ok tt;
     env_disconnect := fun _ _ => Ok tt;
     env_dns_lookup := fun _ _ => Ok "10.0.0.5";
     env_context_fields := fun _ _ => Throw (Error "Target closed");
     env_timer_first := fun _ => false |}.

(** Connection 2 is live, and only that one. *)
Definition second_live : nat -> Browser -> bool := fun _ b => Nat.eqb b 2.


End Cases.

(* ===================================================================== *)
(** * Properties *)
(* ===================================================================== *)

(** ** Text *)

Module TextFacts.
Import Text.

Lemma lower_ascii_idem c : lower_ascii (lower_ascii c) = lower_ascii c.
Proof.
  destruct c as [[] [] [] [] [] [] [] []]; reflexivity.
Qed.

Lemma lower_idem s : lower (lower s) = lower s.
Proof.
  induction s as [|c s IH]; simpl; [reflexivity|].
  now rewrite lower_ascii_idem, IH.
Qed.

Lemma span_all p s : all_chars p s = true -> span p s = (s, EmptyString).
Proof.
  induction s as [|c s IH]; simpl; [reflexivity|].
  rewrite andb_true_iff. intros [Hc Hs]. rewrite Hc, IH by assumption.
  reflexivity.
Qed.

Lemma show_uint_digits d :
  all_chars is_digit (NilEmpty.string_of_uint d) = true.
Proof. induction d; simpl; auto. Qed.

Lemma show_N_digits n : all_chars is_digit (show_N n) = true.
Proof. apply show_uint_digits. Qed.

Lemma show_N_nonempty n : is_empty (show_N n) = false.
Proof.
  unfold show_N. destruct n as [|p]; [reflexivity|].
  simpl. unfold Pos.to_uint.
  pose proof (DecimalPos.Unsigned.to_uint_nonnil p) as H.
  unfold Pos.to_uint in H.
  destruct (Decimal.rev (Pos.to_little_uint p)); simpl; congruence.
Qed.

Lemma read_show_N n : read_N (show_N n) = Some n.
Proof.
  unfold read_N. rewrite show_N_nonempty, show_N_digits. simpl.
  unfold show_N. rewrite NilEmpty.usu. simpl.
  now rewrite DecimalN.Unsigned.of_to.
Qed.

Lemma show_Z_inj x y : show_Z x = show_Z y -> x = y.
Proof.
  unfold show_Z. intros H.
  apply (f_equal NilEmpty.int_of_string) in H.
  rewrite !NilEmpty.isi in H. injection H as H.
  now apply DecimalZ.to_int_inj.
Qed.

End TextFacts.

(** ** The URL model *)

Module NodeURLFacts.
Import Text TextFacts NodeURL.

Lemma append_cons c s t : String c s +:+ t = String c (s +:+ t).
Proof. reflexivity. Qed.

Lemma append_nil_l s : EmptyString +:+ s = s.
Proof. reflexivity. Qed.

Lemma append_nil_r s : s +:+ EmptyString = s.
Proof.
  induction s as [|c s IH]; [reflexivity|]. now rewrite append_cons, IH.
Qed.

Lemma append_assoc a b c : (a +:+ b) +:+ c = a +:+ (b +:+ c).
Proof.
  induction a as [|x a IH]; [reflexivity|]. now rewrite !append_cons, IH.
Qed.

Lemma rev_string_app a b : rev_string (a +:+ b) = rev_string b +:+ rev_string a.
Proof.
  induction a as [|c a IH].
  - now rewrite append_nil_l, append_nil_r.
  - rewrite append_cons. simpl. now rewrite IH, append_assoc.
Qed.

Lemma rev_string_involutive s : rev_string (rev_string s) = s.
Proof.
  induction s as [|c s IH]; simpl; [reflexivity|].
  now rewrite rev_string_app, IH.
Qed.

Lemma strip_char_Some c s r : strip_char c s = Some r -> s = String c r.
Proof.
  destruct s as [|d s]; simpl; [discriminate|].
  destruct (Ascii.eqb_spec d c); [|discriminate]. congruence.
Qed.

Lemma unbracket_Some s inner :
  unbracket s = Some inner -> s = "[" +:+ inner +:+ "]".
Proof.
  unfold unbracket. intros H.
  destruct (strip_char "[" s) as [r|] eqn:Hr; [|discriminate]. simpl in H.
  destruct (strip_char "]" (rev_string r)) as [m|] eqn:Hm; [|discriminate].
  simpl in H. injection H as <-.
  apply strip_char_Some in Hr, Hm. subst s.
  apply (f_equal rev_string) in Hm. rewrite rev_string_involutive in Hm.
  subst r. reflexivity.
Qed.

(** A host the parser accepts is its own reading. *)
Lemma parse_host_lower s h : parse_host s = Some h -> h = lower s.
Proof.
  unfold parse_host. intros H.
  repeat match type of H with
         | (if ?b then _ else _) = _ => destruct b
         | match ?o with _ => _ end = _ => destruct o
         end; congruence.
Qed.

Lemma parse_host_fix s h : parse_host s = Some h -> parse_host h = Some h.
Proof.
  intros H. pose proof (parse_host_lower _ _ H) as ->.
  unfold parse_host in *. now rewrite lower_idem.
Qed.

Lemma domain_char_plain c :
  domain_char c = true ->
  char_in c "/\?#" = false /\ Ascii.eqb c ":" = false
  /\ Ascii.eqb c "[" = false /\ Ascii.eqb c "]" = false.
Proof.
  destruct c as [[] [] [] [] [] [] [] []]; vm_compute; intuition congruence.
Qed.

Lemma inner_char_plain c :
  is_lhex c || Ascii.eqb c ":" = true ->
  char_in c "/\?#" = false /\ Ascii.eqb c "[" = false
  /\ Ascii.eqb c "]" = false.
Proof.
  destruct c as [[] [] [] [] [] [] [] []]; vm_compute; intuition congruence.
Qed.

Lemma scan_hostname_domain s inside :
  all_chars domain_char s = true -> scan_hostname s inside = Some s.
Proof.
  revert inside. induction s as [|c s IH]; intros inside; [reflexivity|].
  cbn [all_chars scan_hostname]. rewrite andb_true_iff. intros [Hc Hs].
  destruct (domain_char_plain c Hc) as (-> & -> & -> & ->).
  cbn [andb]. now rewrite IH.
Qed.

Lemma scan_hostname_inner inner rest :
  all_chars (fun c => is_lhex c || Ascii.eqb c ":") inner = true ->
  scan_hostname (inner +:+ rest) true
  = append inner <$> scan_hostname rest true.
Proof.
  induction inner as [|c s IH].
  - intros _. rewrite append_nil_l. now destruct (scan_hostname rest true).
  - cbn [all_chars]. rewrite andb_true_iff. intros [Hc Hs].
    rewrite append_cons. cbn [scan_hostname].
    destruct (inner_char_plain c Hc) as (-> & -> & ->).
    rewrite andb_false_r. rewrite IH by assumption.
    now destruct (scan_hostname rest true).
Qed.

Lemma scan_hostname_host h :
  parse_host h = Some h -> scan_hostname h false = Some h.
Proof.
  intros H. pose proof (parse_host_lower _ _ H) as Hl.
  unfold parse_host in H. rewrite <- Hl in H.
  destruct (starts_with "[" h).
  - destruct (unbracket h) as [inner|] eqn:Hu; [|discriminate].
    destruct (all_chars _ inner) eqn:Hin; [|discriminate].
    apply unbracket_Some in Hu. rewrite Hu at 1.
    rewrite append_cons, append_nil_l. simpl.
    rewrite scan_hostname_inner by assumption. simpl.
    now rewrite Hu.
  - destruct (is_empty h); [discriminate|].
    destruct (all_chars domain_char h) eqn:Hd; [|discriminate].
    now apply scan_hostname_domain.
Qed.

Lemma set_hostname_host u h :
  parse_host h = Some h ->
  set_hostname u h
  = {| scheme := scheme u; host := h; port := port u; path := path u;
       query := query u; fragment := fragment u |}.
Proof.
  intros H. unfold set_hostname.
  now rewrite (scan_hostname_host _ H), H.
Qed.

Lemma parse_port_show sch n :
  (n <= 65535)%N ->
  parse_port sch (show_N n)
  = Some (if decide (default_port sch = Some n) then None else Some n).
Proof.
  intros Hn. unfold parse_port.
  rewrite show_N_nonempty, read_show_N.
  destruct (N.ltb_spec 65535 n); [lia|].
  now destruct (decide _).
Qed.

Lemma set_port_show u n :
  (n <= 65535)%N ->
  set_port u (show_N n)
  = {| scheme := scheme u; host := host u;
       port := if decide (default_port (scheme u) = Some n)
               then None else Some n;
       path := path u; query := query u; fragment := fragment u |}.
Proof.
  intros Hn. unfold set_port.
  rewrite show_N_nonempty, (span_all _ _ (show_N_digits n)),
    show_N_nonempty, parse_port_show by assumption.
  reflexivity.
Qed.

Lemma parse_port_range sch digits p n :
  parse_port sch digits = Some p -> p = Some n ->
  (n <= 65535)%N /\ default_port sch <> Some n.
Proof.
  unfold parse_port. intros H ->.
  destruct (is_empty digits); [discriminate|].
  destruct (read_N digits) as [m|]; [|discriminate].
  destruct (N.ltb_spec 65535 m); [discriminate|].
  destruct (decide _); [discriminate|]. injection H as ->. split; [lia|assumption].
Qed.

Lemma parse_parsed s u : parse s = Some u -> parsed u.
Proof.
  unfold parse. intros H.
  destruct (negb (all_chars is_graphic s)); [discriminate|].
  destruct (span scheme_char s) as [sch s1].
  destruct sch as [|c0 sch]; [discriminate|].
  destruct (strip_char ":" s1) as [s2|]; [|discriminate].
  destruct (negb (is_alpha c0) || negb (is_special _)) eqn:Hs; [discriminate|].
  destruct (span _ (drop_while is_slash s2)) as [authority s4].
  destruct (negb (all_chars _ authority)); [discriminate|].
  destruct (scan_host authority false) as [h p].
  destruct (span _ s4) as [pa s5].
  destruct (parse_host h) as [h'|] eqn:Hh; [|discriminate].
  destruct (parse_port _ _) as [p'|] eqn:Hp; [|discriminate].
  destruct (parse_query_fragment s5) as [[q f]|]; [|discriminate].
  destruct (plain_path pa); [|discriminate].
  injection H as <-.
  apply orb_false_elim in Hs as [_ Hs]. apply negb_false_iff in Hs.
  split; simpl.
  - assumption.
  - eapply parse_host_fix; eassumption.
  - intros n Hn. eapply parse_port_range; eassumption.
Qed.

(** The model parses no text that the URL class is known to refuse. *)
Lemma refused_not_parsed s : refused s = true -> parse s = None.
Proof.
  unfold refused, parse.
  destruct (all_chars is_graphic s); [|discriminate]. cbn [andb negb].
  destruct (span scheme_char s) as [sch s1].
  destruct sch as [|c0 sch]; [reflexivity|].
  destruct (strip_char ":" s1) as [s2|]; [|reflexivity].
  destruct (is_alpha c0); [|reflexivity]. cbn [negb orb].
  destruct (is_special _); [|reflexivity]. cbn [negb andb].
  destruct (span _ (drop_while is_slash s2)) as [authority s4].
  destruct (all_chars _ authority); [|reflexivity]. cbn [negb andb].
  destruct (scan_host authority false) as [h p].
  destruct (span _ s4) as [pa s5].
  destruct (is_empty h) eqn:Hh.
  - destruct h; [|discriminate]. reflexivity.
  - cbn [orb]. destruct (parse_port _ _); [discriminate|].
    intros _. now destruct (parse_host h).
Qed.

(** A text the model decides parses, or is refused by the URL class. *)
Lemma decided_cases s :
  decided s = true -> (exists u, parse s = Some u) \/ refused s = true.
Proof.
  unfold decided. destruct (parse s) as [u|]; [left; now exists u|now right].
Qed.

End NodeURLFacts.

(** ** rewriteWsEndpoint *)

Module RewriteFacts.
Import Text TextFacts NodeURL NodeURLFacts Js BrowserJs.

(** The comparison with the unbracketed text never succeeds: the hostname
    of an IPv6 address carries its brackets. *)
Lemma hostname_never_bare_ipv6 u : parsed u -> hostname u <> "::1".
Proof.
  intros [_ Hh _] E. unfold hostname in E. rewrite E in Hh.
  vm_compute in Hh. discriminate.
Qed.

Lemma isLoopback_listed u :
  parsed u ->
  isLoopback u = true
  <-> hostname u = "127.0.0.1" \/ hostname u = "localhost".
Proof.
  intros Hu. unfold isLoopback.
  rewrite !orb_true_iff, !String.eqb_eq.
  pose proof (hostname_never_bare_ipv6 u Hu). tauto.
Qed.

Lemma rewritten_fields wsUrl via :
  parsed via ->
  rewritten wsUrl via
  = {| scheme := scheme wsUrl; host := host via;
       port := match port via with
               | Some n => if decide (default_port (scheme wsUrl) = Some n)
                           then None else Some n
               | None => None
               end;
       path := path wsUrl; query := query wsUrl;
       fragment := fragment wsUrl |}.
Proof.
  intros [_ Hh Hp]. unfold rewritten, hostname, port_attr.
  rewrite set_hostname_host by assumption.
  destruct (port via) as [n|] eqn:E.
  - destruct (Hp n eq_refl) as [Hn _]. now rewrite set_port_show.
  - reflexivity.
Qed.

Lemma rewriteWsEndpoint_unfold o v wsUrl via :
  parse o = Some wsUrl -> parse v = Some via ->
  rewriteWsEndpoint o v
  = if negb (isLoopback wsUrl)
       && String.eqb (port_attr wsUrl) (port_attr via)
    then o else toString (rewritten wsUrl via).
Proof.
  intros Ho Hv. unfold rewriteWsEndpoint, rewriteWsEndpoint_try.
  rewrite Ho, Hv. simpl. now destruct (_ && _).
Qed.

Lemma rewritten_effective_port wsUrl via n :
  parsed via -> port via = Some n ->
  effective_port (rewritten wsUrl via) = Some n.
Proof.
  intros Hv Hn. rewrite rewritten_fields by assumption.
  unfold effective_port. simpl. rewrite Hn.
  destruct (decide _) as [E|]; [exact E|reflexivity].
Qed.

(** The example of the spec: a loopback address advertised through a
    forwarder, rewritten by [rewriteWsEndpoint] and so by the resolver. *)
Lemma rewriteWsEndpoint_spec_example :
  rewriteWsEndpoint "ws://127.0.0.1:9222/devtools/browser/x"
                    "http://10.0.0.5:9999"
  = "ws://10.0.0.5:9999/devtools/browser/x"
  /\ fst (resolveWsFromBrowserURL
            (Scenario.advertising "ws://127.0.0.1:9222/devtools/browser/x")
            "http://10.0.0.5:9999" 3000 Scenario.start)
     = Ok "ws://10.0.0.5:9999/devtools/browser/x".
Proof. vm_compute. split; reflexivity. Qed.

(** The port is copied as the [port] attribute, which is empty for the
    default port of the Origin's scheme: from an [https] Origin on its
    default port a [ws] address comes out on port 80. *)
Lemma rewriteWsEndpoint_default_port_example :
  rewriteWsEndpoint "ws://127.0.0.1:9222/devtools/browser/x" "https://10.0.0.5"
  = "ws://10.0.0.5/devtools/browser/x"
  /\ effective_port <$> parse "https://10.0.0.5" = Some (Some 443%N)
  /\ effective_port <$> parse "ws://10.0.0.5/devtools/browser/x"
     = Some (Some 80%N).
Proof. vm_compute. repeat split; reflexivity. Qed.

(** For the two loopback names the comparison recognises, the rewritten
    address has the Origin's host, the advertised path, and the Origin's
    port when the Origin names one. *)
Lemma rewriteWsEndpoint_listed_loopback o v wsUrl via :
  parse o = Some wsUrl -> parse v = Some via ->
  hostname wsUrl = "127.0.0.1" \/ hostname wsUrl = "localhost" ->
  rewriteWsEndpoint o v = toString (rewritten wsUrl via)
  /\ hostname (rewritten wsUrl via) = hostname via
  /\ pathname (rewritten wsUrl via) = pathname wsUrl
  /\ (forall n, port via = Some n ->
      effective_port (rewritten wsUrl via) = Some n).
Proof.
  intros Ho Hv Hl.
  pose proof (parse_parsed _ _ Ho) as Pw.
  pose proof (parse_parsed _ _ Hv) as Pv.
  rewrite (rewriteWsEndpoint_unfold _ _ _ _ Ho Hv).
  apply (isLoopback_listed _ Pw) in Hl. rewrite Hl. simpl.
  split; [reflexivity|].
  rewrite rewritten_fields by assumption. simpl.
  repeat split. intros n Hn.
  rewrite <- (rewritten_effective_port wsUrl via n Pv Hn).
  now rewrite rewritten_fields.
Qed.

(** C1 (code defect).  The claim counts [::1] among the loopback hosts, as
    the comparison in [rewriteWsEndpoint] means to; but the hostname of
    such an address reads [[::1]], with its brackets, so the comparison
    fails: an IPv6 loopback address advertised on the Origin's own port is
    returned as it is, with neither host nor port substituted. *)
Theorem rewriteWsEndpoint_ipv6_loopback_kept :
  let advertised := "ws://[::1]:9222/devtools/browser/x" in
  let origin := "http://10.0.0.5:9222" in
  hostname <$> parse advertised = Some "[::1]"
  /\ isLoopback <$> parse advertised = Some false
  /\ rewriteWsEndpoint advertised origin = advertised
  /\ fst (resolveWsFromBrowserURL (Scenario.advertising advertised) origin
            3000 Scenario.start) = Ok advertised
  /\ hostname <$> parse (rewriteWsEndpoint advertised origin)
     <> hostname <$> parse origin.
Proof. vm_compute. repeat split; congruence. Qed.

(** C2 (as the code has it).  For an advertised address and an Origin that
    both parse, the advertised host not being the IPv6 loopback:
    [rewriteWsEndpoint] returns the advertised text unmodified when the
    advertised hostname is neither [127.0.0.1] nor [localhost] and its port
    equals the Origin's, whatever else the host is; otherwise it returns
    the advertised address with the Origin's hostname and port set, and
    scheme, path, query and fragment kept. *)
Theorem rewriteWsEndpoint_rule o v wsUrl via :
  parse o = Some wsUrl -> parse v = Some via ->
  hostname wsUrl <> "[::1]" ->
  let listed := hostname wsUrl = "127.0.0.1" \/ hostname wsUrl = "localhost" in
  (~ listed -> port_attr wsUrl = port_attr via -> rewriteWsEndpoint o v = o)
  /\ (listed \/ port_attr wsUrl <> port_attr via ->
      exists r,
        rewriteWsEndpoint o v = toString r
        /\ hostname r = hostname via
        /\ (port via = None -> port r = None)
        /\ (forall n, port via = Some n -> effective_port r = Some n)
        /\ scheme r = scheme wsUrl /\ pathname r = pathname wsUrl
        /\ query r = query wsUrl /\ fragment r = fragment wsUrl).
Proof.
  intros Ho Hv _ listed.
  pose proof (parse_parsed _ _ Ho) as Pw.
  pose proof (parse_parsed _ _ Hv) as Pv.
  rewrite (rewriteWsEndpoint_unfold _ _ _ _ Ho Hv).
  pose proof (isLoopback_listed _ Pw) as Hl. fold listed in Hl.
  split.
  - intros Hn Hp. destruct (isLoopback wsUrl); [tauto|].
    apply String.eqb_eq in Hp. now rewrite Hp.
  - intros Hcase. exists (rewritten wsUrl via).
    assert (negb (isLoopback wsUrl)
            && String.eqb (port_attr wsUrl) (port_attr via) = false) as ->.
    { destruct Hcase as [Hc|Hc].
      - apply Hl in Hc. now rewrite Hc.
      - apply String.eqb_neq in Hc. rewrite Hc. apply andb_false_r. }
    split; [reflexivity|].
    split; [now rewrite rewritten_fields|].
    split; [intros E; rewrite rewritten_fields by assumption; simpl;
            now rewrite E|].
    split; [intros n E; now apply rewritten_effective_port|].
    rewrite rewritten_fields by assumption. simpl. tauto.
Qed.

Lemma rewriteWsEndpoint_rule_witness :
  rewriteWsEndpoint "ws://172.17.0.4:9999/devtools/browser/x"
                    "http://172.17.0.4:9999"
  = "ws://172.17.0.4:9999/devtools/browser/x".
Proof.
  refine (proj1 (rewriteWsEndpoint_rule
                   "ws://172.17.0.4:9999/devtools/browser/x"
                   "http://172.17.0.4:9999"
                   (mkURL "ws" "172.17.0.4" (Some 9999%N)
                          "/devtools/browser/x" None None)
                   (mkURL "http" "172.17.0.4" (Some 9999%N) "/" None None)
                   _ _ _) _ _).
  - vm_compute. reflexivity.
  - vm_compute. reflexivity.
  - vm_compute. congruence.
  - vm_compute. intros [H|H]; congruence.
  - vm_compute. reflexivity.
Defined.

(** C2, as stated, fails: an unspecified advertised host on the Origin's
    port is not rewritten. *)
Lemma rewriteWsEndpoint_unspecified_kept :
  let advertised := "ws://0.0.0.0:9222/devtools/browser/x" in
  let origin := "http://10.0.0.5:9222" in
  hostname <$> parse advertised = Some "0.0.0.0"
  /\ rewriteWsEndpoint advertised origin = advertised
  /\ hostname <$> parse (rewriteWsEndpoint advertised origin)
     <> hostname <$> parse origin.
Proof. vm_compute. repeat split; congruence. Qed.



End RewriteFacts.

(** ** Frame rules of the effect monad *)

Module FrameFacts.
Import Text Js.

#[global] Instance emitted_frame (P : Event -> Prop) : Frame (emitted P) P.
Proof.
  split.
  - intros w. exists []. split; [now rewrite app_nil_r|constructor].
  - intros w1 w2 w3 (e1 & H1 & F1) (e2 & H2 & F2). exists (e1 ++ e2)%list.
    split; [now rewrite H2, H1, app_assoc|now apply Forall_app].
  - intros ev w H. exists [ev]. split; [reflexivity|now repeat constructor].
  - intros w. exists []. split; [now rewrite app_nil_r|constructor].
  - intros b w. exists []. split; [now rewrite app_nil_r|constructor].
Qed.

#[global] Instance same_objects_frame : Frame same_objects (fun _ => True).
Proof.
  split; unfold same_objects; simpl; try tauto.
  intros w1 w2 w3 [-> ->] [-> ->]. tauto.
Qed.

Section Rules.
Context {R : World -> World -> Prop} {P : Event -> Prop} `{!Frame R P}.

Lemma preserves_ret {A} (a : A) : preserves R (ret a).
Proof. intros w. apply frame_refl. Qed.

Lemma preserves_throw {A} e : preserves R (@throw A e).
Proof. intros w. apply frame_refl. Qed.

Lemma preserves_lift {A} (r : Res A) : preserves R (BrowserJs.lift r).
Proof. intros w. apply frame_refl. Qed.

Lemma preserves_gets {A} (f : World -> A) : preserves R (gets f).
Proof. intros w. apply frame_refl. Qed.

Lemma preserves_bind {A B} (m : M A) (k : A -> M B) :
  preserves R m -> (forall a, preserves R (k a)) -> preserves R (bind m k).
Proof.
  intros Hm Hk w. unfold bind. specialize (Hm w).
  destruct (m w) as [[a|e] w']; simpl in *; [|assumption].
  eapply frame_trans; [eassumption|apply Hk].
Qed.

Lemma preserves_try_catch {A} (m : M A) (h : exn -> M A) :
  preserves R m -> (forall e, preserves R (h e)) -> preserves R (try_catch m h).
Proof.
  intros Hm Hh w. unfold try_catch. specialize (Hm w).
  destruct (m w) as [[a|e] w']; simpl in *; [assumption|].
  eapply frame_trans; [eassumption|apply Hh].
Qed.

Lemma preserves_swallow {A} (m : M A) :
  preserves R m -> preserves R (swallow m).
Proof. intros Hm w. apply Hm. Qed.

Lemma preserves_call {A} ev (f : nat -> Res A) :
  P ev -> preserves R (call ev f).
Proof.
  intros Hev w. simpl.
  eapply frame_trans; [apply frame_record, Hev|apply frame_tick].
Qed.

Lemma preserves_emit ev : P ev -> preserves R (emit ev).
Proof. intros Hev w. simpl. now apply frame_record. Qed.

Lemma preserves_logger line : P (EvLog line) -> preserves R (logger line).
Proof. apply preserves_emit. Qed.

Lemma preserves_set_browser_var b : preserves R (modify (set_browser_var b)).
Proof. intros w. apply frame_set_browser_var. Qed.

Lemma preserves_race_timer {A} env label msg (m : M A) :
  P (EvTimer label) -> preserves R m ->
  preserves R (race_timer env label msg m).
Proof.
  intros Hev Hm w. unfold race_timer. specialize (Hm w).
  destruct (m w) as [r w']. simpl in *.
  destruct (env_timer_first env (clock w')); simpl; [|assumption].
  eapply frame_trans; [eassumption|].
  eapply frame_trans; [apply frame_record, Hev|apply frame_tick].
Qed.

End Rules.

(** Breaks a goal [preserves R m] down along the structure of [m]. *)
Ltac frame_step :=
  match goal with
  | |- preserves _ (bind _ _) => apply preserves_bind; [|intros]
  | |- preserves _ (try_catch _ _) => apply preserves_try_catch; [|intros]
  | |- preserves _ (swallow _) => apply preserves_swallow
  | |- preserves _ (ret _) => apply preserves_ret
  | |- preserves _ (throw _) => apply preserves_throw
  | |- preserves _ (BrowserJs.lift _) => apply preserves_lift
  | |- preserves _ (gets _) => apply preserves_gets
  | |- preserves _ (call _ _) => apply preserves_call
  | |- preserves _ (emit _) => apply preserves_emit
  | |- preserves _ (logger _) => apply preserves_logger
  | |- preserves _ (modify (set_browser_var _)) => apply preserves_set_browser_var
  | |- preserves _ (race_timer _ _ _ _) => apply preserves_race_timer
  | |- preserves _ (if ?b then _ else _) => destruct b
  | |- preserves _ (match ?x with _ => _ end) => destruct x
  | |- preserves _ (let '(_, _) := ?x in _) => destruct x
  end.

Create HintDb frame.

Ltac frame := repeat frame_step; auto with frame.

End FrameFacts.

(** ** browser.js: what connecting leaves alone *)

Module BrowserFacts.
Import Text Js BrowserJs FrameFacts.

Section Preserved.
Context {R : World -> World -> Prop} {P : Event -> Prop} `{!Frame R P}.
Context (no_launch_ok : forall ev, is_launch ev = false -> P ev).
Context (env : Env).

Lemma fetchJsonWithTimeout_preserves url ms :
  preserves R (fetchJsonWithTimeout env url ms).
Proof. unfold fetchJsonWithTimeout. frame. Qed.
#[local] Hint Resolve fetchJsonWithTimeout_preserves : frame.

Lemma resolveWsFromBrowserURL_preserves url ms :
  preserves R (resolveWsFromBrowserURL env url ms).
Proof. unfold resolveWsFromBrowserURL. frame. Qed.
#[local] Hint Resolve resolveWsFromBrowserURL_preserves : frame.

Lemma connectWithTimeout_preserves co ms :
  preserves R (connectWithTimeout env co ms).
Proof. unfold connectWithTimeout. frame. Qed.
#[local] Hint Resolve connectWithTimeout_preserves : frame.

Lemma sendWithTimeout_preserves client method ms :
  preserves R (sendWithTimeout env client method ms).
Proof. unfold sendWithTimeout. frame. Qed.
#[local] Hint Resolve sendWithTimeout_preserves : frame.

Lemma execSync_preserves command : preserves R (execSync env command).
Proof. unfold execSync. frame. Qed.
#[local] Hint Resolve execSync_preserves : frame.

Lemma discover_ports_preserves container ip ports :
  preserves R (discover_ports env container ip ports).
Proof. induction ports as [|port rest IH]; simpl; frame. Qed.
#[local] Hint Resolve discover_ports_preserves : frame.

Lemma discover_containers_preserves candidates :
  preserves R (discover_containers env candidates).
Proof.
  induction candidates as [|container rest IH]; simpl; frame.
Qed.
#[local] Hint Resolve discover_containers_preserves : frame.

Lemma live_browser_preserves : preserves R (live_browser env).
Proof. intros w. apply frame_refl. Qed.
#[local] Hint Resolve live_browser_preserves : frame.

Lemma connect_plan_preserves options :
  preserves R (connect_plan env options).
Proof. unfold connect_plan, discoverWebtopBrowser. frame. Qed.
#[local] Hint Resolve connect_plan_preserves : frame.

Lemma preflight_preserves b : preserves R (preflight env b).
Proof. unfold preflight. frame. Qed.
#[local] Hint Resolve preflight_preserves : frame.

Lemma ensureBrowserConnected_preserves options :
  preserves R (ensureBrowserConnected env options).
Proof. unfold ensureBrowserConnected. frame. Qed.

End Preserved.

(** The warm-up never throws and does not touch the module-level
    [browser]. *)
Lemma preflight_absorbs env b w :
  exists w', preflight env b w = (Ok tt, w')
             /\ browser_var w' = browser_var w.
Proof.
  unfold preflight, try_catch, bind, swallow, ret, call. simpl.
  destruct (env_pages env (clock w) b) as [[|page pages]|e]; simpl;
    try (eexists; split; reflexivity).
  destruct (env_createCDPSession env _ page) as [client|e]; simpl;
    try (eexists; split; reflexivity).
  eexists. split; [reflexivity|].
  unfold sendWithTimeout, race_timer, call. simpl.
  repeat match goal with
         | |- context [if ?b then _ else _] => destruct b; simpl
         end; reflexivity.
Qed.

Lemma live_browser_live env w b :
  browser_var w = Some b ->
  env_connected env (clock w) b = true ->
  live_browser env w = (Ok (Some b), w).
Proof. intros Hb Hc. unfold live_browser. now rewrite Hb, Hc. Qed.

Lemma ensureBrowserConnected_when_live env options w b :
  browser_var w = Some b ->
  env_connected env (clock w) b = true ->
  ensureBrowserConnected env options w = (Ok b, w).
Proof.
  intros Hb Hc. unfold ensureBrowserConnected, bind.
  now rewrite (live_browser_live env w b Hb Hc).
Qed.

(** C9.  With a live module-level connection, both ensure operations
    return it at once: the world is left exactly as it was, so nothing was
    discovered, connected or launched. *)
Theorem ensure_idempotent_when_connected env options launchOptions w b :
  browser_var w = Some b ->
  env_connected env (clock w) b = true ->
  ensureBrowserConnected env options w = (Ok b, w)
  /\ ensureBrowserLaunched env launchOptions w = (Ok b, w).
Proof.
  intros Hb Hc. split.
  - now apply ensureBrowserConnected_when_live.
  - unfold ensureBrowserLaunched, bind.
    now rewrite (live_browser_live env w b Hb Hc).
Qed.

(** C7.  Once the connect itself has succeeded, [ensureBrowserConnected]
    returns the browser it got, whatever the world answers during the
    warm-up. *)
Theorem ensureBrowserConnected_absorbs_warmup env options w
    target connectOptions w1 b w2 :
  live_browser env w = (Ok None, w) ->
  connect_plan env options w = (Ok (target, connectOptions), w1) ->
  connectWithTimeout env connectOptions 8000 w1 = (Ok b, w2) ->
  exists w3,
    ensureBrowserConnected env options w = (Ok b, w3)
    /\ browser_var w3 = Some b.
Proof.
  intros Hl Hp Hc.
  destruct (preflight_absorbs env b (set_browser_var b w2)) as (w3 & Hw & Hb).
  exists w3. split; [|exact Hb].
  unfold ensureBrowserConnected, bind, try_catch.
  rewrite Hl, Hp. simpl. rewrite Hc, Hw. reflexivity.
Qed.

End BrowserFacts.

Module BrowserWitnesses.
Import Text Js BrowserJs FrameFacts BrowserFacts.

Lemma ensure_idempotent_when_connected_witness :
  ensureBrowserConnected (Scenario.reachable (fun _ _ => true))
    Scenario.connect_to_advertised Scenario.bound = (Ok 1, Scenario.bound)
  /\ ensureBrowserLaunched (Scenario.reachable (fun _ _ => true))
       Scenario.default_launch Scenario.bound = (Ok 1, Scenario.bound).
Proof.
  apply ensure_idempotent_when_connected; reflexivity.
Defined.

Lemma ensureBrowserConnected_absorbs_warmup_witness :
  exists w3,
    ensureBrowserConnected (Scenario.reachable (fun _ _ => false))
      Scenario.connect_to_advertised Scenario.start = (Ok 2, w3)
    /\ browser_var w3 = Some 2.
Proof.
  eapply (ensureBrowserConnected_absorbs_warmup
            (Scenario.reachable (fun _ _ => false))
            Scenario.connect_to_advertised Scenario.start);
    reflexivity.
Defined.

End BrowserWitnesses.

(** ** main.js *)

Module MainFacts.
Import Text Js BrowserJs MainJs FrameFacts BrowserFacts.

Lemma modify_emitted P (f : World -> World) :
  (forall w, trace (f w) = trace w) -> preserves (emitted P) (modify f).
Proof.
  intros Hf w. exists []. simpl. rewrite Hf, app_nil_r. split; [reflexivity|constructor].
Qed.

Lemma McpContext_from_emitted P env b :
  P (EvMcpContextFrom b) -> preserves (emitted P) (McpContext.from env b).
Proof.
  intros HP. unfold McpContext.from. frame.
  intros w. exists []. simpl. rewrite app_nil_r. split; [reflexivity|constructor].
Qed.

Lemma connect_attempt_emitted env args :
  preserves (emitted no_launch) (connect_attempt env args).
Proof.
  unfold connect_attempt, withTimeout. frame.
  - reflexivity.
  - now apply ensureBrowserConnected_preserves.
Qed.

(** C3.  With an explicit connection hint, a connect attempt that fails
    makes [getContext] fail with the same error, in the world the attempt
    left; and whatever the outcome, no browser is launched on that path. *)
Theorem getContext_explicit_hint_never_launches env args w :
  truthy (browserUrl args) || truthy (wsEndpoint args) = true ->
  (forall e w1,
     connect_attempt env args w = (Throw e, w1) ->
     getContext env args w = (Throw e, w1))
  /\ emitted no_launch w (snd (getContext env args w)).
Proof.
  intros Hhint.
  assert (negb (truthy (browserUrl args)) && negb (truthy (wsEndpoint args))
          = false) as Hcond.
  { destruct (truthy (browserUrl args)), (truthy (wsEndpoint args));
      simpl in *; congruence. }
  split.
  - intros e w1 He. unfold getContext, bind, try_catch.
    rewrite He, Hcond. reflexivity.
  - revert w. change (preserves (emitted no_launch) (getContext env args)).
    unfold getContext. rewrite Hcond.
    pose proof (connect_attempt_emitted env args).
    frame.
    + apply McpContext_from_emitted. reflexivity.
    + apply modify_emitted. reflexivity.
Qed.

Lemma getContext_explicit_hint_never_launches_witness :
  getContext Scenario.unreachable Scenario.explicit_args Scenario.start
  = (Throw (Error ("Failed to connect to Chrome DevTools at "
                   +:+ Scenario.advertised +:+ ": connect ECONNREFUSED")),
     tick (record (EvConnect {| co_protocolTimeout := 15000;
                                co_browserWSEndpoint := Some Scenario.advertised;
                                co_headers := None |})
             Scenario.start)).
Proof.
  apply (proj1 (getContext_explicit_hint_never_launches
                  Scenario.unreachable Scenario.explicit_args Scenario.start
                  eq_refl)).
  reflexivity.
Defined.

End MainFacts.

(** ** browser-management.js: candidates *)

Module CandidateFacts.
Import Text TextFacts Js BrowserManagement.

Lemma candidate_url_inj host a b :
  candidate_url host a = candidate_url host b -> a = b.
Proof.
  intros H. unfold candidate_url in H.
  do 3 apply String.app_inj in H. now apply show_Z_inj.
Qed.

Lemma pushCandidates_priority host p :
  pushCandidatesForHostPort host p []
  = map (candidate_url host) (deduplicate (priority_ports p)).
Proof.
  destruct (Z.eqb_spec p 9999) as [->|H1]; [reflexivity|].
  destruct (Z.eqb_spec p 9222) as [->|H2]; [reflexivity|].
  unfold pushCandidatesForHostPort, deduplicate, priority_ports, dedup_from,
    existsb.
  rewrite (proj2 (Z.eqb_neq p 9999) H1), (proj2 (Z.eqb_neq p 9222) H2),
    (proj2 (Z.eqb_neq 9999 p)), (proj2 (Z.eqb_neq 9222 p)) by congruence.
  reflexivity.
Qed.

Lemma deduplicate_priority_NoDup p : NoDup (deduplicate (priority_ports p)).
Proof.
  destruct (Z.eqb_spec p 9999) as [->|H1];
    [|destruct (Z.eqb_spec p 9222) as [->|H2]].
  1-2: vm_compute; rewrite ?NoDup_cons, ?elem_of_cons, ?elem_of_nil;
       intuition (try lia); apply NoDup_nil_2.
  unfold deduplicate, priority_ports, dedup_from, existsb.
  rewrite (proj2 (Z.eqb_neq 9999 p)), (proj2 (Z.eqb_neq 9222 p)) by congruence.
  simpl. rewrite ?NoDup_cons, ?elem_of_cons, ?elem_of_nil.
  intuition (try lia); apply NoDup_nil_2.
Qed.

(** C8.  The list [pushCandidatesForHostPort] builds is the priority list
    (requested port, 9999, 9222) of the host with later duplicates dropped:
    it has no duplicate and starts with the requested port. *)
Theorem pushCandidates_deduplicated host p :
  let candidates := pushCandidatesForHostPort host p [] in
  candidates = map (candidate_url host) (deduplicate (priority_ports p))
  /\ candidates
     = (candidate_url host p
        :: (if decide (p = 9999%Z) then [] else [ candidate_url host 9999 ])
        ++ (if decide (p = 9222%Z) then [] else [ candidate_url host 9222 ]))%list
  /\ NoDup candidates
  /\ head candidates = Some (candidate_url host p)
  /\ deduplicate [9222; 9999; 9222]%Z = [9222; 9999]%Z
  /\ pushCandidatesForHostPort "10.0.0.5" 9222 []
     = [ "http://10.0.0.5:9222"; "http://10.0.0.5:9999" ].
Proof.
  cbv zeta. split; [apply pushCandidates_priority|].
  split.
  { unfold pushCandidatesForHostPort.
    destruct (Z.eqb_spec p 9999), (Z.eqb_spec p 9222);
      repeat destruct (decide _); try contradiction; reflexivity. }
  split.
  { rewrite pushCandidates_priority.
    apply NoDup_ListNoDup, Finite.Injective_map_NoDup.
    - intros a b. apply candidate_url_inj.
    - apply NoDup_ListNoDup, deduplicate_priority_NoDup. }
  split.
  { rewrite pushCandidates_priority. reflexivity. }
  split; reflexivity.
Qed.

(** ** browser-management.js: trying the candidates *)

Section Prober.
Context (env : Env).
Context (ensureBrowserConnected : ConnectArgs -> M Browser).
Context (logger : string -> M unit).

Abbreviation fails := (BrowserManagement.fails env ensureBrowserConnected logger).
Abbreviation attempt := (BrowserManagement.attempt env ensureBrowserConnected logger).
Abbreviation loop := (tryCandidates_loop env ensureBrowserConnected logger).

Lemma fails_length cs w reasons w' :
  fails cs w reasons w' -> List.length reasons = List.length cs.
Proof. induction 1; simpl; congruence. Qed.

(** Over candidates that all fail, the loop gathers one entry for each and
    goes on with the rest. *)
Lemma loop_fails cs w reasons w' :
  fails cs w reasons w' ->
  forall rest errors,
    loop (cs ++ rest) errors w
    = loop rest (errors ++ zip_with (fun c r => c +:+ ": " +:+ r) cs reasons) w'.
Proof.
  induction 1 as [w|c cs w e w1 w2 reasons w3 Ha Hl _ IH]; intros rest errors.
  - simpl. now rewrite app_nil_r.
  - change ((c :: cs) ++ rest)%list with (c :: (cs ++ rest))%list.
    cbn [tryCandidates_loop]. unfold try_catch at 1. rewrite Ha.
    unfold bind at 1. rewrite Hl.
    rewrite IH. cbn [zip_with]. now rewrite <- app_assoc.
Qed.

Lemma zip_with_entries cs reasons :
  map (fun e => "- " +:+ e)
      (zip_with (fun c r => c +:+ ": " +:+ r) cs reasons)
  = zip_with (fun c r => "- " +:+ c +:+ ": " +:+ r) cs reasons.
Proof.
  revert reasons. induction cs as [|c cs IH]; intros [|r rs]; simpl;
    try reflexivity. now rewrite IH.
Qed.

(** C4.  Candidates are tried in the order of the list.  When the ones
    before [c] all fail and [c] succeeds, the result of [c] is returned, in
    the world its attempt left: no error is raised and no later candidate
    is tried.  When all fail, the error thrown lists one reason for each
    candidate, in the order of the list.  And every run is one of the two,
    as long as logging itself does not throw. *)
Theorem tryCandidatesAndConnect_first_success_or_all_reasons :
  (forall pre c post w reasons w1 r w2,
     fails pre w reasons w1 ->
     attempt c w1 = (Ok r, w2) ->
     tryCandidatesAndConnect env (pre ++ c :: post) ensureBrowserConnected
       logger w = (Ok r, w2))
  /\ (forall cs w reasons w',
      fails cs w reasons w' ->
      tryCandidatesAndConnect env cs ensureBrowserConnected logger w
      = (Throw (aggregate_error cs reasons), w')
      /\ List.length reasons = List.length cs)
  /\ ((forall line w, exists w', logger line w = (Ok tt, w')) ->
      forall cs w,
        (exists pre c post reasons w1 r w2,
           cs = (pre ++ c :: post)%list /\ fails pre w reasons w1
           /\ attempt c w1 = (Ok r, w2))
        \/ (exists reasons w', fails cs w reasons w')).
Proof.
  split; [|split].
  - intros pre c post w reasons w1 r w2 Hf Ha.
    unfold tryCandidatesAndConnect. rewrite (loop_fails _ _ _ _ Hf).
    cbn [tryCandidates_loop]. unfold try_catch. now rewrite Ha.
  - intros cs w reasons w' Hf. split; [|eapply fails_length; eassumption].
    unfold tryCandidatesAndConnect.
    rewrite <- (app_nil_r cs) at 1. rewrite (loop_fails _ _ _ _ Hf).
    cbn [tryCandidates_loop app]. unfold throw, aggregate_error.
    now rewrite zip_with_entries.
  - intros Hlog cs. induction cs as [|c cs IH]; intros w.
    + right. exists [], w. constructor.
    + destruct (attempt c w) as [[r|e] w1] eqn:Ha.
      * left. exists [], c, cs, [], w, r, w1.
        repeat split; [constructor|assumption].
      * destruct (Hlog ("Failed candidate " +:+ c +:+ ": "
                        +:+ message_or_String e) w1) as [w2 Hl].
        destruct (IH w2) as [(pre & c' & post & rs & wa & r & wb & -> & Hf & Hs)
                            |(rs & w' & Hf)].
        -- left. exists (c :: pre), c', post, (message_or_String e :: rs), wa, r, wb.
           repeat split; [|assumption].
           econstructor; eassumption.
        -- right. exists (message_or_String e :: rs), w'.
           econstructor; eassumption.
Qed.

End Prober.

End CandidateFacts.

Module ProberWitnesses.
Import Text Js BrowserManagement CandidateFacts.

Lemma tryCandidatesAndConnect_first_success_or_all_reasons_witness :
  let env := Scenario.reachable (fun _ _ => false) in
  (exists w2,
     tryCandidatesAndConnect env
       (pushCandidatesForHostPort "10.0.0.5" 9222 [])
       (BrowserJs.ensureBrowserConnected env) logger Scenario.start
     = (Ok {| newBrowser := 2; resolvedHttpUrl := "http://10.0.0.5:9999";
              r_wsEndpoint := Scenario.advertised |}, w2))
  /\ (exists w',
        tryCandidatesAndConnect Scenario.unreachable
          (pushCandidatesForHostPort "10.0.0.5" 9222 [])
          (BrowserJs.ensureBrowserConnected Scenario.unreachable) logger
          Scenario.start
        = (Throw (aggregate_error
                    [ "http://10.0.0.5:9222"; "http://10.0.0.5:9999" ]
                    [ "fetch failed"; "fetch failed" ]), w')).
Proof.
  split.
  - eexists.
    eapply (proj1 (tryCandidatesAndConnect_first_success_or_all_reasons
                    (Scenario.reachable (fun _ _ => false))
                    (BrowserJs.ensureBrowserConnected
                       (Scenario.reachable (fun _ _ => false))) logger)
             [ "http://10.0.0.5:9222" ] "http://10.0.0.5:9999" []
             Scenario.start [ "fetch failed" ]).
    + eapply (fails_cons _ _ _ _ _ _ (Error "fetch failed"));
        [reflexivity|reflexivity|constructor].
    + reflexivity.
  - eexists.
    eapply (proj1 (proj2 (tryCandidatesAndConnect_first_success_or_all_reasons
                    Scenario.unreachable
                    (BrowserJs.ensureBrowserConnected Scenario.unreachable)
                    logger))
             [ "http://10.0.0.5:9222"; "http://10.0.0.5:9999" ]
             Scenario.start [ "fetch failed"; "fetch failed" ]).
    eapply (fails_cons _ _ _ _ _ _ (Error "fetch failed"));
      [reflexivity|reflexivity|].
    eapply (fails_cons _ _ _ _ _ _ (Error "fetch failed"));
      [reflexivity|reflexivity|constructor].
Defined.

End ProberWitnesses.

(** ** browser-management.js: the switch *)

Module SwitchFacts.
Import Text Js BrowserManagement FrameFacts BrowserFacts.

Section Preserved.
Context {R : World -> World -> Prop} {P : Event -> Prop} `{!Frame R P}.
Context (no_launch_ok : forall ev, is_launch ev = false -> P ev).
Context (env : Env).

Lemma resolveHostToIp_preserves host : preserves R (resolveHostToIp env host).
Proof. unfold resolveHostToIp. frame. Qed.
#[local] Hint Resolve resolveHostToIp_preserves : frame.

Lemma fetchJsonVersion_preserves url ms :
  preserves R (fetchJsonVersion env url ms).
Proof. unfold fetchJsonVersion. frame. Qed.
#[local] Hint Resolve fetchJsonVersion_preserves : frame.

Lemma attempt_preserves c :
  preserves R (attempt env (BrowserJs.ensureBrowserConnected env) logger c).
Proof.
  pose proof (ensureBrowserConnected_preserves no_launch_ok env).
  unfold attempt. frame.
Qed.
#[local] Hint Resolve attempt_preserves : frame.

Lemma tryCandidates_loop_preserves cs errors :
  preserves R (tryCandidates_loop env (BrowserJs.ensureBrowserConnected env)
                 logger cs errors).
Proof.
  revert errors. induction cs as [|c cs IH]; intros errors; simpl; frame.
Qed.
#[local] Hint Resolve tryCandidates_loop_preserves : frame.

Lemma switch_connect_preserves params :
  preserves R (switch_connect env params).
Proof.
  pose proof (ensureBrowserConnected_preserves no_launch_ok env).
  unfold switch_connect, tryCandidatesAndConnect. frame.
Qed.

End Preserved.

Lemma bind_Ok {A B} (m : M A) (k : A -> M B) w b w' :
  bind m k w = (Ok b, w') ->
  exists a w1, m w = (Ok a, w1) /\ k a w1 = (Ok b, w').
Proof.
  unfold bind. destruct (m w) as [[a|e] w1]; [eauto|discriminate].
Qed.

Lemma disconnect_current_same_objects env c :
  preserves same_objects (disconnect_current env c).
Proof.
  unfold disconnect_current. frame. intros w. apply frame_refl.
Qed.

Lemma switch_connect_same_objects env params :
  preserves same_objects (switch_connect env params).
Proof. now apply switch_connect_preserves. Qed.

Lemma handler_guard params :
  has_target params = true ->
  negb (truthy (p_container params)) && negb (truthy (p_browserUrl params))
  && negb (truthy (p_wsEndpoint params)) = false.
Proof.
  unfold has_target.
  destruct (truthy (p_container params)), (truthy (p_browserUrl params)),
    (truthy (p_wsEndpoint params)); simpl; intros; try reflexivity; try discriminate.
Qed.

Lemma handler_no_target env params c w :
  has_target params = false ->
  switchBrowser_handler env params c w
  = (Throw (Error "Provide one of: container, browserUrl, or wsEndpoint"), w).
Proof.
  unfold has_target, switchBrowser_handler.
  destruct (truthy (p_container params)), (truthy (p_browserUrl params)),
    (truthy (p_wsEndpoint params)); simpl; intros; try discriminate.
  reflexivity.
Qed.

Lemma try_catch_Ok {A} (m : M A) h w (a : A) w' :
  try_catch m h w = (Ok a, w') ->
  m w = (Ok a, w')
  \/ exists e w1, m w = (Throw e, w1) /\ h e w1 = (Ok a, w').
Proof.
  unfold try_catch. destruct (m w) as [[a'|e] w1]; [left|right]; eauto.
Qed.

(** A successful [ensureBrowserConnected] leaves its result in the
    module-level [browser]. *)
Lemma ensureBrowserConnected_sets_browser env options w b w' :
  BrowserJs.ensureBrowserConnected env options w = (Ok b, w') ->
  browser_var w' = Some b.
Proof.
  unfold BrowserJs.ensureBrowserConnected. intros H.
  apply bind_Ok in H as (current & w0 & Hl & H).
  unfold BrowserJs.live_browser in Hl. injection Hl as <- <-.
  destruct (browser_var w) as [b0|] eqn:Hb.
  - destruct (env_connected env (clock w) b0).
    + injection H as <- <-. assumption.
    + apply bind_Ok in H as ([target co] & w1 & _ & H).
      apply try_catch_Ok in H as [H|(e & w2 & _ & H)]; [|discriminate].
      apply bind_Ok in H as (b1 & w2 & _ & H).
      apply bind_Ok in H as ([] & w3 & Hm & H).
      injection Hm as <-.
      destruct (preflight_absorbs env b1 (set_browser_var b1 w2))
        as (w4 & Hp & Hv).
      unfold bind in H. rewrite Hp in H. injection H as <- <-. exact Hv.
  - apply bind_Ok in H as ([target co] & w1 & _ & H).
    apply try_catch_Ok in H as [H|(e & w2 & _ & H)]; [|discriminate].
    apply bind_Ok in H as (b1 & w2 & _ & H).
    apply bind_Ok in H as ([] & w3 & Hm & H).
    injection Hm as <-.
    destruct (preflight_absorbs env b1 (set_browser_var b1 w2))
      as (w4 & Hp & Hv).
    unfold bind in H. rewrite Hp in H. injection H as <- <-. exact Hv.
Qed.

Lemma attempt_sets_browser env c w r w' :
  attempt env (BrowserJs.ensureBrowserConnected env) logger c w = (Ok r, w') ->
  browser_var w' = Some (newBrowser r).
Proof.
  unfold attempt. intros H.
  apply bind_Ok in H as (data & w1 & _ & H).
  destruct (webSocketDebuggerUrl data) as [ws|]; [|discriminate].
  destruct (is_empty ws); [discriminate|].
  apply bind_Ok in H as ([] & w2 & _ & H).
  apply bind_Ok in H as (b & w3 & Hb & H).
  injection H as <- <-. simpl.
  eapply ensureBrowserConnected_sets_browser; eassumption.
Qed.

Lemma tryCandidates_loop_sets_browser env cs errors w r w' :
  tryCandidates_loop env (BrowserJs.ensureBrowserConnected env) logger
    cs errors w = (Ok r, w') ->
  browser_var w' = Some (newBrowser r).
Proof.
  revert errors w. induction cs as [|c cs IH]; intros errors w H;
    [discriminate|].
  simpl in H. apply try_catch_Ok in H as [H|(e & w1 & _ & H)].
  - eapply attempt_sets_browser; eassumption.
  - apply bind_Ok in H as ([] & w2 & _ & H). eapply IH; eassumption.
Qed.

Lemma switch_connect_sets_browser env params w nb url ws w' :
  switch_connect env params w = (Ok (nb, url, ws), w') ->
  browser_var w' = Some nb.
Proof.
  unfold switch_connect. intros H.
  destruct (truthy (p_wsEndpoint params)).
  - apply bind_Ok in H as ([] & w1 & _ & H).
    apply bind_Ok in H as (b & w2 & Hb & H).
    injection H as <- _ _ <-.
    eapply ensureBrowserConnected_sets_browser; eassumption.
  - apply bind_Ok in H as (cs & w1 & _ & H).
    apply bind_Ok in H as (r & w2 & Hr & H).
    injection H as <- _ _ <-.
    eapply tryCandidates_loop_sets_browser; eassumption.
Qed.

(** With its browser live and no timer in the way, [getContext] returns
    the context it already holds when that context is bound to the
    module-level browser. *)
Lemma getContext_keeps_context env args w c b :
  context_var w = Some c ->
  McpContext.browser_of w c = Some b ->
  browser_var w = Some b ->
  env_connected env (clock w) b = true ->
  env_timer_first env (clock w) = false ->
  MainJs.getContext env args w = (Ok c, w).
Proof.
  intros Hc Hb Hv Hl Ht.
  unfold MainJs.getContext, bind, try_catch, MainJs.connect_attempt,
    MainJs.withTimeout, race_timer.
  rewrite (ensureBrowserConnected_when_live env _ w b Hv Hl).
  rewrite Ht. unfold gets. rewrite Hc, Hb.
  destruct (decide (Some b = Some b)); [reflexivity|contradiction].
Qed.

(** C6 (as the code has it).  The disconnect of the old connection is
    awaited outside any [try]: when it fails, the handler throws that
    error at once, having done nothing but log and call [disconnect]. *)
Theorem switchBrowser_disconnect_failure_aborts env params c w b e :
  has_target params = true ->
  McpContext.browser_of w c = Some b ->
  env_connected env (clock w) b = true ->
  env_disconnect env (clock w) b = Throw e ->
  switchBrowser_handler env params c w
  = (Throw e,
     tick (record (EvDisconnect b)
             (record (EvLog "Disconnecting from current browser") w))).
Proof.
  intros Ht Hb Hc Hd. unfold switchBrowser_handler.
  rewrite (handler_guard _ Ht).
  unfold bind at 1. unfold disconnect_current, bind, active_browser.
  rewrite Hb, Hc. simpl. now rewrite Hd.
Qed.

(** C5 (as the code has it).  A successful switch builds a new context
    object on the new connection and copies its properties onto the object
    the caller passed in: that object keeps its address, every property of
    the new object overwrites the one it had, the properties the new object
    lacks stay, and [context] of main.js is not assigned.  When that
    object is the one [context] refers to, the next [getContext] finds it
    bound to the new connection and returns it as it is. *)
Theorem switchBrowser_assigns_in_place env params c w old w' :
  store w !! c = Some old ->
  switchBrowser_handler env params c w = (Ok tt, w') ->
  exists (newBrowser : Browser) (newContext : loc) (built : Obj),
    store w !! newContext = None
    /\ built !! "browser" = Some (VBrowser newBrowser)
    /\ store w' = <[ c := built ∪ old ]> (<[ newContext := built ]> (store w))
    /\ context_var w' = context_var w
    /\ browser_var w' = Some newBrowser
    /\ McpContext.browser_of w' c = Some newBrowser
    /\ (forall k v, built !! k = Some v ->
        exists obj, store w' !! c = Some obj /\ obj !! k = Some v)
    /\ (forall k, built !! k = None ->
        exists obj, store w' !! c = Some obj /\ obj !! k = old !! k)
    /\ (forall args,
        context_var w = Some c ->
        env_connected env (clock w') newBrowser = true ->
        env_timer_first env (clock w') = false ->
        MainJs.getContext env args w' = (Ok c, w')).
Proof.
  intros Hold Hrun.
  destruct (has_target params) eqn:Ht;
    [|rewrite handler_no_target in Hrun by assumption; discriminate].
  unfold switchBrowser_handler in Hrun. rewrite (handler_guard _ Ht) in Hrun.
  apply bind_Ok in Hrun as ([] & w1 & Hdis & Hrun).
  apply bind_Ok in Hrun as ([[nb url] ws] & w2 & Hconn & Hrun).
  apply bind_Ok in Hrun as (l & w3 & Hfrom & Hrun).
  pose proof (disconnect_current_same_objects env c w) as [Hs1 Hc1].
  rewrite Hdis in Hs1, Hc1. simpl in Hs1, Hc1.
  pose proof (switch_connect_same_objects env params w1) as [Hs2 Hc2].
  rewrite Hconn in Hs2, Hc2. simpl in Hs2, Hc2.
  unfold McpContext.from in Hfrom.
  apply bind_Ok in Hfrom as (fields & w2' & Hfields & Hfrom).
  unfold call in Hfields. injection Hfields as Hfields <-.
  injection Hfrom as <- <-.
  unfold bind, Object_assign, modify, emit in Hrun. simpl in Hrun.
  injection Hrun as <-. simpl.
  set (built := <[ "browser" := VBrowser nb ]> fields).
  set (l := fresh_loc (store w2)).
  assert (store w2 = store w) as Hsw by congruence.
  assert (store w !! l = None) as Hfresh.
  { rewrite <- Hsw. apply (not_elem_of_dom (D := gset loc)).
    unfold l, fresh_loc. apply is_fresh. }
  assert (l <> c) as Hne by congruence.
  assert (built !! "browser" = Some (VBrowser nb)) as Hbrowser
    by apply lookup_insert_eq.
  exists nb, l, built.
  rewrite lookup_insert_eq, lookup_insert_ne by assumption.
  rewrite Hsw, Hold. simpl.
  pose proof (switch_connect_sets_browser _ _ _ _ _ _ _ Hconn) as Hvar.
  match goal with
  | |- context [McpContext.browser_of ?w c] =>
      assert (McpContext.browser_of w c = Some nb) as Hof
  end.
  { unfold McpContext.browser_of. simpl. rewrite lookup_insert_eq.
    now rewrite (lookup_union_Some_l _ _ _ _ Hbrowser). }
  split; [assumption|]. split; [assumption|]. split; [reflexivity|].
  split; [congruence|]. split; [assumption|]. split; [assumption|].
  split; [|split].
  - intros k v Hk. eexists. rewrite lookup_insert_eq. split; [reflexivity|].
    now apply lookup_union_Some_l.
  - intros k Hk. eexists. rewrite lookup_insert_eq. split; [reflexivity|].
    now apply lookup_union_r.
  - intros args Hctx Hlive Htimer.
    apply (getContext_keeps_context env args _ c nb); try assumption.
    simpl. congruence.
Qed.

Lemma switchBrowser_disconnect_failure_aborts_witness :
  switchBrowser_handler (Scenario.reachable (fun t _ => Nat.eqb t 0))
    Scenario.switch_to_advertised 0 Scenario.bound
  = (Throw (Error "Connection closed"),
     tick (record (EvDisconnect 1)
             (record (EvLog "Disconnecting from current browser")
                Scenario.bound))).
Proof.
  apply switchBrowser_disconnect_failure_aborts; reflexivity.
Defined.

(** C6, as stated, fails: the old connection cannot be disconnected, the
    new target is reachable (connecting from the world the handler left
    succeeds), and yet the switch is aborted by the disconnect error. *)
Lemma switchBrowser_disconnect_failure_is_fatal :
  let env := Scenario.reachable (fun t _ => Nat.eqb t 0) in
  let run :=
    switchBrowser_handler env Scenario.switch_to_advertised 0 Scenario.bound in
  fst run = Throw (Error "Connection closed")
  /\ fst (switch_connect env Scenario.switch_to_advertised (snd run))
     = Ok (2, None, Some Scenario.advertised)
  /\ trace (snd run)
     = [ EvLog "Disconnecting from current browser"; EvDisconnect 1 ].
Proof. cbv zeta. repeat split; vm_compute; reflexivity. Qed.

Lemma switchBrowser_assigns_in_place_witness :
  let env := Scenario.reachable (fun _ _ => false) in
  let w' := snd (switchBrowser_handler env Scenario.switch_to_advertised 0
                   Scenario.bound) in
  exists (newBrowser : Browser) (newContext : loc) (built : Obj),
    store Scenario.bound !! newContext = None
    /\ built !! "browser" = Some (VBrowser newBrowser)
    /\ store w' = <[ 0 := built ∪ {[ "browser" := VBrowser 1;
                                      "pages" := VOther 10 ]} ]>
                    (<[ newContext := built ]> (store Scenario.bound))
    /\ context_var w' = context_var Scenario.bound
    /\ browser_var w' = Some newBrowser
    /\ McpContext.browser_of w' 0 = Some newBrowser
    /\ (forall k v, built !! k = Some v ->
        exists obj, store w' !! 0 = Some obj /\ obj !! k = Some v)
    /\ (forall k, built !! k = None ->
        exists obj, store w' !! 0 = Some obj
                    /\ obj !! k = ({[ "browser" := VBrowser 1;
                                      "pages" := VOther 10 ]} : Obj) !! k)
    /\ (forall args,
        context_var Scenario.bound = Some 0 ->
        env_connected env (clock w') newBrowser = true ->
        env_timer_first env (clock w') = false ->
        MainJs.getContext env args w' = (Ok 0, w')).
Proof.
  apply (switchBrowser_assigns_in_place
           (Scenario.reachable (fun _ _ => false))
           Scenario.switch_to_advertised 0 Scenario.bound).
  - reflexivity.
  - vm_compute. reflexivity.
Defined.

(** C5, as stated, fails: after a successful switch the object the callers
    hold, at address 0, is the one [context] of main.js still refers to, and
    its properties have been overwritten. *)
Lemma switchBrowser_mutates_held_context :
  let env := Scenario.reachable (fun _ _ => false) in
  let run :=
    switchBrowser_handler env Scenario.switch_to_advertised 0 Scenario.bound in
  let property (w : World) (k : string) : option Value :=
    store w !! 0 ≫= (fun obj : Obj => obj !! k) in
  fst run = Ok tt
  /\ context_var Scenario.bound = Some 0
  /\ context_var (snd run) = Some 0
  /\ property Scenario.bound "browser" = Some (VBrowser 1)
  /\ property Scenario.bound "pages" = Some (VOther 10)
  /\ property (snd run) "browser" = Some (VBrowser 2)
  /\ property (snd run) "pages" = Some (VOther 20)
  /\ store (snd run) !! 0 <> store Scenario.bound !! 0.
Proof.
  cbv zeta. repeat split; try (vm_compute; reflexivity).
  intros H.
  apply (f_equal (fun o : option Obj => o ≫= (fun obj => obj !! "pages"))) in H.
  vm_compute in H. discriminate.
Qed.

End SwitchFacts.

(** ** The URL model: text of a host *)

Module UrlTextFacts.
Import Text TextFacts NodeURL NodeURLFacts UrlText.

Lemma all_chars_app p a b :
  all_chars p (a +:+ b) = all_chars p a && all_chars p b.
Proof.
  induction a as [|c a IH]; [reflexivity|].
  rewrite append_cons. cbn [all_chars]. now rewrite IH, andb_assoc.
Qed.

Lemma span_app p a b :
  all_chars p a = true -> stops p b -> span p (a +:+ b) = (a, b).
Proof.
  intros Ha Hb. induction a as [|c a IH].
  - rewrite append_nil_l. destruct b as [|d b]; [reflexivity|].
    cbn [span]. simpl in Hb. now rewrite Hb.
  - cbn [all_chars] in Ha. apply andb_true_iff in Ha as [Hc Ha].
    rewrite append_cons. cbn [span]. now rewrite Hc, IH.
Qed.

Lemma span_spec p s a b :
  span p s = (a, b) -> s = a +:+ b /\ all_chars p a = true /\ stops p b.
Proof.
  revert a b. induction s as [|c s IH]; intros a b H.
  - injection H as <- <-. repeat split.
  - cbn [span] in H. destruct (p c) eqn:Hc.
    + destruct (span p s) as [a' b']. injection H as <- <-.
      destruct (IH a' b' eq_refl) as (-> & Ha & Hb).
      rewrite append_cons. cbn [all_chars]. now rewrite Hc, Ha.
    + injection H as <- <-. repeat split. exact Hc.
Qed.

Lemma drop_while_stops p s : stops p s -> drop_while p s = s.
Proof. destruct s as [|c s]; [reflexivity|]. simpl. now intros ->. Qed.

Lemma drop_while_suffix p s : exists a, s = a +:+ drop_while p s.
Proof.
  induction s as [|c s [a IH]]; [now exists EmptyString|].
  cbn [drop_while]. destruct (p c).
  - exists (String c a). now rewrite append_cons, <- IH.
  - now exists EmptyString.
Qed.

Lemma strip_char_eq c s : strip_char c (String c s) = Some s.
Proof. cbn [strip_char]. now rewrite Ascii.eqb_refl. Qed.

Lemma stops_app p a b : a <> EmptyString -> stops p a -> stops p (a +:+ b).
Proof. destruct a as [|c a]; [congruence|]. intros _ H. exact H. Qed.

Lemma all_chars_impl (p q : ascii -> bool) s :
  (forall c, p c = true -> q c = true) ->
  all_chars p s = true -> all_chars q s = true.
Proof.
  intros Hpq. induction s as [|c s IH]; [reflexivity|].
  cbn [all_chars]. rewrite !andb_true_iff. intros [Hc Hs]. split; auto.
Qed.

(** ** The text of a host *)

Lemma domain_authority_char c :
  domain_char c = true -> authority_char c = true.
Proof. destruct c as [[] [] [] [] [] [] [] []]; vm_compute; congruence. Qed.

Lemma inner_authority_char c :
  is_lhex c || Ascii.eqb c ":" = true -> authority_char c = true.
Proof. destruct c as [[] [] [] [] [] [] [] []]; vm_compute; congruence. Qed.

Lemma digit_authority_char c : is_digit c = true -> authority_char c = true.
Proof. destruct c as [[] [] [] [] [] [] [] []]; vm_compute; congruence. Qed.

Lemma authority_char_facts c :
  authority_char c = true ->
  is_graphic c = true /\ char_in c "/\?#" = false
  /\ Ascii.eqb c "@" = false /\ is_slash c = false.
Proof.
  destruct c as [[] [] [] [] [] [] [] []]; vm_compute; intuition congruence.
Qed.

(** The two shapes of a host: a domain or IPv4 address, or an IPv6
    address between brackets. *)
Lemma parse_host_shape h :
  parse_host h = Some h ->
  (is_empty h = false /\ all_chars domain_char h = true)
  \/ (exists inner,
        h = "[" +:+ inner +:+ "]"
        /\ all_chars (fun c => is_lhex c || Ascii.eqb c ":") inner = true).
Proof.
  intros H. pose proof (parse_host_lower _ _ H) as Hl.
  unfold parse_host in H. rewrite <- Hl in H.
  destruct (starts_with "[" h).
  - right. destruct (unbracket h) as [inner|] eqn:Hu; [|discriminate].
    destruct (all_chars _ inner) eqn:Hin; [|discriminate].
    exists inner. split; [now apply unbracket_Some|exact Hin].
  - left. destruct (is_empty h); [discriminate|].
    destruct (all_chars domain_char h); [|discriminate]. now split.
Qed.

Lemma host_authority_chars h :
  parse_host h = Some h -> all_chars authority_char h = true.
Proof.
  intros H. destruct (parse_host_shape h H) as [[_ Hd]|(inner & -> & Hi)].
  - eapply all_chars_impl; [apply domain_authority_char|assumption].
  - rewrite !all_chars_app, (all_chars_impl _ _ _ inner_authority_char Hi).
    reflexivity.
Qed.

Lemma host_nonempty h : parse_host h = Some h -> h <> EmptyString.
Proof.
  intros H. destruct (parse_host_shape h H) as [[Hn _]|(inner & -> & _)].
  - now destruct h.
  - discriminate.
Qed.

Lemma scan_host_domain h rest inside :
  all_chars domain_char h = true ->
  scan_host (h +:+ rest) inside
  = (h +:+ fst (scan_host rest inside), snd (scan_host rest inside)).
Proof.
  induction h as [|c h IH]; intros Hh.
  - rewrite !append_nil_l. now destruct (scan_host rest inside).
  - cbn [all_chars] in Hh. apply andb_true_iff in Hh as [Hc Hh].
    rewrite !append_cons. cbn [scan_host].
    destruct (domain_char_plain c Hc) as (_ & -> & -> & ->).
    cbn [andb]. now rewrite IH.
Qed.

Lemma scan_host_inner inner rest :
  all_chars (fun c => is_lhex c || Ascii.eqb c ":") inner = true ->
  scan_host (inner +:+ rest) true
  = (inner +:+ fst (scan_host rest true), snd (scan_host rest true)).
Proof.
  induction inner as [|c h IH]; intros Hh.
  - rewrite !append_nil_l. now destruct (scan_host rest true).
  - cbn [all_chars] in Hh. apply andb_true_iff in Hh as [Hc Hh].
    rewrite !append_cons. cbn [scan_host].
    destruct (inner_char_plain c Hc) as (_ & -> & ->).
    rewrite andb_false_r. now rewrite IH.
Qed.

Lemma scan_host_open r :
  scan_host (String "[" r) false
  = (String "[" (fst (scan_host r true)), snd (scan_host r true)).
Proof.
  cbn [scan_host]. change (Ascii.eqb "[" ":") with false.
  change (Ascii.eqb "[" "[") with true. cbn [andb].
  now destruct (scan_host r true).
Qed.

Lemma scan_host_close r :
  scan_host (String "]" r) true
  = (String "]" (fst (scan_host r false)), snd (scan_host r false)).
Proof.
  cbn [scan_host]. change (Ascii.eqb "]" ":") with false.
  change (Ascii.eqb "]" "[") with false. change (Ascii.eqb "]" "]") with true.
  cbn [andb]. now destruct (scan_host r false).
Qed.

Lemma bracketed_app inner rest :
  ("[" +:+ inner +:+ "]") +:+ rest = String "[" (inner +:+ String "]" rest).
Proof.
  change ("[" +:+ inner +:+ "]") with (String "[" (inner +:+ "]")).
  now rewrite append_cons, append_assoc.
Qed.

(** The host state reads a host whole, whatever follows it. *)
Lemma scan_host_host h rest :
  parse_host h = Some h ->
  scan_host (h +:+ rest) false
  = (h +:+ fst (scan_host rest false), snd (scan_host rest false)).
Proof.
  intros H. destruct (parse_host_shape h H) as [[_ Hd]|(inner & -> & Hi)].
  - now apply scan_host_domain.
  - rewrite !bracketed_app, scan_host_open, scan_host_inner by assumption.
    cbn [fst snd]. rewrite scan_host_close. reflexivity.
Qed.

End UrlTextFacts.

(** ** The URL model: parsing what was written *)

Module UrlParseFacts.
Import Text TextFacts NodeURL NodeURLFacts UrlText UrlTextFacts.

Lemma special_cases sch :
  is_special sch = true ->
  sch = "ftp" \/ sch = "http" \/ sch = "https" \/ sch = "ws" \/ sch = "wss".
Proof.
  unfold is_special, default_port. intros H.
  destruct (String.eqb_spec sch "ftp"); [tauto|].
  destruct (String.eqb_spec sch "http"); [tauto|].
  destruct (String.eqb_spec sch "https"); [tauto|].
  destruct (String.eqb_spec sch "ws"); [tauto|].
  destruct (String.eqb_spec sch "wss"); [tauto|].
  discriminate.
Qed.

Lemma assemble_parts sch h digits p q f :
  assemble sch h digits p q f
  = sch +:+ "://" +:+ (h +:+ port_text digits) +:+ tail_text p q f.
Proof. unfold assemble, tail_text, port_text. now rewrite !append_assoc. Qed.

Lemma kept_query_fragment_graphic q f :
  (forall x, q = Some x -> kept_query x = true) ->
  (forall x, f = Some x -> kept_fragment x = true) ->
  all_chars is_graphic
    (match q with Some x => "?" +:+ x | None => "" end
     +:+ match f with Some x => "#" +:+ x | None => "" end) = true.
Proof.
  intros Hq Hf. rewrite all_chars_app.
  destruct q as [x|], f as [y|];
    try (specialize (Hq _ eq_refl); unfold kept_query in Hq;
         apply andb_true_iff in Hq as [Hq _];
         apply andb_true_iff in Hq as [Hq _]);
    try (specialize (Hf _ eq_refl); unfold kept_fragment in Hf;
         apply andb_true_iff in Hf as [Hf _]);
    rewrite ?all_chars_app, ?Hq, ?Hf; reflexivity.
Qed.

Lemma parse_query_fragment_text q f :
  (forall x, q = Some x -> kept_query x = true) ->
  (forall x, f = Some x -> kept_fragment x = true) ->
  parse_query_fragment
    (match q with Some x => "?" +:+ x | None => "" end
     +:+ match f with Some x => "#" +:+ x | None => "" end)
  = Some (q, f).
Proof.
  intros Hq Hf. unfold parse_query_fragment.
  assert (from_option plain_query true q
          && from_option plain_fragment true f = true) as Hplain.
  { destruct q as [x|], f as [y|]; cbn [from_option];
      try (specialize (Hq _ eq_refl); unfold kept_query in Hq;
           apply andb_true_iff in Hq as [_ ->]);
      try (specialize (Hf _ eq_refl); unfold kept_fragment in Hf;
           apply andb_true_iff in Hf as [_ ->]); reflexivity. }
  destruct q as [x|].
  - specialize (Hq _ eq_refl). unfold kept_query in Hq.
    apply andb_true_iff in Hq as [Hq _].
    apply andb_true_iff in Hq as [_ Hq].
    rewrite append_assoc. rewrite (append_cons "?" EmptyString), append_nil_l.
    rewrite strip_char_eq.
    destruct f as [y|].
    + rewrite (span_app _ x ("#" +:+ y) Hq) by reflexivity.
      change ("#" +:+ y) with (String "#" y). rewrite strip_char_eq.
      now rewrite Hplain.
    + rewrite (span_app _ x "" Hq) by exact I.
      cbn [strip_char]. now rewrite Hplain.
  - rewrite append_nil_l. destruct f as [y|].
    + change ("#" +:+ y) with (String "#" y).
      change (strip_char "?" (String "#" y)) with (@None string).
      cbv iota beta. rewrite strip_char_eq. now rewrite Hplain.
    + cbn [strip_char]. now rewrite Hplain.
Qed.

Lemma kept_path_facts p :
  kept_path p = true ->
  all_chars is_graphic p = true
  /\ all_chars (fun c => negb (char_in c "?#")) p = true
  /\ (p = EmptyString \/ exists r, p = String "/" r)
  /\ plain_path p = true.
Proof.
  unfold kept_path. rewrite !andb_true_iff. intros [[[Hg Hd] Hs] Hp].
  repeat split; try assumption.
  destruct p as [|c r]; [now left|right].
  clear -Hs. unfold starts_with in Hs.
  destruct c as [[] [] [] [] [] [] [] []]; simpl in Hs; try discriminate Hs.
  eauto.
Qed.

Lemma tail_text_stops p q f :
  kept_path p = true ->
  stops (fun c => negb (char_in c "/\?#")) (tail_text p q f).
Proof.
  intros Hp. destruct (kept_path_facts p Hp) as (_ & _ & [->|[r ->]] & _).
  - unfold tail_text. rewrite append_nil_l.
    destruct q as [x|]; [reflexivity|]. rewrite append_nil_l.
    destruct f as [y|]; [reflexivity|exact I].
  - reflexivity.
Qed.

Lemma query_fragment_stops q f :
  stops (fun c => negb (char_in c "?#"))
    (match q with Some x => "?" +:+ x | None => "" end
     +:+ match f with Some x => "#" +:+ x | None => "" end).
Proof.
  destruct q as [x|]; [reflexivity|]. rewrite append_nil_l.
  destruct f as [y|]; [reflexivity|exact I].
Qed.

Lemma port_text_chars digits :
  from_option (all_chars authority_char) true digits = true ->
  all_chars authority_char (port_text digits) = true.
Proof.
  destruct digits as [d|]; [|reflexivity]. cbn [from_option port_text].
  intros Hd. change (":" +:+ d) with (String ":" d). cbn [all_chars].
  rewrite Hd. reflexivity.
Qed.

Lemma scan_host_port_text h digits :
  parse_host h = Some h ->
  scan_host (h +:+ port_text digits) false = (h, digits).
Proof.
  intros H. rewrite scan_host_host by assumption.
  destruct digits as [d|]; cbn [port_text].
  - change (":" +:+ d) with (String ":" d). cbn [scan_host fst snd].
    change (Ascii.eqb ":" ":") with true. cbn [andb negb fst snd].
    now rewrite append_nil_r.
  - cbn [scan_host fst snd]. now rewrite append_nil_r.
Qed.

(** Reading an address written from its parts gives the parts back: the
    port as the port state reads what follows the colon, and a slash for an
    empty path. *)
Lemma parse_assemble sch h digits p q f :
  is_special sch = true ->
  parse_host h = Some h ->
  from_option (all_chars authority_char) true digits = true ->
  kept_path p = true ->
  (forall x, q = Some x -> kept_query x = true) ->
  (forall x, f = Some x -> kept_fragment x = true) ->
  parse (assemble sch h digits p q f)
  = n ← parse_port sch (default "" digits);
    Some {| scheme := sch; host := h; port := n;
            path := if is_empty p then "/" else p;
            query := q; fragment := f |}.
Proof.
  intros Hs Hh Hd Hp Hq Hf.
  destruct (kept_path_facts p Hp) as (Hpg & Hpd & _ & Hpp).
  pose proof (host_authority_chars h Hh) as Hha.
  pose proof (port_text_chars digits Hd) as Hda.
  assert (all_chars authority_char (h +:+ port_text digits) = true) as Hauth
    by now rewrite all_chars_app, Hha, Hda.
  assert (all_chars is_graphic (h +:+ port_text digits) = true) as Hag.
  { eapply all_chars_impl; [|exact Hauth]. intros c Hc.
    now destruct (authority_char_facts c Hc). }
  assert (all_chars is_graphic (tail_text p q f) = true) as Htg.
  { unfold tail_text. rewrite all_chars_app, Hpg.
    now apply kept_query_fragment_graphic. }
  assert (stops is_slash (h +:+ port_text digits +:+ tail_text p q f)) as Hslash.
  { pose proof (host_nonempty h Hh) as Hne. destruct h as [|c h]; [congruence|].
    cbn [all_chars] in Hha. apply andb_true_iff in Hha as [Hc _].
    now destruct (authority_char_facts c Hc) as (_ & _ & _ & ?). }
  rewrite assemble_parts. unfold parse.
  assert (all_chars is_graphic
            (sch +:+ "://" +:+ (h +:+ port_text digits) +:+ tail_text p q f)
          = true) as ->.
  { rewrite (all_chars_app _ sch), (all_chars_app _ "://"),
      (all_chars_app _ (h +:+ port_text digits)), Hag, Htg.
    destruct (special_cases sch Hs) as [->|[->|[->|[->| ->]]]]; reflexivity. }
  cbn [negb].
  assert (exists c0 r, sch = String c0 r /\ is_alpha c0 = true
                       /\ all_chars scheme_char sch = true
                       /\ lower sch = sch) as (c0 & r & Hsch & Halpha & Hsc & Hlow).
  { destruct (special_cases sch Hs) as [->|[->|[->|[->| ->]]]];
      eexists _, _; repeat split. }
  rewrite (span_app scheme_char sch _ Hsc) by reflexivity.
  rewrite Hsch at 1.
  change ("://" +:+ (h +:+ port_text digits) +:+ tail_text p q f)
    with (String ":" (String "/" (String "/"
            ((h +:+ port_text digits) +:+ tail_text p q f)))).
  rewrite strip_char_eq, Hlow, Halpha, Hs. cbn [negb orb].
  cbn [drop_while]. change (is_slash "/") with true. cbv iota.
  rewrite <- append_assoc in Hslash.
  rewrite (drop_while_stops _ _ Hslash).
  rewrite (span_app (fun c => negb (char_in c "/\?#")) (h +:+ port_text digits)
             (tail_text p q f)).
  2: { eapply all_chars_impl; [|exact Hauth]. intros c Hc.
       destruct (authority_char_facts c Hc) as (_ & -> & _). reflexivity. }
  2: { now apply tail_text_stops. }
  assert (all_chars (fun c => negb (Ascii.eqb c "@")) (h +:+ port_text digits)
          = true) as ->.
  { eapply all_chars_impl; [|exact Hauth]. intros c Hc.
    destruct (authority_char_facts c Hc) as (_ & _ & -> & _). reflexivity. }
  cbn [negb]. rewrite scan_host_port_text by assumption.
  unfold tail_text.
  rewrite (span_app (fun c => negb (char_in c "?#")) p _ Hpd)
    by apply query_fragment_stops.
  rewrite Hh, parse_query_fragment_text by assumption.
  destruct (parse_port sch (default "" digits)) as [n|]; [|reflexivity].
  cbn. now rewrite Hpp.
Qed.

End UrlParseFacts.

(** ** The URL model: round trip *)

Module UrlRoundTrip.
Import Text TextFacts NodeURL NodeURLFacts UrlText UrlTextFacts UrlParseFacts.

Lemma graphic_app_l a b :
  all_chars is_graphic (a +:+ b) = true -> all_chars is_graphic a = true.
Proof. rewrite all_chars_app, andb_true_iff. tauto. Qed.

Lemma graphic_app_r a b :
  all_chars is_graphic (a +:+ b) = true -> all_chars is_graphic b = true.
Proof. rewrite all_chars_app, andb_true_iff. tauto. Qed.

Lemma path_first_char c :
  char_in c "/\?#" = true ->
  negb (char_in c "?#") = true ->
  negb (Ascii.eqb c dquote || char_in c "\<>`{}^") = true ->
  c = "/"%char.
Proof.
  destruct c as [[] [] [] [] [] [] [] []]; vm_compute; congruence.
Qed.

Lemma parse_query_fragment_kept s q f :
  all_chars is_graphic s = true ->
  parse_query_fragment s = Some (q, f) ->
  (forall x, q = Some x -> kept_query x = true)
  /\ (forall x, f = Some x -> kept_fragment x = true).
Proof.
  intros Hg. unfold parse_query_fragment.
  destruct (strip_char "?" s) as [r|] eqn:Hr.
  - apply strip_char_Some in Hr. subst s.
    change (String "?" r) with ("?" +:+ r) in Hg. apply graphic_app_r in Hg.
    destruct (span _ r) as [q0 s1] eqn:Hsp.
    destruct (span_spec _ _ _ _ Hsp) as (-> & Hq0 & _).
    pose proof (graphic_app_l _ _ Hg) as Hgq.
    pose proof (graphic_app_r _ _ Hg) as Hgs.
    destruct (strip_char "#" s1) as [f0|] eqn:Hf0; cbn [from_option].
    + apply strip_char_Some in Hf0. subst s1.
      change (String "#" f0) with ("#" +:+ f0) in Hgs.
      apply graphic_app_r in Hgs.
      destruct (plain_query q0 && plain_fragment f0) eqn:Hp; [|discriminate].
      apply andb_true_iff in Hp as [Hpq Hpf]. intros [= <- <-].
      split; intros x [= <-]; unfold kept_query, kept_fragment.
      * now rewrite Hgq, Hq0, Hpq.
      * now rewrite Hgs, Hpf.
    + destruct (plain_query q0 && true) eqn:Hp; [|discriminate].
      apply andb_true_iff in Hp as [Hpq _]. intros [= <- <-].
      split; intros x [= <-]. unfold kept_query. now rewrite Hgq, Hq0, Hpq.
  - destruct (strip_char "#" s) as [f0|] eqn:Hf0; cbn [from_option].
    + apply strip_char_Some in Hf0. subst s.
      change (String "#" f0) with ("#" +:+ f0) in Hg.
      apply graphic_app_r in Hg.
      destruct (true && plain_fragment f0) eqn:Hp; [|discriminate].
      cbn [andb] in Hp. intros [= <- <-].
      split; intros x [= <-]. unfold kept_fragment. now rewrite Hg, Hp.
    + intros [= <- <-]. split; intros x [=].
Qed.

(** What [parse] builds is in the form [href] writes. *)
Lemma parse_serialised s u : parse s = Some u -> serialised u.
Proof.
  intros H. pose proof (parse_parsed _ _ H) as Hparsed.
  unfold parse in H.
  destruct (all_chars is_graphic s) eqn:Hg; [|discriminate]. cbn [negb] in H.
  destruct (span scheme_char s) as [sch s1] eqn:Hsp1.
  destruct (span_spec _ _ _ _ Hsp1) as (-> & _ & _).
  apply graphic_app_r in Hg.
  destruct sch as [|c0 sch]; [discriminate|].
  destruct (strip_char ":" s1) as [s2|] eqn:Hs2; [|discriminate].
  apply strip_char_Some in Hs2. subst s1.
  change (String ":" s2) with (":" +:+ s2) in Hg. apply graphic_app_r in Hg.
  destruct (negb (is_alpha c0) || negb (is_special _)); [discriminate|].
  destruct (drop_while_suffix is_slash s2) as [pre Hpre].
  rewrite Hpre in Hg. apply graphic_app_r in Hg.
  destruct (span _ (drop_while is_slash s2)) as [authority s4] eqn:Hsp2.
  destruct (span_spec _ _ _ _ Hsp2) as (Heq2 & _ & Hstop).
  rewrite Heq2 in Hg. apply graphic_app_r in Hg.
  destruct (negb (all_chars _ authority)); [discriminate|].
  destruct (scan_host authority false) as [h p].
  destruct (span _ s4) as [pa s5] eqn:Hsp3.
  destruct (span_spec _ _ _ _ Hsp3) as (-> & Hpa & _).
  pose proof (graphic_app_l _ _ Hg) as Hgpa.
  pose proof (graphic_app_r _ _ Hg) as Hgs5.
  destruct (parse_host h) as [h'|]; [|discriminate].
  destruct (parse_port _ _) as [p'|]; [|discriminate].
  destruct (parse_query_fragment s5) as [[q f]|] eqn:Hqf; [|discriminate].
  destruct (plain_path pa) eqn:Hplain; [|discriminate].
  injection H as <-.
  destruct (parse_query_fragment_kept _ _ _ Hgs5 Hqf) as [Hq Hf].
  split; cbn [path query fragment]; try assumption.
  destruct pa as [|c pa]; cbn [is_empty]; [split; reflexivity|].
  split; [|reflexivity].
  assert (c = "/"%char) as ->.
  { rewrite append_cons in Hstop. cbn [stops] in Hstop.
    apply negb_false_iff in Hstop.
    cbn [all_chars] in Hpa. apply andb_true_iff in Hpa as [Hc _].
    unfold plain_path in Hplain. apply andb_true_iff in Hplain as [Hpl _].
    cbn [all_chars] in Hpl. apply andb_true_iff in Hpl as [Hcp _].
    now apply path_first_char. }
  unfold kept_path. rewrite Hgpa, Hpa, Hplain.
  unfold starts_with. cbn [is_empty String.prefix orb andb].
  destruct (ascii_dec "/" "/"); [now destruct pa|congruence].
Qed.

Lemma href_assemble u :
  href u = assemble (scheme u) (host u) (show_N <$> port u) (path u)
                    (query u) (fragment u).
Proof. unfold href, assemble. now destruct (port u). Qed.

(** Reading what [href] wrote gives the address back. *)
Lemma parse_href u : serialised u -> parse (href u) = Some u.
Proof.
  intros [[Hs Hh Hp] [Hpath Hne] Hq Hf].
  rewrite href_assemble, parse_assemble; try assumption.
  - rewrite Hne. destruct u as [sch h p pa q f].
    cbn [scheme host port path query fragment] in *.
    destruct p as [n|].
    + destruct (Hp n eq_refl) as [Hn Hd].
      change (default "" (show_N <$> Some n)) with (show_N n).
      rewrite parse_port_show by assumption.
      destruct (decide _); [contradiction|reflexivity].
    + reflexivity.
  - destruct (port u) as [n|]; [|reflexivity].
    apply (all_chars_impl _ _ _ digit_authority_char), show_N_digits.
Qed.

End UrlRoundTrip.

(** ** browser.js: rewriting, read back *)

Module RewriteRoundTrip.
Import Text TextFacts NodeURL NodeURLFacts Js BrowserJs RewriteFacts.
Import UrlText UrlTextFacts UrlParseFacts UrlRoundTrip.

Lemma show_N_inj a b : show_N a = show_N b -> a = b.
Proof.
  intros H. apply (f_equal read_N) in H. rewrite !read_show_N in H.
  congruence.
Qed.

Lemma port_attr_inj u1 u2 : port_attr u1 = port_attr u2 -> port u1 = port u2.
Proof.
  unfold port_attr. destruct (port u1) as [a|], (port u2) as [b|]; intros H.
  - f_equal. now apply show_N_inj.
  - pose proof (show_N_nonempty a) as Ha. rewrite H in Ha. discriminate.
  - pose proof (show_N_nonempty b) as Hb. rewrite <- H in Hb. discriminate.
  - reflexivity.
Qed.

Lemma rewritten_serialised wsUrl via :
  serialised wsUrl -> parsed via -> serialised (rewritten wsUrl via).
Proof.
  intros [[Hs Hh Hp] Hpath Hq Hf] Pv.
  rewrite rewritten_fields by assumption.
  destruct Pv as [Hvs Hvh Hvp].
  split; cbn; try assumption.
  split; cbn; try assumption.
  intros n. destruct (port via) as [m|]; [|discriminate].
  destruct (decide _) as [E|E]; [discriminate|]. intros [= <-].
  split; [apply (Hvp m eq_refl)|exact E].
Qed.

Lemma rewritten_again wsUrl via :
  parsed via -> rewritten (rewritten wsUrl via) via = rewritten wsUrl via.
Proof.
  intros Pv. rewrite (rewritten_fields (rewritten wsUrl via)) by assumption.
  rewrite !rewritten_fields by assumption. cbn.
  reflexivity.
Qed.

Lemma rewriteWsEndpoint_unparsed o v :
  parse o = None \/ parse v = None -> rewriteWsEndpoint o v = o.
Proof.
  unfold rewriteWsEndpoint, rewriteWsEndpoint_try.
  destruct (parse o) as [wsUrl|]; cbn; [|reflexivity].
  destruct (parse v) as [via|]; cbn; [|reflexivity].
  intros [H|H]; discriminate.
Qed.

(** X1.  For an advertised address and an Origin inside the modelled
    fragment of the URL class (both are parsed by [parse]), what
    [rewriteWsEndpoint] returns is again an address that parses: it has
    the scheme, path, query and fragment of the advertised one; its
    hostname is the Origin's, or the advertised one when that is not a
    listed loopback.  When the [port] attribute of the Origin is not empty
    (the Origin names a port that is not the default of its own scheme),
    that is the port the result connects on.  When it is empty (the Origin
    names no port, or the default port of its scheme), the result has no
    port either and connects on the default port of the advertised
    scheme, which need not be the port of the Origin. *)
Theorem rewriteWsEndpoint_result_parses o v wsUrl via :
  parse o = Some wsUrl -> parse v = Some via ->
  exists r,
    parse (rewriteWsEndpoint o v) = Some r
    /\ scheme r = scheme wsUrl /\ pathname r = pathname wsUrl
    /\ query r = query wsUrl /\ fragment r = fragment wsUrl
    /\ (hostname r = hostname via
        \/ hostname r = hostname wsUrl /\ isLoopback wsUrl = false)
    /\ (forall n, port via = Some n -> effective_port r = Some n)
    /\ (port via = None ->
        port r = None /\ effective_port r = default_port (scheme wsUrl)).
Proof.
  intros Ho Hv.
  pose proof (parse_parsed _ _ Hv) as Pv.
  rewrite (rewriteWsEndpoint_unfold _ _ _ _ Ho Hv).
  destruct (negb (isLoopback wsUrl)
            && String.eqb (port_attr wsUrl) (port_attr via)) eqn:Hkeep.
  - apply andb_true_iff in Hkeep as [Hl Hp].
    apply negb_true_iff in Hl. apply String.eqb_eq, port_attr_inj in Hp.
    exists wsUrl. split; [assumption|]. do 4 (split; [reflexivity|]).
    split; [now right|]. split.
    + intros n Hn. unfold effective_port. now rewrite Hp, Hn.
    + intros Hn. unfold effective_port. rewrite Hp, Hn. now split.
  - exists (rewritten wsUrl via). split.
    + apply parse_href, rewritten_serialised; [|assumption].
      now apply parse_serialised with o.
    + rewrite rewritten_fields by assumption. cbn.
      do 4 (split; [reflexivity|]). split; [now left|]. split.
      * intros n Hn. rewrite <- (rewritten_effective_port wsUrl via n Pv Hn).
        now rewrite rewritten_fields.
      * intros Hn. unfold effective_port; cbn. rewrite Hn. now split.
Qed.

Lemma rewriteWsEndpoint_result_parses_witness :
  let wsUrl := mkURL "wss" "127.0.0.1" (Some 9222%N) "/devtools/browser/x"
                     (Some "a=1") (Some "top") in
  let via := mkURL "http" "10.0.0.5" None "/" None None in
  exists r,
    parse (rewriteWsEndpoint "wss://127.0.0.1:9222/devtools/browser/x?a=1#top"
                             "http://10.0.0.5:80")
    = Some r
    /\ scheme r = scheme wsUrl /\ pathname r = pathname wsUrl
    /\ query r = query wsUrl /\ fragment r = fragment wsUrl
    /\ (hostname r = hostname via
        \/ hostname r = hostname wsUrl /\ isLoopback wsUrl = false)
    /\ (forall n, port via = Some n -> effective_port r = Some n)
    /\ (port via = None ->
        port r = None /\ effective_port r = default_port (scheme wsUrl)).
Proof.
  apply (rewriteWsEndpoint_result_parses
           "wss://127.0.0.1:9222/devtools/browser/x?a=1#top"
           "http://10.0.0.5:80"
           (mkURL "wss" "127.0.0.1" (Some 9222%N) "/devtools/browser/x"
                  (Some "a=1") (Some "top"))
           (mkURL "http" "10.0.0.5" None "/" None None)).
  - vm_compute. reflexivity.
  - vm_compute. reflexivity.
Defined.

(** X2.  Rewriting is idempotent on the texts the URL model decides:
    when each of the advertised text and the Origin either parses inside
    the modelled fragment or is one that [new URL] refuses, rewriting the
    result once more through the same Origin changes nothing. *)
Theorem rewriteWsEndpoint_idempotent o v :
  decided o = true -> decided v = true ->
  rewriteWsEndpoint (rewriteWsEndpoint o v) v = rewriteWsEndpoint o v.
Proof.
  intros Do Dv.
  apply decided_cases in Do as [[wsUrl Ho]|Ro];
    [|apply refused_not_parsed in Ro;
      now rewrite !(rewriteWsEndpoint_unparsed o v) by now left].
  apply decided_cases in Dv as [[via Hv]|Rv];
    [|apply refused_not_parsed in Rv;
      now rewrite !(rewriteWsEndpoint_unparsed _ v) by now right].
  pose proof (parse_parsed _ _ Hv) as Pv.
  rewrite (rewriteWsEndpoint_unfold _ _ _ _ Ho Hv).
  destruct (negb (isLoopback wsUrl)
            && String.eqb (port_attr wsUrl) (port_attr via)) eqn:Hkeep.
  - rewrite (rewriteWsEndpoint_unfold _ _ _ _ Ho Hv). now rewrite Hkeep.
  - assert (parse (toString (rewritten wsUrl via))
            = Some (rewritten wsUrl via)) as Hr.
    { apply parse_href, rewritten_serialised; [|assumption].
      now apply parse_serialised with o. }
    rewrite (rewriteWsEndpoint_unfold _ _ _ _ Hr Hv).
    rewrite rewritten_again by assumption.
    match goal with |- (if ?b then _ else _) = _ => now destruct b end.
Qed.

Lemma rewriteWsEndpoint_idempotent_witness :
  rewriteWsEndpoint
    (rewriteWsEndpoint "ws://127.0.0.1:9222/devtools/browser/x"
                       "http://10.0.0.5:9999")
    "http://10.0.0.5:9999"
  = rewriteWsEndpoint "ws://127.0.0.1:9222/devtools/browser/x"
                      "http://10.0.0.5:9999".
Proof.
  apply (rewriteWsEndpoint_idempotent
           "ws://127.0.0.1:9222/devtools/browser/x" "http://10.0.0.5:9999");
    vm_compute; reflexivity.
Defined.

Lemma href_nonempty u : is_empty (href u) = false.
Proof.
  unfold href. destruct (scheme u); reflexivity.
Qed.

Lemma rewriteWsEndpoint_nonempty o v :
  is_empty o = false -> is_empty (rewriteWsEndpoint o v) = false.
Proof.
  intros Hne. unfold rewriteWsEndpoint, rewriteWsEndpoint_try.
  destruct (parse o) as [wsUrl|]; cbn; [|assumption].
  destruct (parse v) as [via|]; cbn; [|assumption].
  destruct (_ && _); [assumption|apply href_nonempty].
Qed.

End RewriteRoundTrip.

(** ** Frame rules for code that assigns nothing *)

Module QuietFacts.
Import Text Js Observations.

#[global] Instance steady_quiet : Quiet steady (fun _ => True).
Proof.
  split; unfold steady; simpl; try tauto.
  intros w1 w2 w3 (-> & -> & -> & -> & ->) (-> & -> & -> & -> & ->). tauto.
Qed.

#[global] Instance emitted_quiet (P : Event -> Prop) : Quiet (emitted P) P.
Proof.
  split.
  - intros w. exists []. split; [now rewrite app_nil_r|constructor].
  - intros w1 w2 w3 (e1 & H1 & F1) (e2 & H2 & F2). exists (e1 ++ e2)%list.
    split; [now rewrite H2, H1, app_assoc|now apply Forall_app].
  - intros ev w H. exists [ev]. split; [reflexivity|now repeat constructor].
  - intros w. exists []. split; [now rewrite app_nil_r|constructor].
Qed.

Section Rules.
Context {R : World -> World -> Prop} {P : Event -> Prop} `{!Quiet R P}.

Lemma quiet_ret {A} (a : A) : preserves R (ret a).
Proof. intros w. apply quiet_refl. Qed.

Lemma quiet_throw {A} e : preserves R (@throw A e).
Proof. intros w. apply quiet_refl. Qed.

Lemma quiet_lift {A} (r : Res A) : preserves R (BrowserJs.lift r).
Proof. intros w. apply quiet_refl. Qed.

Lemma quiet_gets {A} (f : World -> A) : preserves R (gets f).
Proof. intros w. apply quiet_refl. Qed.

Lemma quiet_bind {A B} (m : M A) (k : A -> M B) :
  preserves R m -> (forall a, preserves R (k a)) -> preserves R (bind m k).
Proof.
  intros Hm Hk w. unfold bind. specialize (Hm w).
  destruct (m w) as [[a|e] w']; simpl in *; [|assumption].
  eapply quiet_trans; [eassumption|apply Hk].
Qed.

Lemma quiet_try_catch {A} (m : M A) (h : exn -> M A) :
  preserves R m -> (forall e, preserves R (h e)) -> preserves R (try_catch m h).
Proof.
  intros Hm Hh w. unfold try_catch. specialize (Hm w).
  destruct (m w) as [[a|e] w']; simpl in *; [assumption|].
  eapply quiet_trans; [eassumption|apply Hh].
Qed.

Lemma quiet_swallow {A} (m : M A) : preserves R m -> preserves R (swallow m).
Proof. intros Hm w. apply Hm. Qed.

Lemma quiet_call {A} ev (f : nat -> Res A) : P ev -> preserves R (call ev f).
Proof.
  intros Hev w. simpl.
  eapply quiet_trans; [apply quiet_record, Hev|apply quiet_tick].
Qed.

Lemma quiet_emit ev : P ev -> preserves R (emit ev).
Proof. intros Hev w. simpl. now apply quiet_record. Qed.

Lemma quiet_logger line : P (EvLog line) -> preserves R (logger line).
Proof. apply quiet_emit. Qed.

Lemma quiet_race_timer {A} env label msg (m : M A) :
  P (EvTimer label) -> preserves R m ->
  preserves R (race_timer env label msg m).
Proof.
  intros Hev Hm w. unfold race_timer. specialize (Hm w).
  destruct (m w) as [r w']. simpl in *.
  destruct (env_timer_first env (clock w')); simpl; [|assumption].
  eapply quiet_trans; [eassumption|].
  eapply quiet_trans; [apply quiet_record, Hev|apply quiet_tick].
Qed.

End Rules.

(** Breaks a goal [preserves R m] down along the structure of [m], for
    code that assigns nothing. *)
Ltac quiet_step :=
  match goal with
  | |- preserves _ (bind _ _) => apply quiet_bind; [|intros]
  | |- preserves _ (try_catch _ _) => apply quiet_try_catch; [|intros]
  | |- preserves _ (swallow _) => apply quiet_swallow
  | |- preserves _ (ret _) => apply quiet_ret
  | |- preserves _ (throw _) => apply quiet_throw
  | |- preserves _ (BrowserJs.lift _) => apply quiet_lift
  | |- preserves _ (gets _) => apply quiet_gets
  | |- preserves _ (call _ _) => apply quiet_call
  | |- preserves _ (emit _) => apply quiet_emit
  | |- preserves _ (logger _) => apply quiet_logger
  | |- preserves _ (race_timer _ _ _ _) => apply quiet_race_timer
  | |- preserves _ (if ?b then _ else _) => destruct b
  | |- preserves _ (match ?x with _ => _ end) => destruct x
  | |- preserves _ (let '(_, _) := ?x in _) => destruct x
  end.

Create HintDb quiet.

Ltac quiet := repeat quiet_step; auto with quiet.

(** ** The functions that only talk to the outside *)

Section Lookups.
Context {R : World -> World -> Prop} {P : Event -> Prop} `{!Quiet R P}.
Context (lookup_ok : forall ev, is_lookup ev = true -> P ev).
Context (env : Env).
Import BrowserJs BrowserManagement.

Lemma fetchJsonWithTimeout_quiet url ms :
  preserves R (fetchJsonWithTimeout env url ms).
Proof. unfold fetchJsonWithTimeout. quiet. Qed.
#[local] Hint Resolve fetchJsonWithTimeout_quiet : quiet.

Lemma resolveWsFromBrowserURL_quiet url ms :
  preserves R (resolveWsFromBrowserURL env url ms).
Proof. unfold resolveWsFromBrowserURL. quiet. Qed.
#[local] Hint Resolve resolveWsFromBrowserURL_quiet : quiet.

Lemma execSync_quiet command : preserves R (execSync env command).
Proof. unfold execSync. quiet. Qed.
#[local] Hint Resolve execSync_quiet : quiet.

Lemma discover_ports_quiet container ip ports :
  preserves R (discover_ports env container ip ports).
Proof. induction ports as [|port rest IH]; simpl; quiet. Qed.
#[local] Hint Resolve discover_ports_quiet : quiet.

Lemma discover_containers_quiet candidates :
  preserves R (discover_containers env candidates).
Proof. induction candidates as [|container rest IH]; simpl; quiet. Qed.
#[local] Hint Resolve discover_containers_quiet : quiet.

Lemma live_browser_quiet : preserves R (live_browser env).
Proof. intros w. apply quiet_refl. Qed.
#[local] Hint Resolve live_browser_quiet : quiet.

Lemma connect_plan_quiet options : preserves R (connect_plan env options).
Proof. unfold connect_plan, discoverWebtopBrowser. quiet. Qed.

Lemma fetchJsonVersion_quiet url ms :
  preserves R (fetchJsonVersion env url ms).
Proof. unfold fetchJsonVersion. quiet. Qed.

End Lookups.

Section Warmup.
Context {R : World -> World -> Prop} {P : Event -> Prop} `{!Quiet R P}.
Context (pages_ok : forall b, P (EvPages b)).
Context (session_ok : forall p, P (EvCreateCDPSession p)).
Context (send_ok : forall client method, P (EvSend client method)).
Context (timer_ok : forall label, P (EvTimer label)).
Context (env : Env).
Import BrowserJs.

Lemma sendWithTimeout_quiet client method ms :
  preserves R (sendWithTimeout env client method ms).
Proof. unfold sendWithTimeout. quiet. Qed.
#[local] Hint Resolve sendWithTimeout_quiet : quiet.

Lemma preflight_quiet b : preserves R (preflight env b).
Proof. unfold preflight. quiet. Qed.

End Warmup.

Section Assigning.
Context {R : World -> World -> Prop} {P : Event -> Prop} `{!Quiet R P}.

(** The rule for a step whose result the rest depends on: [Q] holds of
    what the step returns. *)
Lemma quiet_bind_post {A B} (Q : A -> Prop) (m : M A) (k : A -> M B) :
  preserves R m ->
  (forall w a w', m w = (Ok a, w') -> Q a) ->
  (forall a, Q a -> preserves R (k a)) ->
  preserves R (bind m k).
Proof.
  intros Hm HQ Hk w. unfold bind. specialize (Hm w). specialize (HQ w).
  destruct (m w) as [[a|e] w']; simpl in *; [|assumption].
  eapply quiet_trans; [eassumption|]. apply Hk. now apply (HQ a w').
Qed.

Lemma quiet_modify (f : World -> World) :
  (forall w, R w (f w)) -> preserves R (modify f).
Proof. intros Hf w. apply Hf. Qed.

End Assigning.

Section Steady.
Context (env : Env).
Import BrowserJs BrowserManagement.

Lemma connectWithTimeout_steady o ms :
  preserves steady (connectWithTimeout env o ms).
Proof. unfold connectWithTimeout. quiet. Qed.

Lemma launch_steady options : preserves steady (launch env options).
Proof. unfold launch. quiet. Qed.


Lemma disconnect_current_steady c :
  preserves steady (disconnect_current env c).
Proof. unfold disconnect_current. quiet. intros w. apply quiet_refl. Qed.

End Steady.

End QuietFacts.

(** ** browser.js: resolving and discovering *)

Module ConnectFacts.
Import Text TextFacts NodeURLFacts Js BrowserJs Observations.
Import FrameFacts QuietFacts BrowserFacts SwitchFacts RewriteRoundTrip.

Lemma bind_Throw {A B} (m : M A) (k : A -> M B) w e w' :
  bind m k w = (Throw e, w') ->
  m w = (Throw e, w')
  \/ exists a w1, m w = (Ok a, w1) /\ k a w1 = (Throw e, w').
Proof.
  unfold bind. destruct (m w) as [[a|e0] w1]; intros H;
    [right; exists a, w1; split; [reflexivity|exact H]|left; now injection H as -> ->].
Qed.

Lemma try_catch_Throw {A} (m : M A) h w e w' :
  try_catch m h w = (Throw e, w') ->
  exists e0 w1, m w = (Throw e0, w1) /\ h e0 w1 = (Throw e, w').
Proof.
  unfold try_catch. destruct (m w) as [[a|e0] w1]; [discriminate|eauto].
Qed.

Lemma append_nonempty_l a b : is_empty a = false -> is_empty (a +:+ b) = false.
Proof. now destruct a. Qed.

Lemma append_nonempty_r a b : is_empty b = false -> is_empty (a +:+ b) = false.
Proof. destruct a; [now rewrite append_nil_l|reflexivity]. Qed.

(** ** resolveWsFromBrowserURL *)

Lemma resolveWsFromBrowserURL_inv env url ms w s w' :
  resolveWsFromBrowserURL env url ms w = (Ok s, w') ->
  w' = tick (record (EvFetch (url +:+ "/json/version") ms) w)
  /\ exists res version original,
       env_fetch env (clock w) (url +:+ "/json/version") = Ok res
       /\ ok res = true /\ json res = Ok version
       /\ or_else (webSocketDebuggerUrl version)
                  (webSocketDebuggerUrlLegacy version) = Some original
       /\ is_empty original = false
       /\ s = rewriteWsEndpoint original url.
Proof.
  unfold resolveWsFromBrowserURL, fetchJsonWithTimeout, bind, call, lift.
  destruct (env_fetch env (clock w) (url +:+ "/json/version")) as [res|e];
    [|discriminate].
  destruct (ok res) eqn:Hok; [|discriminate]. cbn [negb].
  destruct (json res) as [version|e] eqn:Hjson; [|discriminate].
  destruct (or_else _ _) as [original|] eqn:Hor; [|discriminate].
  destruct (is_empty original) eqn:Hne; [discriminate|].
  intros [= <- <-]. split; [reflexivity|].
  exists res, version, original. repeat split; assumption.
Qed.

Lemma resolveWsFromBrowserURL_nonempty env url ms w s w' :
  resolveWsFromBrowserURL env url ms w = (Ok s, w') -> is_empty s = false.
Proof.
  intros H. apply resolveWsFromBrowserURL_inv in H
    as (_ & res & version & original & _ & _ & _ & _ & Hne & ->).
  now apply rewriteWsEndpoint_nonempty.
Qed.

(** X3.  When [resolveWsFromBrowserURL] returns, it has made exactly one
    request, for [/json/version] under the given address, which was
    answered with a success status and a body naming an address that is
    not empty in [webSocketDebuggerUrl] or else in
    [webSocketDebuggerUrlLegacy]; the result is that address as
    [rewriteWsEndpoint] gives it, and it is never the empty text. *)
Theorem resolveWsFromBrowserURL_success env url ms w s w' :
  resolveWsFromBrowserURL env url ms w = (Ok s, w') ->
  is_empty s = false
  /\ w' = tick (record (EvFetch (url +:+ "/json/version") ms) w)
  /\ exists res version original,
       env_fetch env (clock w) (url +:+ "/json/version") = Ok res
       /\ ok res = true /\ json res = Ok version
       /\ or_else (webSocketDebuggerUrl version)
                  (webSocketDebuggerUrlLegacy version) = Some original
       /\ s = rewriteWsEndpoint original url.
Proof.
  intros H. split; [eapply resolveWsFromBrowserURL_nonempty; eassumption|].
  apply resolveWsFromBrowserURL_inv in H
    as (Hw & res & version & original & ? & ? & ? & ? & _ & ?).
  split; [assumption|]. exists res, version, original. repeat split; assumption.
Qed.

Lemma resolveWsFromBrowserURL_success_witness :
  is_empty "ws://10.0.0.5:9999/devtools/browser/x" = false
  /\ tick (record (EvFetch "http://10.0.0.5:9999/json/version" 3000)
                  Scenario.start)
     = tick (record (EvFetch ("http://10.0.0.5:9999" +:+ "/json/version") 3000)
                    Scenario.start)
  /\ exists res version original,
       env_fetch (Scenario.reachable (fun _ _ => false))
         (clock Scenario.start) ("http://10.0.0.5:9999" +:+ "/json/version")
       = Ok res
       /\ ok res = true /\ json res = Ok version
       /\ or_else (webSocketDebuggerUrl version)
                  (webSocketDebuggerUrlLegacy version) = Some original
       /\ "ws://10.0.0.5:9999/devtools/browser/x"
          = rewriteWsEndpoint original "http://10.0.0.5:9999".
Proof.
  apply (resolveWsFromBrowserURL_success
           (Scenario.reachable (fun _ _ => false))
           "http://10.0.0.5:9999" 3000 Scenario.start).
  vm_compute. reflexivity.
Defined.

(** ** discoverWebtopBrowser *)

Lemma discover_ports_result env container ip ports w :
  exists found w',
    discover_ports env container ip ports w = (Ok found, w')
    /\ forall d, found = Some d ->
         d_container d = container /\ d_ip d = ip /\ In (d_port d) ports
         /\ d_browserURL d = "http://" +:+ ip +:+ ":" +:+ show_N (d_port d)
         /\ is_empty (d_wsEndpoint d) = false.
Proof.
  revert w. induction ports as [|port rest IH]; intros w.
  - exists None, w. split; [reflexivity|discriminate].
  - cbn [discover_ports]. unfold try_catch, bind at 1.
    destruct (resolveWsFromBrowserURL env _ 2000 w) as [[ws|e] w1] eqn:Hr.
    + eexists _, w1. split; [reflexivity|].
      intros d [= <-]. cbn.
      repeat split; [now left|].
      eapply resolveWsFromBrowserURL_nonempty; eassumption.
    + destruct (IH w1) as (found & w' & Hrun & Hshape).
      exists found, w'. split; [assumption|].
      intros d Hd. destruct (Hshape d Hd) as (? & ? & ? & ? & ?).
      repeat split; try assumption. now right.
Qed.

Lemma discover_containers_result env candidates w :
  exists found w',
    discover_containers env candidates w = (Ok found, w')
    /\ forall d, found = Some d ->
         In (d_container d) candidates
         /\ In (d_port d) [9999; 9222]%N
         /\ is_empty (d_ip d) = false
         /\ d_browserURL d
            = "http://" +:+ d_ip d +:+ ":" +:+ show_N (d_port d)
         /\ is_empty (d_wsEndpoint d) = false.
Proof.
  revert w. induction candidates as [|container rest IH]; intros w.
  - exists None, w. split; [reflexivity|discriminate].
  - cbn [discover_containers]. unfold bind at 1.
    match goal with
    | |- context [try_catch ?m ?h w] =>
        assert (exists found w1,
                  try_catch m h w = (Ok found, w1)
                  /\ forall d, found = Some d ->
                       d_container d = container
                       /\ In (d_port d) [9999; 9222]%N
                       /\ is_empty (d_ip d) = false
                       /\ d_browserURL d
                          = "http://" +:+ d_ip d +:+ ":" +:+ show_N (d_port d)
                       /\ is_empty (d_wsEndpoint d) = false) as Hinner
    end.
    { unfold try_catch, bind, execSync, call, ret.
      destruct (env_execSync env (clock w) _) as [running|e];
        [|eexists _, _; split; [reflexivity|discriminate]].
      destruct (negb (String.eqb (trim running) "true"));
        [eexists _, _; split; [reflexivity|discriminate]|].
      destruct (env_execSync env _ _) as [ip|e];
        [|eexists _, _; split; [reflexivity|discriminate]].
      destruct (is_empty (trim ip)) eqn:Hip;
        [eexists _, _; split; [reflexivity|discriminate]|].
      match goal with
      | |- context [discover_ports env container (trim ip) ?ps ?w0] =>
          destruct (discover_ports_result env container (trim ip) ps w0)
            as (found & w1 & Hrun & Hshape)
      end.
      rewrite Hrun. exists found, w1. split; [reflexivity|].
      intros d Hd. destruct (Hshape d Hd) as (? & Hi & ? & Hu & ?).
      rewrite Hi. repeat split; assumption. }
    destruct Hinner as (found & w1 & -> & Hshape).
    destruct found as [d|].
    + exists (Some d), w1. split; [reflexivity|].
      intros d' [= <-]. destruct (Hshape d eq_refl) as (Hc & ? & ? & ? & ?).
      repeat split; try assumption. left. now rewrite Hc.
    + destruct (IH w1) as (found & w' & Hrun & Hrest).
      exists found, w'. split; [assumption|].
      intros d Hd. destruct (Hrest d Hd) as (? & ? & ? & ? & ?).
      repeat split; try assumption. now right.
Qed.

(** X4.  [discoverWebtopBrowser] never throws and assigns nothing; all it
    does is run [docker] commands and make discovery requests.  What it
    finds is one of the three containers, at a non-empty address and on
    port 9999 or 9222, with the browser URL made of that address and port
    and a control-channel address that is not empty. *)
Theorem discoverWebtopBrowser_total env w :
  exists found w',
    discoverWebtopBrowser env w = (Ok found, w')
    /\ steady w w'
    /\ emitted (fun ev => is_lookup ev = true) w w'
    /\ forall d, found = Some d ->
         In (d_container d) [ "webtop1"; "webtop2"; "webtop3" ]
         /\ In (d_port d) [9999; 9222]%N
         /\ is_empty (d_ip d) = false
         /\ d_browserURL d
            = "http://" +:+ d_ip d +:+ ":" +:+ show_N (d_port d)
         /\ is_empty (d_wsEndpoint d) = false.
Proof.
  unfold discoverWebtopBrowser.
  destruct (discover_containers_result env [ "webtop1"; "webtop2"; "webtop3" ] w)
    as (found & w' & Hrun & Hshape).
  exists found, w'. split; [assumption|].
  split; [|split; [|assumption]].
  - change w' with (snd (Ok found, w')). rewrite <- Hrun.
    now apply (discover_containers_quiet (R := steady)).
  - change w' with (snd (Ok found, w')). rewrite <- Hrun.
    now apply (discover_containers_quiet
                 (R := emitted (fun ev => is_lookup ev = true))).
Qed.

End ConnectFacts.

(** ** browser.js: connecting *)

Module EnsureFacts.
Import Text TextFacts NodeURLFacts Js BrowserJs Observations.
Import FrameFacts QuietFacts BrowserFacts RewriteRoundTrip ConnectFacts.
Import SwitchFacts.

(** What the first part of [ensureBrowserConnected] hands to the connect:
    an endpoint that is not empty, and a target to name in errors. *)
Lemma connect_plan_result env options w target o w1 :
  connect_plan env options w = (Ok (target, o), w1) ->
  truthy (co_browserWSEndpoint o) = true
  /\ truthy target = true
  /\ co_protocolTimeout o = 15000%N.
Proof.
  unfold connect_plan. intros H.
  apply bind_Ok in H as ([t ws] & w0 & H1 & H2).
  destruct (truthy (ca_browserURL options)) eqn:Hb,
           (truthy (ca_wsEndpoint options)) eqn:Hw; cbn [negb andb] in H1.
  - injection H1 as <- <- <-. rewrite Hw in H2. injection H2 as <- <- <-.
    unfold or_else. rewrite Hb. cbn. auto.
  - injection H1 as <- <- <-. rewrite Hw in H2.
    apply bind_Ok in H2 as (resolved & w2 & Hr & H2).
    injection H2 as <- <- <-. unfold or_else. rewrite Hb. cbn.
    apply resolveWsFromBrowserURL_nonempty in Hr. rewrite Hr. auto.
  - injection H1 as <- <- <-. rewrite Hw in H2. injection H2 as <- <- <-.
    unfold or_else. rewrite Hb. cbn. auto.
  - apply bind_Ok in H1 as (found & w2 & Hd & H1).
    unfold discoverWebtopBrowser in Hd.
    destruct (discover_containers_result env
                [ "webtop1"; "webtop2"; "webtop3" ] w)
      as (found' & w2' & Hrun & Hshape).
    rewrite Hrun in Hd. injection Hd as <- <-.
    destruct found' as [d|]; [|discriminate].
    destruct (Hshape d eq_refl) as (_ & _ & _ & _ & Hne).
    injection H1 as <- <- <-.
    assert (truthy (Some (d_wsEndpoint d)) = true) as Ht
      by (cbn; now rewrite Hne).
    rewrite Ht in H2. injection H2 as <- <- <-. cbn.
    split; [now rewrite Hne|]. split; [|reflexivity].
    apply negb_true_iff, append_nonempty_r, append_nonempty_l. reflexivity.
Qed.

(** X5.  [ensureBrowserConnected] never opens a control channel without
    naming it: whatever the options and the answers of the outside, every
    call of [puppeteer.connect] it makes carries a [browserWSEndpoint]
    that is not empty. *)
Theorem ensureBrowserConnected_connects_aimed env options w :
  emitted aimed w (snd (ensureBrowserConnected env options w)).
Proof.
  revert w. change (preserves (emitted aimed) (ensureBrowserConnected env options)).
  assert (forall ev, is_lookup ev = true -> aimed ev) as Hlookup
    by (intros [] ?; try discriminate; exact I).
  unfold ensureBrowserConnected.
  apply quiet_bind; [intros w; apply quiet_refl|intros [b|]]; [apply quiet_ret|].
  apply (quiet_bind_post
           (fun r => truthy (co_browserWSEndpoint (snd r)) = true)).
  - now apply connect_plan_quiet.
  - intros w [target o] w1 H.
    now destruct (connect_plan_result _ _ _ _ _ _ H).
  - intros [target o] Ho. cbn [snd] in Ho.
    assert (forall b, preserves (emitted aimed) (preflight env b)) as Hpre
      by (intros b; apply preflight_quiet; intros; exact I).
    unfold connectWithTimeout. frame; try exact I.
Qed.

(** How [ensureBrowserConnected] can fail: in its first part, or at the
    connect; once the connect has succeeded, nothing is thrown. *)
Lemma ensureBrowserConnected_Throw env options w e w' :
  ensureBrowserConnected env options w = (Throw e, w') ->
  connect_plan env options w = (Throw e, w')
  \/ exists target o w1 cause,
       connect_plan env options w = (Ok (target, o), w1)
       /\ connectWithTimeout env o 8000 w1 = (Throw cause, w')
       /\ e = Error ("Failed to connect to Chrome DevTools at "
                     +:+ default "null" target +:+ ": " +:+ message cause).
Proof.
  unfold ensureBrowserConnected. intros H.
  apply bind_Throw in H as [H|(current & w0 & Hl & H)]; [discriminate|].
  injection Hl as <- <-.
  destruct (match browser_var w with
            | Some b => if env_connected env (clock w) b then Some b else None
            | None => None
            end); [discriminate|].
  apply bind_Throw in H as [H|([target o] & w1 & Hp & H)]; [now left|].
  right.
  apply try_catch_Throw in H as (cause & w2 & Hbody & Hthrow).
  injection Hthrow as <- <-.
  apply bind_Throw in Hbody as [Hc|(b & w3 & Hc & Hrest)].
  - exists target, o, w1, cause. now repeat split.
  - exfalso.
    apply bind_Throw in Hrest as [Hm|([] & w4 & Hm & Hrest)];
      [discriminate|].
    injection Hm as <-.
    destruct (preflight_absorbs env b (set_browser_var b w3))
      as (w5 & Hpre & _).
    unfold bind in Hrest. rewrite Hpre in Hrest. discriminate.
Qed.

Lemma connect_plan_steady env options w :
  steady w (snd (connect_plan env options w)).
Proof. apply connect_plan_quiet. intros; exact I. Qed.

Lemma ensureBrowserConnected_Throw_steady env options w e w' :
  ensureBrowserConnected env options w = (Throw e, w') -> steady w w'.
Proof.
  intros H. pose proof (connect_plan_steady env options w) as Hplan.
  apply ensureBrowserConnected_Throw in H
    as [H|(target & o & w1 & cause & Hp & Hc & _)].
  - now rewrite H in Hplan.
  - rewrite Hp in Hplan. cbn [snd] in Hplan.
    pose proof (connectWithTimeout_steady env o 8000 w1) as Hs.
    rewrite Hc in Hs. eapply quiet_trans; eassumption.
Qed.

(** X6.  [ensureBrowserConnected] fails in two ways only: before the
    connect, with the error of its first part, or at the connect, with
    the cause wrapped in a message that names the target.  Either way the
    module-level [browser] and everything else the process holds are as
    they were. *)
Theorem ensureBrowserConnected_failure env options w e w' :
  ensureBrowserConnected env options w = (Throw e, w') ->
  steady w w'
  /\ (connect_plan env options w = (Throw e, w')
      \/ exists target o w1 cause,
           connect_plan env options w = (Ok (Some target, o), w1)
           /\ is_empty target = false
           /\ connectWithTimeout env o 8000 w1 = (Throw cause, w')
           /\ e = Error ("Failed to connect to Chrome DevTools at "
                         +:+ target +:+ ": " +:+ message cause)).
Proof.
  intros H. split; [eapply ensureBrowserConnected_Throw_steady; eassumption|].
  apply ensureBrowserConnected_Throw in H
    as [H|(target & o & w1 & cause & Hp & Hc & ->)]; [now left|].
  right.
  destruct (connect_plan_result _ _ _ _ _ _ Hp) as (_ & Ht & _).
  destruct target as [target|]; [|discriminate].
  exists target, o, w1, cause.
  repeat split; try assumption. now apply negb_true_iff in Ht.
Qed.

Lemma ensureBrowserConnected_failure_witness :
  steady Scenario.start
    (tick (record (EvConnect {| co_protocolTimeout := 15000;
                                co_browserWSEndpoint := Some Scenario.advertised;
                                co_headers := None |})
             Scenario.start))
  /\ (connect_plan Scenario.unreachable Scenario.connect_to_advertised
        Scenario.start
      = (Throw (Error ("Failed to connect to Chrome DevTools at "
                       +:+ Scenario.advertised +:+ ": connect ECONNREFUSED")),
         tick (record (EvConnect {| co_protocolTimeout := 15000;
                                    co_browserWSEndpoint := Some Scenario.advertised;
                                    co_headers := None |})
                 Scenario.start))
      \/ exists target o w1 cause,
           connect_plan Scenario.unreachable Scenario.connect_to_advertised
             Scenario.start = (Ok (Some target, o), w1)
           /\ is_empty target = false
           /\ connectWithTimeout Scenario.unreachable o 8000 w1
              = (Throw cause,
                 tick (record (EvConnect {| co_protocolTimeout := 15000;
                                            co_browserWSEndpoint := Some Scenario.advertised;
                                            co_headers := None |})
                         Scenario.start))
           /\ Error ("Failed to connect to Chrome DevTools at "
                     +:+ Scenario.advertised +:+ ": connect ECONNREFUSED")
              = Error ("Failed to connect to Chrome DevTools at "
                       +:+ target +:+ ": " +:+ message cause)).
Proof.
  apply (ensureBrowserConnected_failure Scenario.unreachable
           Scenario.connect_to_advertised Scenario.start).
  reflexivity.
Defined.

(** X7.  With a WebSocket endpoint among its options,
    [ensureBrowserConnected] looks nothing up: it makes no discovery
    request and runs no [docker] command, and the only connect it makes is
    to that endpoint, with the headers it was given; a browser URL given
    as well is not contacted. *)
Theorem ensureBrowserConnected_explicit_endpoint env options w :
  truthy (ca_wsEndpoint options) = true ->
  emitted (straight_to {| co_protocolTimeout := 15000;
                          co_browserWSEndpoint := ca_wsEndpoint options;
                          co_headers := ca_wsHeaders options |})
          w (snd (ensureBrowserConnected env options w)).
Proof.
  intros Hws. revert w.
  match goal with
  | |- forall w, emitted ?P _ _ =>
      change (preserves (emitted P) (ensureBrowserConnected env options))
  end.
  unfold ensureBrowserConnected.
  apply quiet_bind; [intros w; apply quiet_refl|intros [b|]]; [apply quiet_ret|].
  assert (connect_plan env options
          = ret (or_else (ca_browserURL options) (ca_wsEndpoint options),
                 {| co_protocolTimeout := 15000;
                    co_browserWSEndpoint := ca_wsEndpoint options;
                    co_headers := ca_wsHeaders options |})) as ->.
  { unfold connect_plan. rewrite Hws, andb_false_r.
    unfold bind, ret. now rewrite Hws. }
  match goal with
  | |- preserves (emitted ?P) _ =>
      assert (forall b, preserves (emitted P) (preflight env b)) as Hpre
        by (intros b; apply preflight_quiet; intros; (split;
            [reflexivity|discriminate]))
  end.
  apply (quiet_bind_post
           (fun r => snd r = {| co_protocolTimeout := 15000;
                                co_browserWSEndpoint := ca_wsEndpoint options;
                                co_headers := ca_wsHeaders options |}));
    [apply quiet_ret|now intros w r w' [= <- _]|intros [target o] Ho].
  cbn [snd] in Ho. subst o. unfold connectWithTimeout.
  frame. all: try (split; [reflexivity|discriminate]).
  split; [reflexivity|]. now intros o [= <-].
Qed.

Lemma ensureBrowserConnected_explicit_endpoint_witness :
  emitted (straight_to {| co_protocolTimeout := 15000;
                          co_browserWSEndpoint := Some Scenario.advertised;
                          co_headers := None |})
          Scenario.start
          (snd (ensureBrowserConnected (Scenario.reachable (fun _ _ => false))
                  Scenario.connect_to_advertised Scenario.start)).
Proof.
  apply (ensureBrowserConnected_explicit_endpoint
           (Scenario.reachable (fun _ _ => false))
           Scenario.connect_to_advertised Scenario.start).
  reflexivity.
Defined.

End EnsureFacts.

(** ** browser.js: launching *)

Module LaunchFacts.
Import Text TextFacts NodeURLFacts Js BrowserJs Observations.
Import FrameFacts QuietFacts BrowserFacts ConnectFacts.
Import SwitchFacts.

Lemma path_join_nonempty a b rest :
  is_empty (path_join (a :: b :: rest)) = false.
Proof.
  unfold path_join. cbn [join].
  apply append_nonempty_r, append_nonempty_l. reflexivity.
Qed.

(** What [launch] records is what the options ask for. *)
Lemma launch_emits env options :
  preserves (emitted (launched_for options)) (launch env options).
Proof.
  unfold launch. cbv zeta.
  apply (quiet_bind_post
           (fun u => (la_isolated options = false -> truthy u = true)
                     /\ (truthy (la_userDataDir options) = true ->
                         u = la_userDataDir options))).
  - destruct (negb (la_isolated options)
              && negb (truthy (la_userDataDir options))) eqn:Hc; quiet.
    apply andb_true_iff in Hc as [Hi Hu].
    apply negb_true_iff in Hi, Hu. now split.
  - intros w u w' H.
    destruct (la_isolated options) eqn:Hi,
             (truthy (la_userDataDir options)) eqn:Hu; cbn [negb andb] in H.
    + injection H as <- _. split; [discriminate|reflexivity].
    + injection H as <- _. split; [discriminate|discriminate].
    + injection H as <- _. split; [now intros _|reflexivity].
    + apply bind_Ok in H as ([] & w1 & _ & H). injection H as <- _.
      split; [|discriminate]. intros _. cbn [truthy].
      now rewrite path_join_nonempty.
  - intros u [Hiso Hdir]. quiet; try exact I.
    cbn. split; [eexists; reflexivity|].
    split; [assumption|]. split; [assumption|].
    destruct (truthy (la_executablePath options)).
    + tauto.
    + split; [|discriminate]. now destruct (la_channel options) as [c|];
        [destruct (is_empty c || String.eqb c "stable")|].
Qed.

(** X8.  Whatever the options and the answers of the outside, [launch]
    looks nothing up and connects to nothing; it creates a profile
    directory only when the launch is not isolated and no directory was
    named; and the browser it starts gets the caller's arguments followed
    by the crash-bubble switch, a profile directory unless the launch is
    isolated, the caller's directory when one was named, and a channel
    exactly when no executable path was given.  And [launch] assigns
    nothing: the browser it starts is handed to the caller only. *)
Theorem launch_profile env options w :
  emitted (launched_for options) w (snd (launch env options w))
  /\ steady w (snd (launch env options w)).
Proof. split; [apply launch_emits|apply launch_steady]. Qed.

Lemma ensureBrowserLaunched_sessions env options w r w' :
  ensureBrowserLaunched env options w = (r, w') ->
  same_session w w'
  /\ match r with
     | Ok b => browser_var w' = Some b
     | Throw _ => browser_var w' = browser_var w
     end.
Proof.
  intros H.
  unfold ensureBrowserLaunched, bind at 1, live_browser in H.
  destruct (browser_var w) as [b0|] eqn:Hb;
    [destruct (env_connected env (clock w) b0)|].
  1: { injection H as <- <-. unfold same_session. tauto. }
  all: pose proof (launch_steady env options w) as Hs;
    unfold bind in H;
    destruct (launch env options w) as [[b|e] w1];
    cbn in H; injection H as <- <-;
    destruct Hs as (Hv & Hst & Hc & Hu & Hws); cbn [snd] in *;
    unfold same_session; cbn; rewrite ?Hb in *; tauto.
Qed.

Lemma ensureBrowserLaunched_emits env options :
  preserves (emitted (launched_for options)) (ensureBrowserLaunched env options).
Proof.
  pose proof (launch_emits env options).
  unfold ensureBrowserLaunched.
  apply preserves_bind; [intros w; apply frame_refl|intros [b|]]; frame.
Qed.

(** X9.  [ensureBrowserLaunched] does to the outside only what [launch]
    does for the same options.  It leaves the module-level [browser] as it
    was when it fails, holds the browser it returns in it when it
    succeeds, and touches neither the context objects nor the recorded
    connection details. *)
Theorem ensureBrowserLaunched_outcome env options w r w' :
  ensureBrowserLaunched env options w = (r, w') ->
  emitted (launched_for options) w w'
  /\ same_session w w'
  /\ match r with
     | Ok b => browser_var w' = Some b
     | Throw _ => browser_var w' = browser_var w
     end.
Proof.
  intros H. split; [|eapply ensureBrowserLaunched_sessions; eassumption].
  pose proof (ensureBrowserLaunched_emits env options w) as He.
  now rewrite H in He.
Qed.

Lemma ensureBrowserLaunched_outcome_witness :
  let w' := snd (ensureBrowserLaunched (Scenario.reachable (fun _ _ => false))
                   Scenario.default_launch Scenario.start) in
  emitted (launched_for Scenario.default_launch) Scenario.start w'
  /\ same_session Scenario.start w'
  /\ browser_var w' = Some 3.
Proof.
  apply (ensureBrowserLaunched_outcome
           (Scenario.reachable (fun _ _ => false)) Scenario.default_launch
           Scenario.start (Ok 3)).
  reflexivity.
Defined.

(** X10.  The channel [stable], like an empty channel, is no channel:
    [launch] with it does exactly what it does without one, with the same
    profile directory and the same browser channel. *)
Theorem launch_stable_is_default env options :
  la_channel options = Some "stable" \/ la_channel options = Some "" ->
  launch env options
  = launch env {| la_channel := None;
                  la_executablePath := la_executablePath options;
                  la_headless := la_headless options;
                  la_isolated := la_isolated options;
                  la_userDataDir := la_userDataDir options;
                  la_args := la_args options;
                  la_devtools := la_devtools options;
                  la_logFile := la_logFile options;
                  la_viewport := la_viewport options;
                  la_acceptInsecureCerts := la_acceptInsecureCerts options |}.
Proof.
  intros [H|H]; unfold launch; rewrite H; reflexivity.
Qed.

Lemma launch_stable_is_default_witness :
  launch Scenario.unreachable
    {| la_channel := Some "stable"; la_executablePath := None;
       la_headless := true; la_isolated := false; la_userDataDir := None;
       la_args := None; la_devtools := false; la_logFile := None;
       la_viewport := None; la_acceptInsecureCerts := false |}
  = launch Scenario.unreachable Scenario.default_launch.
Proof.
  apply (launch_stable_is_default Scenario.unreachable
           {| la_channel := Some "stable"; la_executablePath := None;
              la_headless := true; la_isolated := false; la_userDataDir := None;
              la_args := None; la_devtools := false; la_logFile := None;
              la_viewport := None; la_acceptInsecureCerts := false |}).
  left. reflexivity.
Defined.

End LaunchFacts.

(** ** main.js: the session *)

Module SessionFacts.
Import Text Js BrowserJs MainJs BrowserManagement Observations.
Import FrameFacts QuietFacts BrowserFacts ConnectFacts LaunchFacts.
Import SwitchFacts.

#[global] Instance same_session_frame : Frame same_session (fun _ => True).
Proof.
  split; unfold same_session; simpl; try tauto.
  intros w1 w2 w3 (-> & -> & -> & ->) (-> & -> & -> & ->). tauto.
Qed.

Lemma race_timer_Ok {A} env label msg (m : M A) w a w' :
  race_timer env label msg m w = (Ok a, w') -> m w = (Ok a, w').
Proof.
  unfold race_timer. destruct (m w) as [r w1].
  destruct (env_timer_first env (clock w1)); [discriminate|trivial].
Qed.

Lemma connect_attempt_same_session env args :
  preserves same_session (connect_attempt env args).
Proof.
  unfold connect_attempt, withTimeout. frame.
  apply ensureBrowserConnected_preserves. intros; exact I.
Qed.

Lemma ensureBrowserLaunched_same_session env options :
  preserves same_session (ensureBrowserLaunched env options).
Proof.
  intros w. destruct (ensureBrowserLaunched env options w) as [r w'] eqn:H.
  now destruct (LaunchFacts.ensureBrowserLaunched_sessions _ _ _ _ _ H).
Qed.

Lemma McpContext_from_Ok env b w c w' :
  McpContext.from env b w = (Ok c, w') ->
  McpContext.browser_of w' c = Some b
  /\ browser_var w' = browser_var w
  /\ context_var w' = context_var w.
Proof.
  unfold McpContext.from. intros H.
  apply bind_Ok in H as (fields & w1 & Hcall & H).
  unfold call in Hcall. injection Hcall as _ <-.
  injection H as <- <-. unfold McpContext.browser_of. cbn.
  now rewrite !lookup_insert_eq.
Qed.

Lemma McpContext_from_Throw env b w e w' :
  McpContext.from env b w = (Throw e, w') -> same_session w w'.
Proof.
  unfold McpContext.from. intros H.
  apply bind_Throw in H as [H|(fields & w1 & _ & H)]; [|discriminate].
  unfold call in H. injection H as _ <-. unfold same_session. cbn. tauto.
Qed.

(** The first step of [getContext]: the browser it goes on with is the one
    the module-level [browser] holds. *)
(** When the timer of the connect attempt is not first, the attempt is
    the call of [ensureBrowserConnected] itself. *)
Lemma connect_attempt_settled env args w :
  settled_in_time env args w ->
  connect_attempt env args w
  = ensureBrowserConnected env
      {| ca_browserURL := browserUrl args;
         ca_wsEndpoint := wsEndpoint args;
         ca_wsHeaders := wsHeaders args;
         ca_devtools := default false (experimentalDevtools args) |} w.
Proof.
  unfold settled_in_time, connect_attempt, withTimeout, race_timer.
  destruct (ensureBrowserConnected _ _ w) as [r w1]. cbn [snd].
  now intros ->.
Qed.

Lemma getContext_browser env args w h b w1 :
  settled_in_time env args w ->
  try_catch (connect_attempt env args) h w = (Ok b, w1) ->
  (forall e w0 w2, h e w0 = (Ok b, w2) ->
     browser_var w2 = Some b) ->
  browser_var w1 = Some b.
Proof.
  intros Hin H Hh. apply try_catch_Ok in H as [H|(e & w0 & _ & H)].
  - rewrite (connect_attempt_settled _ _ _ Hin) in H.
    eapply SwitchFacts.ensureBrowserConnected_sets_browser; eassumption.
  - eapply Hh; eassumption.
Qed.

(** X11.  In a call of [getContext] that starts with no earlier connect
    attempt pending, and whose own connect attempt settles before its
    timer of twelve seconds fires: when a context is returned, that
    context is the one [context] of main.js holds, and it is bound to the
    browser that the module-level [browser] of browser.js holds; when the
    call fails, no context object was written and [context] was not
    assigned.  A call in which the timer is first leaves the attempt
    pending beside the launch that follows, and is not covered. *)
Theorem getContext_outcome env args w r w' :
  settled_in_time env args w ->
  getContext env args w = (r, w') ->
  match r with
  | Ok c =>
      context_var w' = Some c
      /\ exists b, McpContext.browser_of w' c = Some b
                   /\ browser_var w' = Some b
  | Throw _ => same_session w w'
  end.
Proof.
  unfold getContext. intros Hin H.
  match type of H with
  | bind (try_catch _ ?h) _ _ = _ => set (fallback := h) in *
  end.
  assert (preserves same_session (try_catch (connect_attempt env args) fallback))
    as Hfirst.
  { apply preserves_try_catch; [apply connect_attempt_same_session|].
    intros e. unfold fallback.
    destruct (_ && _); [apply ensureBrowserLaunched_same_session
                       |apply preserves_throw]. }
  specialize (Hfirst w).
  destruct r as [c|e].
  - apply bind_Ok in H as (b & w1 & Hb & H).
    assert (browser_var w1 = Some b) as Hvar.
    { eapply getContext_browser; [exact Hin|eassumption|].
      intros e w0 w2. unfold fallback.
      destruct (_ && _); [|discriminate]. intros Hl.
      now destruct (ensureBrowserLaunched_sessions _ _ _ _ _ Hl). }
    apply bind_Ok in H as (current & w2 & Hg & H).
    unfold gets in Hg. injection Hg as <- <-.
    destruct (context_var w1) as [c0|] eqn:Hc;
      [destruct (decide (McpContext.browser_of w1 c0 = Some b)) as [Hof|Hof]|].
    + injection H as <- <-. split; [assumption|]. exists b. now split.
    + apply bind_Ok in H as (l & w3 & Hfrom & H).
      injection H as <- <-.
      destruct (McpContext_from_Ok _ _ _ _ _ Hfrom) as (? & ? & ?).
      split; [reflexivity|]. exists b. cbn. split; [assumption|congruence].
    + apply bind_Ok in H as (l & w3 & Hfrom & H).
      injection H as <- <-.
      destruct (McpContext_from_Ok _ _ _ _ _ Hfrom) as (? & ? & ?).
      split; [reflexivity|]. exists b. cbn. split; [assumption|congruence].
  - apply bind_Throw in H as [H|(b & w1 & Hb & H)].
    + now rewrite H in Hfirst.
    + rewrite Hb in Hfirst. cbn [snd] in Hfirst.
      apply bind_Throw in H as [H|(current & w2 & Hg & H)]; [discriminate|].
      unfold gets in Hg. injection Hg as <- <-.
      destruct (match context_var w1 with
                | Some c =>
                    if decide (McpContext.browser_of w1 c = Some b)
                    then Some c else None
                | None => None
                end); [discriminate|].
      apply bind_Throw in H as [H|(l & w3 & _ & H)]; [|discriminate].
      apply McpContext_from_Throw in H.
      eapply frame_trans; eassumption.
Qed.

Lemma getContext_outcome_witness :
  let w' := snd (getContext (Scenario.reachable (fun _ _ => false))
                   Scenario.explicit_args Scenario.start) in
  context_var w' = Some 0
  /\ exists b, McpContext.browser_of w' 0 = Some b /\ browser_var w' = Some b.
Proof.
  apply (getContext_outcome (Scenario.reachable (fun _ _ => false))
           Scenario.explicit_args Scenario.start (Ok 0)).
  - vm_compute. reflexivity.
  - vm_compute. reflexivity.
Defined.

Lemma emitted_weaken (P Q : Event -> Prop) w w' :
  (forall ev, P ev -> Q ev) -> emitted P w w' -> emitted Q w w'.
Proof.
  intros HPQ (evs & Ht & Hall). exists evs. split; [assumption|].
  eapply Forall_impl; eassumption.
Qed.

(** X26.  Whatever happens during [getContext], a browser is launched
    only without a connection hint, and then as the command line asks:
    with its [--chromeArg] arguments first, then the proxy switch when a
    proxy server was named, then the crash-bubble switch; with a profile
    directory unless [--isolated]; and on a channel exactly when no
    executable path was given. *)
Theorem getContext_launches_from_args env args w :
  emitted (launched_from_args args) w (snd (getContext env args w)).
Proof.
  revert w.
  change (preserves (emitted (launched_from_args args)) (getContext env args)).
  unfold getContext. cbv zeta.
  assert (forall ev, no_launch ev -> launched_from_args args ev) as Hquiet.
  { intros ev Hev lo ->. discriminate Hev. }
  apply preserves_bind.
  - apply preserves_try_catch.
    + intros w. eapply emitted_weaken; [exact Hquiet|].
      apply MainFacts.connect_attempt_emitted.
    + intros e.
      destruct (truthy (browserUrl args)) eqn:Hb,
               (truthy (wsEndpoint args)) eqn:Hw; cbn [negb andb];
        try apply preserves_throw.
      intros w. eapply emitted_weaken; [|apply ensureBrowserLaunched_emits].
      intros ev Hev lo ->. cbn in Hev.
      destruct Hev as ((rest & Hargs) & Hdir & _ & Hchannel).
      split; [exact Hb|]. split; [exact Hw|].
      split; [|split; assumption].
      exists rest. rewrite Hargs. now rewrite <- app_assoc.
  - intros browser. frame.
    + apply MainFacts.McpContext_from_emitted. intros lo H. discriminate H.
    + apply MainFacts.modify_emitted. reflexivity.
Qed.

End SessionFacts.

(** ** browser-management.js: outcomes of a switch *)

Module SwitchOutcomes.
Import Text Js BrowserJs BrowserManagement Observations.
Import FrameFacts QuietFacts BrowserFacts ConnectFacts SessionFacts.
Import SwitchFacts.

Lemma steady_same_session w w' : steady w w' -> same_session w w'.
Proof. unfold steady, same_session. tauto. Qed.

Lemma switch_connect_same_session env params :
  preserves same_session (switch_connect env params).
Proof. apply SwitchFacts.switch_connect_preserves. intros; exact I. Qed.

(** X12.  A switch that fails has written no context object and recorded
    no connection details: the object the caller holds, [context] of
    main.js and the two variables the information tools read are as they
    were, wherever the failure came from. *)
Theorem switchBrowser_failure_keeps_session env params c w e w' :
  switchBrowser_handler env params c w = (Throw e, w') ->
  same_session w w'.
Proof.
  unfold switchBrowser_handler. intros H.
  destruct (_ && _).
  { injection H as _ <-. apply frame_refl. }
  pose proof (steady_same_session _ _ (disconnect_current_steady env c w)) as H1.
  apply bind_Throw in H as [H|([] & w1 & Hd & H)]; [now rewrite H in H1|].
  rewrite Hd in H1. cbn [snd] in H1.
  pose proof (switch_connect_same_session env params w1) as H2.
  apply bind_Throw in H as [H|([[nb url] ws] & w2 & Hs & H)].
  { rewrite H in H2. eapply frame_trans; eassumption. }
  rewrite Hs in H2. cbn [snd] in H2.
  apply bind_Throw in H as [H|(l & w3 & _ & H)]; [|discriminate].
  apply McpContext_from_Throw in H.
  eapply frame_trans; [eassumption|]. eapply frame_trans; eassumption.
Qed.

Lemma switchBrowser_failure_keeps_session_witness :
  same_session Scenario.bound
    (tick (record (EvDisconnect 1)
             (record (EvLog "Disconnecting from current browser")
                Scenario.bound))).
Proof.
  apply (switchBrowser_failure_keeps_session
           (Scenario.reachable (fun t _ => Nat.eqb t 0))
           Scenario.switch_to_advertised 0 Scenario.bound
           (Error "Connection closed")).
  reflexivity.
Defined.

(** X13.  A WebSocket endpoint takes precedence: when one is given, the
    handler does what it does for that endpoint alone, and a container
    name, a port or a browser URL given with it are ignored. *)
Theorem switchBrowser_endpoint_first env params c :
  truthy (p_wsEndpoint params) = true ->
  switchBrowser_handler env params c
  = switchBrowser_handler env
      {| p_container := None; p_port := None; p_browserUrl := None;
         p_wsEndpoint := p_wsEndpoint params |} c.
Proof.
  intros H. unfold switchBrowser_handler, switch_connect, or_else.
  cbn [p_container p_port p_browserUrl p_wsEndpoint].
  rewrite H, !andb_false_r. reflexivity.
Qed.

Lemma switchBrowser_endpoint_first_witness :
  switchBrowser_handler Scenario.unreachable
    {| p_container := Some "webtop1"; p_port := Some 9222%Z;
       p_browserUrl := Some "http://10.0.0.5:9999";
       p_wsEndpoint := Some Scenario.advertised |} 0
  = switchBrowser_handler Scenario.unreachable Scenario.switch_to_advertised 0.
Proof.
  apply (switchBrowser_endpoint_first Scenario.unreachable
           {| p_container := Some "webtop1"; p_port := Some 9222%Z;
              p_browserUrl := Some "http://10.0.0.5:9999";
              p_wsEndpoint := Some Scenario.advertised |} 0).
  reflexivity.
Defined.

Section Prober.
Context (env : Env).
Context (ensureBrowserConnected : ConnectArgs -> M Browser).
Context (logger : string -> M unit).

Lemma attempt_Ok candidate w r w' :
  attempt env ensureBrowserConnected logger candidate w = (Ok r, w') ->
  resolvedHttpUrl r = candidate /\ is_empty (r_wsEndpoint r) = false.
Proof.
  unfold attempt. intros H.
  apply bind_Ok in H as (data & w1 & _ & H).
  destruct (webSocketDebuggerUrl data) as [ws|]; [|discriminate].
  destruct (is_empty ws) eqn:Hne; [discriminate|].
  apply bind_Ok in H as ([] & w2 & _ & H).
  apply bind_Ok in H as (b & w3 & _ & H).
  injection H as <- <-. now split.
Qed.

Lemma tryCandidates_loop_Ok cs errors w r w' :
  tryCandidates_loop env ensureBrowserConnected logger cs errors w = (Ok r, w') ->
  In (resolvedHttpUrl r) cs /\ is_empty (r_wsEndpoint r) = false.
Proof.
  revert errors w. induction cs as [|c cs IH]; intros errors w H;
    [discriminate|].
  cbn [tryCandidates_loop] in H.
  apply try_catch_Ok in H as [H|(e & w1 & _ & H)].
  - apply attempt_Ok in H as [<- ?]. split; [now left|assumption].
  - apply bind_Ok in H as ([] & w2 & _ & H).
    destruct (IH _ _ H). split; [now right|assumption].
Qed.

End Prober.

Lemma switch_connect_Ok env params w nb url ws w' :
  switch_connect env params w = (Ok (nb, url, ws), w') ->
  truthy ws = true
  /\ (truthy (p_wsEndpoint params) = true ->
      ws = p_wsEndpoint params /\ url = None)
  /\ (truthy (p_wsEndpoint params) = false ->
      exists host p u,
        url = Some u /\ In u (pushCandidatesForHostPort host p [])).
Proof.
  unfold switch_connect. intros H.
  destruct (truthy (p_wsEndpoint params)) eqn:Hws.
  - apply bind_Ok in H as ([] & w1 & _ & H).
    apply bind_Ok in H as (b & w2 & _ & H).
    injection H as _ <- <- _. repeat split; [assumption|discriminate].
  - apply bind_Ok in H as (cs & w1 & Hcs & H).
    apply bind_Ok in H as (r & w2 & Hr & H).
    injection H as _ <- <- _.
    apply tryCandidates_loop_Ok in Hr as [Hin Hne].
    split; [cbn; now rewrite Hne|]. split; [discriminate|]. intros _.
    destruct (truthy (p_container params)).
    + apply bind_Ok in Hcs as ([] & w3 & _ & Hcs).
      apply bind_Ok in Hcs as (ip & w4 & _ & Hcs).
      destruct (negb (truthy ip)); [discriminate|].
      apply bind_Ok in Hcs as ([] & w5 & _ & Hcs).
      injection Hcs as <- _. eauto.
    + destruct (truthy (p_browserUrl params)).
      * destruct (NodeURL.parse _) as [u|]; [|discriminate].
        apply bind_Ok in Hcs as (hostIp & w3 & _ & Hcs).
        apply bind_Ok in Hcs as ([] & w4 & _ & Hcs).
        injection Hcs as <- _. eauto.
      * injection Hcs as <- _. destruct Hin.
Qed.

(** X14.  After a successful switch the handler has recorded a WebSocket
    address that is not empty, and the last thing it did was to report
    that address and to ask for the page list.  When the caller gave a
    WebSocket endpoint, the recorded address is that one and no browser
    URL is recorded; otherwise the recorded browser URL is one of the
    candidates built for a host and a port. *)
Theorem switchBrowser_success_details env params c w w' :
  switchBrowser_handler env params c w = (Ok tt, w') ->
  exists ws,
    currentWsEndpoint w' = Some ws
    /\ is_empty ws = false
    /\ (truthy (p_wsEndpoint params) = true ->
        p_wsEndpoint params = Some ws /\ currentBrowserUrl w' = None)
    /\ (truthy (p_wsEndpoint params) = false ->
        exists host p u,
          currentBrowserUrl w' = Some u
          /\ In u (pushCandidatesForHostPort host p []))
    /\ exists before,
         trace w'
         = (before ++ [ EvResponseLine ("Successfully switched to browser at "
                                        +:+ ws);
                        EvIncludePages true ])%list.
Proof.
  unfold switchBrowser_handler. intros H.
  destruct (_ && _); [discriminate|].
  apply bind_Ok in H as ([] & w1 & _ & H).
  apply bind_Ok in H as ([[nb url] wsr] & w2 & Hs & H).
  apply bind_Ok in H as (l & w3 & _ & H).
  apply switch_connect_Ok in Hs as (Ht & Hgiven & Hfound).
  destruct wsr as [ws|]; [|discriminate].
  assert (is_empty ws = false) as Hne by (now apply negb_true_iff in Ht).
  unfold bind, Object_assign, modify, emit in H. cbn in H.
  injection H as <-. cbn.
  exists ws. split; [reflexivity|]. split; [assumption|].
  split; [|split].
  - intros Hw. destruct (Hgiven Hw) as [-> ->]. now split.
  - exact Hfound.
  - eexists.
    replace (or_else (p_wsEndpoint params)
               (or_else (Some ws)
                  (or_else url
                     (or_else (p_browserUrl params) (p_container params)))))
      with (Some ws).
    + cbn [default]. rewrite <- app_assoc. reflexivity.
    + unfold or_else at 1 2. rewrite Ht.
      destruct (truthy (p_wsEndpoint params)) eqn:Hw; [|reflexivity].
      now destruct (Hgiven eq_refl) as [-> _].
Qed.

Lemma switchBrowser_success_details_witness :
  let w' := snd (switchBrowser_handler (Scenario.reachable (fun _ _ => false))
                   Scenario.switch_to_advertised 0 Scenario.bound) in
  exists ws,
    currentWsEndpoint w' = Some ws
    /\ is_empty ws = false
    /\ (true = true ->
        Some Scenario.advertised = Some ws /\ currentBrowserUrl w' = None)
    /\ (true = false ->
        exists host p u,
          currentBrowserUrl w' = Some u
          /\ In u (pushCandidatesForHostPort host p []))
    /\ exists before,
         trace w'
         = (before ++ [ EvResponseLine ("Successfully switched to browser at "
                                        +:+ ws);
                        EvIncludePages true ])%list.
Proof.
  apply (switchBrowser_success_details (Scenario.reachable (fun _ _ => false))
           Scenario.switch_to_advertised 0 Scenario.bound).
  vm_compute. reflexivity.
Defined.

End SwitchOutcomes.

(** ** browser-management.js: hosts *)

Module HostFacts.
Import Text TextFacts NodeURL NodeURLFacts Js BrowserManagement.

Lemma show_N_octet_length n :
  (n <= 255)%N -> (String.length (show_N n) <=? 3)%nat = true.
Proof.
  intros Hn.
  assert (forallb (fun k => (String.length (show_N (N.of_nat k)) <=? 3)%nat)
                  (seq 0 256) = true) as Hall by (vm_compute; reflexivity).
  rewrite forallb_forall in Hall.
  rewrite <- (N2Nat.id n). apply Hall, in_seq. lia.
Qed.

Lemma canonical_octet_short p :
  canonical_octet p = true ->
  negb (is_empty p) && all_chars is_digit p && (String.length p <=? 3)%nat
  = true.
Proof.
  unfold canonical_octet.
  destruct (read_N p) as [n|]; [|discriminate].
  rewrite andb_true_iff, N.leb_le, String.eqb_eq. intros [Hn <-].
  now rewrite show_N_nonempty, show_N_digits, show_N_octet_length.
Qed.

Lemma split_on_first sep c r :
  exists x xs,
    split_on sep (String c r) = x :: xs
    /\ (x = EmptyString \/ exists y, x = String c y).
Proof.
  cbn [split_on]. destruct (Ascii.eqb c sep).
  - eexists _, _. split; [reflexivity|now left].
  - destruct (split_on sep r) as [|x xs];
      (eexists _, _; split; [reflexivity|right; eexists; reflexivity]).
Qed.

Lemma isIp_first_digit h :
  isIp h = true -> exists c r, h = String c r /\ is_digit c = true.
Proof.
  unfold isIp. destruct h as [|c r]; [discriminate|].
  destruct (split_on_first "." c r) as (x & xs & -> & Hx).
  rewrite andb_true_iff. cbn [forallb]. rewrite !andb_true_iff.
  intros (_ & ((Hne & Hd) & _) & _).
  destruct Hx as [->|[y ->]]; [discriminate|].
  cbn [all_chars] in Hd. apply andb_true_iff in Hd as [Hc _]. eauto.
Qed.

Lemma isIp_ends_in_number h : isIp h = true -> ends_in_number h = true.
Proof.
  unfold isIp, ends_in_number, last_label.
  destruct (split_on "." h) as [|a [|b [|c [|d [|]]]]]; try discriminate.
  cbn [List.length Nat.eqb forallb rev app andb].
  rewrite !andb_true_iff. intros (_ & _ & _ & ((Hne & Hd) & _) & _).
  destruct d as [|x d]; [discriminate|].
  now rewrite Hd.
Qed.

Lemma isIp_canonical h :
  parse_host h = Some h -> isIp h = true -> canonical_ipv4 h = true.
Proof.
  intros Hh Hip.
  pose proof (parse_host_lower _ _ Hh) as Hl.
  destruct (isIp_first_digit _ Hip) as (c & r & Hc & Hd).
  pose proof (isIp_ends_in_number _ Hip) as Hn.
  unfold parse_host in Hh. rewrite <- Hl in Hh.
  assert (starts_with "[" h = false) as Hb.
  { subst h. unfold starts_with. cbn [String.prefix].
    destruct (ascii_dec "[" c) as [<-|]; [discriminate|reflexivity]. }
  rewrite Hb, Hn in Hh.
  destruct (is_empty h || negb (all_chars domain_char h)); [discriminate|].
  now destruct (canonical_ipv4 h).
Qed.

Lemma canonical_isIp h : canonical_ipv4 h = true -> isIp h = true.
Proof.
  unfold canonical_ipv4, isIp. rewrite !andb_true_iff.
  intros [Hlen Hall]. split; [assumption|].
  rewrite forallb_forall in *. intros p Hp.
  now apply canonical_octet_short, Hall.
Qed.

Lemma isIp_on_parsed s u :
  parse s = Some u -> isIp (hostname u) = canonical_ipv4 (host u).
Proof.
  intros H. destruct (parse_parsed _ _ H) as [_ Hh _]. unfold hostname.
  apply Bool.eq_iff_eq_true. split.
  - now apply isIp_canonical.
  - apply canonical_isIp.
Qed.

(** The pattern alone accepts texts that are no IPv4 address.  Such a text
    is the opaque host of an address with another scheme, but never the
    host of an address with a special scheme. *)
Lemma isIp_beyond_ipv4 :
  isIp "999.999.999.999" = true
  /\ canonical_ipv4 "999.999.999.999" = false
  /\ parse "http://999.999.999.999" = None.
Proof. vm_compute. repeat split. Qed.

(** X15.  On the hostname of an address with a special scheme ([http],
    [https], [ws], [wss], [ftp]) inside the modelled fragment of the URL
    class, the pattern test [isIp] agrees with the URL parser: it accepts
    exactly the hosts that are IPv4 addresses, and never a bracketed IPv6
    address.  Addresses with other schemes, whose host the URL class
    keeps as written, are not covered. *)
Theorem isIp_parsed_hostname s u :
  parse s = Some u ->
  is_special (scheme u) = true
  /\ isIp (hostname u) = canonical_ipv4 (host u)
  /\ (starts_with "[" (hostname u) = true -> isIp (hostname u) = false).
Proof.
  intros H. split; [now destruct (parse_parsed _ _ H)|].
  split; [now apply isIp_on_parsed with s|].
  intros Hb. destruct (isIp (hostname u)) eqn:Hip; [|reflexivity].
  destruct (isIp_first_digit _ Hip) as (c & r & Hc & Hd).
  rewrite Hc in Hb. unfold starts_with in Hb. cbn [String.prefix] in Hb.
  destruct (ascii_dec "[" c) as [<-|]; discriminate.
Qed.

Lemma isIp_parsed_hostname_witness :
  is_special "http" = true
  /\ isIp "172.17.0.2" = canonical_ipv4 "172.17.0.2"
  /\ (starts_with "[" "172.17.0.2" = true -> isIp "172.17.0.2" = false).
Proof.
  apply (isIp_parsed_hostname "http://172.17.0.2:9999"
           (mkURL "http" "172.17.0.2" (Some 9999%N) "/" None None)).
  vm_compute. reflexivity.
Defined.

End HostFacts.

(** ** browser-management.js: the request for a candidate *)

Module CandidateRequests.
Import Text TextFacts NodeURL NodeURLFacts Js BrowserJs BrowserManagement.
Import UrlText UrlTextFacts UrlParseFacts UrlRoundTrip.

Lemma show_Z_nonneg p : (0 <= p)%Z -> show_Z p = show_N (Z.to_N p).
Proof. destruct p; [reflexivity|reflexivity|lia]. Qed.

Lemma show_Z_neg p :
  (p < 0)%Z -> exists digits, show_Z p = String "-" digits
                              /\ all_chars is_digit digits = true.
Proof.
  destruct p as [|q|q]; try lia. intros _.
  exists (show_N (N.pos q)). split; [reflexivity|apply show_N_digits].
Qed.

Lemma candidate_url_assemble h p :
  candidate_url h p = assemble "http" h (Some (show_Z p)) "" None None.
Proof.
  unfold candidate_url, assemble.
  rewrite !append_nil_r. reflexivity.
Qed.

Lemma parse_candidate_url h p :
  parse_host h = Some h ->
  parse (candidate_url h p)
  = if decide (0 <= p <= 65535)%Z
    then Some {| scheme := "http"; host := h;
                 port := if decide (p = 80%Z) then None else Some (Z.to_N p);
                 path := "/"; query := None; fragment := None |}
    else None.
Proof.
  intros Hh. rewrite candidate_url_assemble.
  assert (from_option (all_chars authority_char) true (Some (show_Z p)) = true)
    as Hd.
  { cbn [from_option]. destruct (Z.lt_ge_cases p 0) as [Hneg|Hpos].
    - destruct (show_Z_neg p Hneg) as (d & -> & Hdig). cbn [all_chars].
      rewrite (all_chars_impl _ _ _ digit_authority_char Hdig). reflexivity.
    - rewrite show_Z_nonneg by assumption.
      apply (all_chars_impl _ _ _ digit_authority_char), show_N_digits. }
  rewrite parse_assemble; try assumption; try reflexivity; try discriminate.
  change (default "" (Some (show_Z p))) with (show_Z p).
  change (if is_empty "" then "/" else "") with "/".
  destruct (decide (0 <= p <= 65535)%Z) as [Hr|Hr].
  - rewrite show_Z_nonneg by lia.
    rewrite parse_port_show by lia. cbn.
    destruct (decide (p = 80%Z)) as [->|Hne].
    + reflexivity.
    + destruct (decide _) as [E|E]; [|reflexivity].
      exfalso. apply Hne. injection E as E. lia.
  - destruct (Z.lt_ge_cases p 0) as [Hneg|Hpos].
    + destruct (show_Z_neg p Hneg) as (d & -> & _). reflexivity.
    + rewrite show_Z_nonneg by assumption. unfold parse_port.
      rewrite show_N_nonempty, read_show_N.
      destruct (N.ltb_spec 65535 (Z.to_N p)); [reflexivity|lia].
Qed.

(** The request for a candidate with a valid port. *)
Lemma fetchJsonVersion_request env h p ms w :
  parse_host h = Some h -> (0 <= p <= 65535)%Z ->
  fetchJsonVersion env (candidate_url h p) ms w
  = bind (call (EvFetch (candidate_url h p +:+ "/json/version") ms)
               (fun t => env_fetch env t
                           (candidate_url h p +:+ "/json/version")))
         (fun res =>
            if negb (ok res)
            then throw (Error ("HTTP " +:+ show_N (status res)))
            else lift (json res)) w.
Proof.
  intros Hh Hr. unfold fetchJsonVersion.
  rewrite parse_candidate_url by assumption.
  destruct (decide (0 <= p <= 65535)%Z); [|contradiction].
  assert (protocol {| scheme := "http"; host := h;
                      port := if decide (p = 80%Z) then None
                              else Some (Z.to_N p);
                      path := "/"; query := None; fragment := None |}
          +:+ "//" +:+ h +:+ ":"
          +:+ (if is_empty (port_attr
                              {| scheme := "http"; host := h;
                                 port := if decide (p = 80%Z) then None
                                         else Some (Z.to_N p);
                                 path := "/"; query := None;
                                 fragment := None |})
               then "80"
               else port_attr
                      {| scheme := "http"; host := h;
                         port := if decide (p = 80%Z) then None
                                 else Some (Z.to_N p);
                         path := "/"; query := None; fragment := None |})
          = candidate_url h p) as Hbase.
  { unfold candidate_url, protocol, port_attr. cbn [scheme port].
    rewrite show_Z_nonneg by lia.
    destruct (decide (p = 80%Z)) as [->|Hne]; [reflexivity|].
    now rewrite show_N_nonempty. }
  cbn [hostname host].
  change (String.eqb (protocol _) "https:") with false. cbn iota.
  rewrite Hbase. reflexivity.
Qed.

(** X16.  For a candidate made of a host in its serialised form and a
    port, [fetchJsonVersion] requests exactly the candidate followed by
    [/json/version], the default port 80 included, when the port is
    between 0 and 65535; for any other port the candidate is not an
    address, and it fails with no request made. *)
Theorem fetchJsonVersion_candidate env h p ms w :
  parse_host h = Some h ->
  fetchJsonVersion env (candidate_url h p) ms w
  = if decide (0 <= p <= 65535)%Z
    then bind (call (EvFetch (candidate_url h p +:+ "/json/version") ms)
                    (fun t => env_fetch env t
                                (candidate_url h p +:+ "/json/version")))
              (fun res =>
                 if negb (ok res)
                 then throw (Error ("HTTP " +:+ show_N (status res)))
                 else lift (json res)) w
    else (Throw (Error "Invalid URL"), w).
Proof.
  intros Hh. destruct (decide (0 <= p <= 65535)%Z) as [Hr|Hr].
  - now apply fetchJsonVersion_request.
  - unfold fetchJsonVersion. rewrite parse_candidate_url by assumption.
    destruct (decide (0 <= p <= 65535)%Z); [contradiction|reflexivity].
Qed.

Lemma fetchJsonVersion_candidate_witness :
  fetchJsonVersion (Scenario.reachable (fun _ _ => false))
    (candidate_url "10.0.0.5" 9999) 2000 Scenario.start
  = (Ok {| webSocketDebuggerUrl := Some Scenario.advertised;
           webSocketDebuggerUrlLegacy := None |},
     tick (record (EvFetch "http://10.0.0.5:9999/json/version" 2000)
             Scenario.start)).
Proof.
  rewrite (fetchJsonVersion_candidate (Scenario.reachable (fun _ _ => false))
             "10.0.0.5" 9999 2000 Scenario.start).
  - reflexivity.
  - reflexivity.
Defined.

End CandidateRequests.

(** ** browser.js: the target filter *)

Module TargetFacts.
Import Text Js BrowserJs.

Lemma starts_with_other a p b q s :
  starts_with (String a p) s = true -> a <> b ->
  starts_with (String b q) s = false.
Proof.
  unfold starts_with. destruct s as [|c r]; [discriminate|].
  cbn [String.prefix].
  destruct (ascii_dec a c) as [<-|]; [|discriminate]. intros _ Hab.
  destruct (ascii_dec b a) as [->|]; [contradiction|reflexivity].
Qed.

(** X17.  The target filter by scheme: of the browser's own [chrome://]
    pages only the new-tab page is kept; a [devtools://] page is kept
    exactly when DevTools targets were asked for; a page kept without
    DevTools targets is kept with them; and a page whose address starts
    with neither [c] nor [d] is always kept. *)
Theorem makeTargetFilter_schemes devtools url :
  (starts_with "chrome://" url = true ->
   makeTargetFilter devtools url = String.eqb url "chrome://newtab/")
  /\ (starts_with "devtools://" url = true ->
      makeTargetFilter devtools url = devtools)
  /\ (makeTargetFilter false url = true -> makeTargetFilter true url = true)
  /\ (starts_with "c" url = false -> starts_with "d" url = false ->
      makeTargetFilter devtools url = true).
Proof.
  unfold makeTargetFilter. repeat split.
  - intros H. destruct (String.eqb url "chrome://newtab/"); [reflexivity|].
    cbn [app existsb]. now rewrite H.
  - intros H.
    assert (forall q, starts_with (String "c" q) url = false) as Hc
      by (intros q; eapply starts_with_other; [exact H|discriminate]).
    destruct (String.eqb_spec url "chrome://newtab/") as [->|_];
      [discriminate (Hc "hrome://newtab/")|].
    destruct devtools; cbn [app existsb];
      rewrite ?H, !(Hc _); reflexivity.
  - destruct (String.eqb url "chrome://newtab/"); [reflexivity|].
    cbn [app existsb]. rewrite !negb_true_iff, !orb_false_iff. tauto.
  - intros Hc Hd.
    assert (forall a p, starts_with (String a p) url = true ->
                        starts_with (String a EmptyString) url = true) as Hfirst.
    { unfold starts_with. intros a p. destruct url as [|c r]; [discriminate|].
      cbn [String.prefix]. destruct (ascii_dec a c); [|discriminate].
      now destruct r. }
    assert (forall p, starts_with (String "c" p) url = false) as Hc'.
    { intros p. destruct (starts_with (String "c" p) url) eqn:E; [|reflexivity].
      apply Hfirst in E. congruence. }
    assert (forall p, starts_with (String "d" p) url = false) as Hd'.
    { intros p. destruct (starts_with (String "d" p) url) eqn:E; [|reflexivity].
      apply Hfirst in E. congruence. }
    destruct (String.eqb url "chrome://newtab/"); [reflexivity|].
    destruct devtools; cbn [app existsb]; rewrite ?(Hc' _), ?(Hd' _); reflexivity.
Qed.

End TargetFacts.

(** ** browser-management.js: edge cases of a switch *)

Module SwitchEdges.
Import Text TextFacts NodeURL Js BrowserJs BrowserManagement Observations.
Import FrameFacts QuietFacts BrowserFacts ConnectFacts SessionFacts.
Import CandidateRequests.

(** X18.  The two readers of [/json/version] differ.  On a candidate made
    of a serialised host and a valid port they make the same request; when
    the body names the control channel in [webSocketDebuggerUrlLegacy]
    only, [resolveWsFromBrowserURL] accepts it, and the attempt of
    [tryCandidatesAndConnect] fails for want of [webSocketDebuggerUrl]. *)
Theorem legacy_field_read_by_resolver_only env ebc log h p w res version legacy :
  parse_host h = Some h -> (0 <= p <= 65535)%Z ->
  env_fetch env (clock w) (candidate_url h p +:+ "/json/version") = Ok res ->
  ok res = true -> json res = Ok version ->
  truthy (webSocketDebuggerUrl version) = false ->
  webSocketDebuggerUrlLegacy version = Some legacy ->
  is_empty legacy = false ->
  resolveWsFromBrowserURL env (candidate_url h p) 3000 w
  = (Ok (rewriteWsEndpoint legacy (candidate_url h p)),
     tick (record (EvFetch (candidate_url h p +:+ "/json/version") 3000) w))
  /\ attempt env ebc log (candidate_url h p) w
     = (Throw (Error "No webSocketDebuggerUrl in /json/version"),
        tick (record (EvFetch (candidate_url h p +:+ "/json/version") 2000) w)).
Proof.
  intros Hh Hp Hfetch Hok Hjson Hws Hlegacy Hne. split.
  - unfold resolveWsFromBrowserURL, fetchJsonWithTimeout, bind, call, lift.
    rewrite Hfetch, Hok. cbn [negb]. rewrite Hjson.
    unfold or_else. rewrite Hws, Hlegacy, Hne. reflexivity.
  - unfold attempt, bind at 1.
    rewrite fetchJsonVersion_request by assumption.
    unfold bind, call, lift. rewrite Hfetch, Hok. cbn [negb]. rewrite Hjson.
    destruct (webSocketDebuggerUrl version) as [ws|]; [|reflexivity].
    cbn in Hws. apply negb_false_iff in Hws. now rewrite Hws.
Qed.

Lemma legacy_field_read_by_resolver_only_witness :
  let env := Cases.legacy_only "ws://127.0.0.1:9222/devtools/browser/x" in
  resolveWsFromBrowserURL env (candidate_url "10.0.0.5" 9999) 3000 Scenario.start
  = (Ok (rewriteWsEndpoint "ws://127.0.0.1:9222/devtools/browser/x"
           (candidate_url "10.0.0.5" 9999)),
     tick (record (EvFetch (candidate_url "10.0.0.5" 9999 +:+ "/json/version")
                     3000) Scenario.start))
  /\ attempt env (ensureBrowserConnected env) logger
       (candidate_url "10.0.0.5" 9999) Scenario.start
     = (Throw (Error "No webSocketDebuggerUrl in /json/version"),
        tick (record (EvFetch (candidate_url "10.0.0.5" 9999 +:+ "/json/version")
                        2000) Scenario.start)).
Proof.
  apply (legacy_field_read_by_resolver_only
           (Cases.legacy_only "ws://127.0.0.1:9222/devtools/browser/x")
           (ensureBrowserConnected
              (Cases.legacy_only "ws://127.0.0.1:9222/devtools/browser/x"))
           logger "10.0.0.5" 9999 Scenario.start
           {| ok := true; status := 200;
              json := Ok {| webSocketDebuggerUrl := None;
                            webSocketDebuggerUrlLegacy :=
                              Some "ws://127.0.0.1:9222/devtools/browser/x" |} |}
           {| webSocketDebuggerUrl := None;
              webSocketDebuggerUrlLegacy :=
                Some "ws://127.0.0.1:9222/devtools/browser/x" |}
           "ws://127.0.0.1:9222/devtools/browser/x");
    try reflexivity.
  lia.
Defined.

(** X19.  The handler connects through [ensureBrowserConnected], which
    returns the module-level [browser] while that one is live.  So when
    the context's own browser is gone but the module-level one is live, a
    switch to a WebSocket endpoint opens no connection: it binds the
    context to the browser the module already held, and reports the
    endpoint it was asked for. *)
Theorem switchBrowser_keeps_live_browser env params c w b fields :
  truthy (p_wsEndpoint params) = true ->
  active_browser env c w = (Ok None, w) ->
  browser_var w = Some b ->
  env_connected env (clock w) b = true ->
  env_context_fields env (clock w) b = Ok fields ->
  exists w',
    switchBrowser_handler env params c w = (Ok tt, w')
    /\ trace w'
       = (trace w
          ++ [ EvLog ("Connecting via provided WebSocket endpoint: "
                      +:+ default "" (p_wsEndpoint params));
               EvMcpContextFrom b;
               EvResponseLine ("Successfully switched to browser at "
                               +:+ default "" (p_wsEndpoint params));
               EvIncludePages true ])%list
    /\ McpContext.browser_of w' c = Some b
    /\ browser_var w' = Some b
    /\ currentWsEndpoint w' = p_wsEndpoint params.
Proof.
  intros Hws Hactive Hvar Hlive Hfields.
  unfold switchBrowser_handler. rewrite Hws, !andb_false_r.
  unfold bind at 1. unfold disconnect_current, bind at 1. rewrite Hactive.
  cbn [ret].
  unfold bind at 1. unfold switch_connect. rewrite Hws.
  unfold bind at 1. unfold logger, emit, modify.
  unfold bind at 1.
  rewrite (ensureBrowserConnected_when_live env _ _ b)
    by (cbn; assumption).
  cbn [ret].
  unfold bind at 1. unfold McpContext.from, bind at 1, call.
  cbn [clock record]. rewrite Hfields.
  eexists. split; [reflexivity|].
  cbn. unfold or_else. rewrite Hws.
  destruct (p_wsEndpoint params) as [ws|]; [|discriminate].
  unfold McpContext.browser_of. cbn.
  rewrite !lookup_insert_eq. cbn [default from_option id].
  erewrite lookup_union_Some_l by apply lookup_insert_eq.
  rewrite <- !app_assoc. repeat split; try reflexivity; assumption.
Qed.

Lemma switchBrowser_keeps_live_browser_witness :
  exists w',
    switchBrowser_handler (Scenario.answering (fun _ => None) Cases.second_live)
      Scenario.switch_to_advertised 0 Cases.astray = (Ok tt, w')
    /\ trace w'
       = (trace Cases.astray
          ++ [ EvLog ("Connecting via provided WebSocket endpoint: "
                      +:+ default "" (Some Scenario.advertised));
               EvMcpContextFrom 2;
               EvResponseLine ("Successfully switched to browser at "
                               +:+ default "" (Some Scenario.advertised));
               EvIncludePages true ])%list
    /\ McpContext.browser_of w' 0 = Some 2
    /\ browser_var w' = Some 2
    /\ currentWsEndpoint w' = Some Scenario.advertised.
Proof.
  apply (switchBrowser_keeps_live_browser
           (Scenario.answering (fun _ => None) Cases.second_live)
           Scenario.switch_to_advertised 0 Cases.astray 2
           {[ "pages" := VOther 20 ]}); reflexivity.
Defined.

End SwitchEdges.

(** ** main.js: dispatch *)

Module DispatchFacts.
Import Text Js MainJs BrowserManagement ToolDispatch Observations.
Import ConnectFacts SessionFacts.

Section Callback.
Context (env : Env) (args : Args).
Context {Guard : Type} (acquire : M Guard) (dispose : Guard -> M unit).
Context (handler : loc -> M unit).
Context (handle : string -> loc -> M (list ContentItem)).

(** Between acquiring and disposing nothing is thrown: every failure of
    [getContext], of the tool or of the response becomes an answer marked
    as an error, and only then. *)
Lemma guarded_total name request w :
  exists result w',
    guarded env args handler handle name request w = (Ok result, w')
    /\ (isError result = false <->
        exists c w1 w2,
          getContext env args (record (EvLog (name +:+ " request: " +:+ request)) w)
          = (Ok c, w1)
          /\ handler c w1 = (Ok tt, w2)
          /\ handle name c w2 = (Ok (content result), w')).
Proof.
  unfold guarded, try_catch at 1, bind at 1, logger, emit, modify.
  cbn iota beta.
  unfold bind at 1.
  destruct (getContext env args _) as [[c|e] w1] eqn:Hctx.
  - unfold bind at 1. destruct (handler c w1) as [[[]|e] w2] eqn:Hh.
    + unfold try_catch, bind.
      destruct (handle name c w2) as [[items|e] w3] eqn:Hr.
      * eexists _, _. split; [reflexivity|]. cbn. split; [|reflexivity].
        intros _. exists c, w1, w2. repeat split; assumption.
      * eexists _, _. split; [reflexivity|]. cbn. split; [discriminate|].
        intros (c' & w1' & w2' & [= <- <-] & Hh' & Hr').
        rewrite Hh in Hh'. injection Hh' as <-. rewrite Hr in Hr'. discriminate.
    + eexists _, _. split; [reflexivity|]. cbn. split; [discriminate|].
      intros (c' & w1' & w2' & [= <- <-] & Hh' & _).
      rewrite Hh in Hh'. discriminate.
  - eexists _, _. split; [reflexivity|]. cbn. split; [discriminate|].
    intros (c' & w1' & w2' & Hc' & _). discriminate.
Qed.

(** X20.  The callback of a registered tool throws only what acquiring or
    disposing of the guard throws.  Once the guard is acquired, the work
    ends with an answer, the guard is disposed of exactly once, after the
    work, and the answer is returned unless disposing throws; the answer
    is unmarked exactly when [getContext], the tool's handler and the
    response all succeeded. *)
Theorem tool_callback_releases name request w r w' :
  tool_callback env args acquire dispose handler handle name request w
  = (r, w') ->
  (exists e, acquire w = (Throw e, w') /\ r = Throw e)
  \/ exists guard w1 result w2,
       acquire w = (Ok guard, w1)
       /\ guarded env args handler handle name request w1 = (Ok result, w2)
       /\ (isError result = false <->
           exists c w3 w4,
             getContext env args
               (record (EvLog (name +:+ " request: " +:+ request)) w1)
             = (Ok c, w3)
             /\ handler c w3 = (Ok tt, w4)
             /\ handle name c w4 = (Ok (content result), w2))
       /\ (dispose guard w2 = (Ok tt, w') /\ r = Ok result
           \/ exists e, dispose guard w2 = (Throw e, w') /\ r = Throw e).
Proof.
  unfold tool_callback, bind. intros H.
  destruct (acquire w) as [[guard|e] w1].
  - right.
    destruct (guarded_total name request w1) as (result & w2 & Hg & Hmark).
    exists guard, w1, result, w2. split; [reflexivity|].
    split; [assumption|]. split; [assumption|].
    unfold try_finally in H. rewrite Hg in H.
    destruct (dispose guard w2) as [[[]|e] w3]; injection H as <- <-.
    + left. now split.
    + right. exists e. now split.
  - left. injection H as <- <-. exists e. now split.
Qed.

End Callback.

Lemma tool_callback_releases_witness :
  let env := Scenario.reachable (fun t _ => Nat.eqb t 0) in
  let acquire : M N := ret 7%N in
  let dispose := fun guard : N => emit (EvLog ("released " +:+ show_N guard)) in
  let handler := switchBrowser_handler env Scenario.switch_to_advertised in
  let handle := fun (_ : string) (_ : loc) => ret ([] : list ContentItem) in
  let run :=
    tool_callback env Scenario.explicit_args acquire dispose handler handle
      "switch_browser" "{}" Scenario.bound in
  (exists e, acquire Scenario.bound = (Throw e, snd run) /\ fst run = Throw e)
  \/ exists guard w1 result w2,
       acquire Scenario.bound = (Ok guard, w1)
       /\ guarded env Scenario.explicit_args handler handle
            "switch_browser" "{}" w1 = (Ok result, w2)
       /\ (isError result = false <->
           exists c w3 w4,
             getContext env Scenario.explicit_args
               (record (EvLog ("switch_browser" +:+ " request: " +:+ "{}")) w1)
             = (Ok c, w3)
             /\ handler c w3 = (Ok tt, w4)
             /\ handle "switch_browser" c w4 = (Ok (content result), w2))
       /\ (dispose guard w2 = (Ok tt, snd run) /\ fst run = Ok result
           \/ exists e, dispose guard w2 = (Throw e, snd run)
                        /\ fst run = Throw e).
Proof.
  cbv zeta.
  apply (tool_callback_releases
           (Scenario.reachable (fun t _ => Nat.eqb t 0))
           Scenario.explicit_args (ret 7%N)
           (fun guard => emit (EvLog ("released " +:+ show_N guard)))
           (switchBrowser_handler
              (Scenario.reachable (fun t _ => Nat.eqb t 0))
              Scenario.switch_to_advertised)
           (fun _ _ => ret []) "switch_browser" "{}" Scenario.bound).
  vm_compute. reflexivity.
Defined.

End DispatchFacts.

(** ** The routes to a browser *)

Module RouteFacts.
Import Text TextFacts NodeURL NodeURLFacts Js BrowserJs BrowserManagement.
Import Observations FrameFacts QuietFacts BrowserFacts ConnectFacts.
Import SwitchFacts.
Import CandidateRequests HostFacts.

Lemma resolveWsFromBrowserURL_advertised env url ms w s w' :
  resolveWsFromBrowserURL env url ms w = (Ok s, w') ->
  exists original,
    advertised_at env (clock w) url = Some original
    /\ is_empty original = false
    /\ s = rewriteWsEndpoint original url.
Proof.
  intros H. apply resolveWsFromBrowserURL_inv in H
    as (_ & res & version & original & Hf & Hok & Hj & Hor & Hne & ->).
  exists original. unfold advertised_at. rewrite Hf, Hok, Hj. now split.
Qed.

(** A bind run from one world: what the first part leaves is related to
    where it started, and the rest to where the first part ended. *)
Lemma bind_from {A B} (R : World -> World -> Prop)
    (m : M A) (k : A -> M B) w :
  (forall w1 w2 w3, R w1 w2 -> R w2 w3 -> R w1 w3) ->
  R w (snd (m w)) ->
  (forall a w1, m w = (Ok a, w1) -> R w1 (snd (k a w1))) ->
  R w (snd (bind m k w)).
Proof.
  intros Ht Hm Hk. unfold bind. destruct (m w) as [[a|e] w1]; [|exact Hm].
  eapply Ht; [exact Hm|]. now apply Hk.
Qed.

(** X21.  With a browser URL and no WebSocket endpoint,
    [ensureBrowserConnected] makes one kind of request only, for
    [/json/version] under that URL with a timeout of three seconds, and
    runs no [docker] command.  The connect it then makes goes to the
    address that this very response advertised (its
    [webSocketDebuggerUrl], or else its legacy field, of a success
    response answered when the call started), which is not empty, as
    [rewriteWsEndpoint] gives it for that URL; and it carries no headers,
    whatever headers the options hold. *)
Theorem ensureBrowserConnected_through_browserURL env options w browserURL :
  ca_browserURL options = Some browserURL ->
  is_empty browserURL = false ->
  truthy (ca_wsEndpoint options) = false ->
  emitted (resolved_through (advertised_at env (clock w) browserURL)
                            browserURL)
          w (snd (ensureBrowserConnected env options w)).
Proof.
  intros Hurl Hne Hws.
  set (R := emitted (resolved_through (advertised_at env (clock w) browserURL)
                                      browserURL)).
  assert (forall w1 w2 w3, R w1 w2 -> R w2 w3 -> R w1 w3) as Ht
    by apply quiet_trans.
  unfold ensureBrowserConnected.
  apply bind_from; [exact Ht|apply quiet_refl|].
  intros current w0 Hl. unfold live_browser in Hl. injection Hl as _ <-.
  destruct current as [b|]; [apply quiet_refl|].
  assert (connect_plan env options
          = bind (resolveWsFromBrowserURL env browserURL 3000)
                 (fun resolved =>
                    ret (Some browserURL,
                         {| co_protocolTimeout := 15000;
                            co_browserWSEndpoint := Some resolved;
                            co_headers := None |}))) as ->.
  { unfold connect_plan. rewrite Hurl, Hws. cbn [truthy]. rewrite Hne.
    cbn [negb andb]. unfold bind at 1, ret at 1. cbn iota beta.
    unfold or_else. cbn [truthy]. rewrite Hne, Hws. reflexivity. }
  apply bind_from; [exact Ht| |].
  - assert (preserves R (resolveWsFromBrowserURL env browserURL 3000)) as Hp
      by (unfold resolveWsFromBrowserURL, fetchJsonWithTimeout; quiet;
          now split).
    apply (quiet_bind (R := R)); [exact Hp|intros r; apply quiet_ret].
  - intros [target o] w1 H.
    apply bind_Ok in H as (resolved & w2 & Hr & H). injection H as _ <- <-.
    apply resolveWsFromBrowserURL_advertised in Hr
      as (original & Ha & Ho & ->).
    assert (resolved_through (advertised_at env (clock w) browserURL)
              browserURL
              (EvConnect {| co_protocolTimeout := 15000;
                            co_browserWSEndpoint :=
                              Some (rewriteWsEndpoint original browserURL);
                            co_headers := None |})) as Hc.
    { split; [|reflexivity]. exists original. now split. }
    assert (forall b, preserves R (preflight env b)) as Hpre
      by (intros b; apply preflight_quiet; intros; exact I).
    revert w2.
    match goal with
    | |- forall w2, R w2 (snd (?m w2)) => change (preserves R m)
    end.
    unfold connectWithTimeout. frame; try exact I.
Qed.

Lemma ensureBrowserConnected_through_browserURL_witness :
  let env := Scenario.reachable (fun _ _ => false) in
  advertised_at env (clock Scenario.start) "http://10.0.0.5:9999"
  = Some Scenario.advertised
  /\ emitted (resolved_through (Some Scenario.advertised)
                               "http://10.0.0.5:9999")
       Scenario.start
       (snd (ensureBrowserConnected env
               {| ca_browserURL := Some "http://10.0.0.5:9999";
                  ca_wsEndpoint := None;
                  ca_wsHeaders := Some [ ("Authorization", "Bearer x") ];
                  ca_devtools := false |} Scenario.start)).
Proof.
  split; [vm_compute; reflexivity|].
  apply (ensureBrowserConnected_through_browserURL
           (Scenario.reachable (fun _ _ => false))
           {| ca_browserURL := Some "http://10.0.0.5:9999";
              ca_wsEndpoint := None;
              ca_wsHeaders := Some [ ("Authorization", "Bearer x") ];
              ca_devtools := false |} Scenario.start "http://10.0.0.5:9999");
    reflexivity.
Defined.

(** X22.  A container name that the name service does not resolve, or
    resolves to an empty address, ends the switch at once: the error names
    the container, and neither a discovery request nor a connect is
    made. *)
Theorem switch_connect_unresolved_container env params w container :
  truthy (p_wsEndpoint params) = false ->
  p_container params = Some container ->
  is_empty container = false ->
  (forall address, env_dns_lookup env (clock w) container = Ok address ->
                   is_empty address = true) ->
  switch_connect env params w
  = (Throw (Error ("Unable to resolve container " +:+ String dquote container
                   +:+ String dquote " to an IP address")),
     tick (record (EvDnsLookup container)
             (record (EvLog ("Resolving container name "
                             +:+ String dquote container
                             +:+ String dquote " to IP")) w))).
Proof.
  intros Hws Hc Hne Hdns. unfold switch_connect. rewrite Hws, Hc.
  cbn [truthy default from_option id]. rewrite Hne. cbn [negb].
  unfold resolveHostToIp, logger, emit, modify, try_catch, call, ret, bind.
  cbn [clock record].
  destruct (env_dns_lookup env (clock w) container) as [address|e] eqn:Hl.
  - cbn [truthy]. rewrite (Hdns address eq_refl). reflexivity.
  - reflexivity.
Qed.

Lemma switch_connect_unresolved_container_witness :
  switch_connect Scenario.unreachable
    {| p_container := Some "webtop9"; p_port := None; p_browserUrl := None;
       p_wsEndpoint := None |} Scenario.start
  = (Throw (Error ("Unable to resolve container " +:+ String dquote "webtop9"
                   +:+ String dquote " to an IP address")),
     tick (record (EvDnsLookup "webtop9")
             (record (EvLog ("Resolving container name "
                             +:+ String dquote "webtop9"
                             +:+ String dquote " to IP")) Scenario.start))).
Proof.
  apply (switch_connect_unresolved_container Scenario.unreachable
           {| p_container := Some "webtop9"; p_port := None;
              p_browserUrl := None; p_wsEndpoint := None |}
           Scenario.start "webtop9"); try reflexivity.
  intros address H. discriminate H.
Defined.

Lemma show_Z_of_N n : show_Z (Z.of_N n) = show_N n.
Proof. rewrite show_Z_nonneg by lia. now rewrite N2Z.id. Qed.

(** X23.  For a browser URL with an [http] or [https] scheme whose host is
    an IPv4 address, the switch asks no name service: after one log line it
    tries the candidates for that host and the port the URL connects on,
    all of them with the [http] scheme. *)
Theorem switch_connect_ipv4_url env params w text u n :
  truthy (p_wsEndpoint params) = false ->
  truthy (p_container params) = false ->
  p_browserUrl params = Some text ->
  parse text = Some u ->
  canonical_ipv4 (host u) = true ->
  scheme u = "http" \/ scheme u = "https" ->
  effective_port u = Some n ->
  switch_connect env params w
  = bind (tryCandidatesAndConnect env
            (pushCandidatesForHostPort (host u) (Z.of_N n) [])
            (ensureBrowserConnected env) logger)
         (fun result =>
            ret (newBrowser result, Some (resolvedHttpUrl result),
                 Some (r_wsEndpoint result)))
         (record (EvLog ("Normalized browserUrl to IP " +:+ host u +:+ ":"
                         +:+ show_N n)) w).
Proof.
  intros Hws Hc Hb Hparse Hip Hscheme Hport.
  assert (is_empty text = false) as Hne.
  { destruct text; [|reflexivity]. vm_compute in Hparse. discriminate. }
  unfold switch_connect. rewrite Hws, Hc, Hb.
  cbn [truthy default from_option id]. rewrite Hne. cbn [negb].
  rewrite Hparse.
  rewrite (isIp_on_parsed _ _ Hparse), Hip. cbn [negb].
  assert (match port u with
          | Some n0 => Z.of_N n0
          | None => if String.eqb (protocol u) "https:" then 443%Z else 80%Z
          end = Z.of_N n) as ->.
  { unfold effective_port in Hport. destruct (port u) as [m|].
    - now injection Hport as ->.
    - unfold protocol. destruct Hscheme as [Hs|Hs]; rewrite Hs in *;
        vm_compute in Hport; injection Hport as <-; reflexivity. }
  rewrite show_Z_of_N. unfold hostname.
  unfold bind, ret, logger, emit, modify. reflexivity.
Qed.

Lemma switch_connect_ipv4_url_witness :
  switch_connect Scenario.unreachable
    {| p_container := None; p_port := None;
       p_browserUrl := Some "https://172.17.0.2"; p_wsEndpoint := None |}
    Scenario.start
  = bind (tryCandidatesAndConnect Scenario.unreachable
            (pushCandidatesForHostPort "172.17.0.2" (Z.of_N 443) [])
            (ensureBrowserConnected Scenario.unreachable) logger)
         (fun result =>
            ret (newBrowser result, Some (resolvedHttpUrl result),
                 Some (r_wsEndpoint result)))
         (record (EvLog ("Normalized browserUrl to IP " +:+ "172.17.0.2" +:+ ":"
                         +:+ show_N 443)) Scenario.start).
Proof.
  apply (switch_connect_ipv4_url Scenario.unreachable
           {| p_container := None; p_port := None;
              p_browserUrl := Some "https://172.17.0.2";
              p_wsEndpoint := None |}
           Scenario.start "https://172.17.0.2"
           (mkURL "https" "172.17.0.2" None "/" None None) 443%N);
    first [reflexivity|now right|vm_compute; reflexivity].
Defined.

End RouteFacts.

(** ** browser-management.js: what a failed switch leaves behind *)

Module SwitchFailures.
Import Text Js BrowserJs BrowserManagement Observations.
Import FrameFacts QuietFacts BrowserFacts SwitchFacts ConnectFacts EnsureFacts.
Import SessionFacts SwitchOutcomes.

Lemma steady_trans w1 w2 w3 : steady w1 w2 -> steady w2 w3 -> steady w1 w3.
Proof. apply quiet_trans. Qed.

Lemma logger_steady line w : steady w (snd (logger line w)).
Proof. apply (quiet_logger (R := steady)). exact I. Qed.

Lemma attempt_Throw_steady env candidate w e w' :
  attempt env (ensureBrowserConnected env) logger candidate w = (Throw e, w') ->
  steady w w'.
Proof.
  unfold attempt. intros H.
  assert (steady w (snd (fetchJsonVersion env candidate 2000 w))) as Hf
    by (apply fetchJsonVersion_quiet; intros; exact I).
  apply bind_Throw in H as [H|(data & w1 & Hd & H)]; [now rewrite H in Hf|].
  rewrite Hd in Hf. cbn [snd] in Hf.
  destruct (webSocketDebuggerUrl data) as [ws|];
    [destruct (is_empty ws)|]; try (injection H as _ <-; exact Hf).
  apply bind_Throw in H as [H|([] & w2 & Hl & H)]; [discriminate|].
  injection Hl as <-.
  apply bind_Throw in H as [H|(b & w3 & _ & H)]; [|discriminate].
  apply ensureBrowserConnected_Throw_steady in H.
  eapply steady_trans; [exact Hf|].
  eapply steady_trans; [apply logger_steady|exact H].
Qed.

Lemma tryCandidates_loop_Throw_steady env cs errors w e w' :
  tryCandidates_loop env (ensureBrowserConnected env) logger cs errors w
  = (Throw e, w') ->
  steady w w'.
Proof.
  revert errors w. induction cs as [|c cs IH]; intros errors w H.
  - injection H as _ <-. apply quiet_refl.
  - cbn [tryCandidates_loop] in H.
    apply try_catch_Throw in H as (e0 & w1 & Ha & H).
    apply attempt_Throw_steady in Ha.
    apply bind_Throw in H as [H|([] & w2 & Hl & H)]; [discriminate|].
    injection Hl as <-. apply IH in H.
    eapply steady_trans; [exact Ha|].
    eapply steady_trans; [apply logger_steady|exact H].
Qed.


(** X24.  The outcome of [tryCandidatesAndConnect], run with
    [ensureBrowserConnected] as the handler runs it.  On success the
    result names one of the candidates and a control-channel address that
    is not empty, the module-level [browser] holds the browser returned,
    and no context object or connection detail was touched.  On failure
    nothing the process holds has changed, however many candidates were
    tried. *)
Theorem tryCandidatesAndConnect_outcome env candidates w r w' :
  tryCandidatesAndConnect env candidates (ensureBrowserConnected env) logger w
  = (r, w') ->
  match r with
  | Ok found =>
      In (resolvedHttpUrl found) candidates
      /\ is_empty (r_wsEndpoint found) = false
      /\ browser_var w' = Some (newBrowser found)
      /\ same_session w w'
  | Throw _ => steady w w'
  end.
Proof.
  unfold tryCandidatesAndConnect. intros H. destruct r as [found|e].
  - destruct (tryCandidates_loop_Ok _ _ _ _ _ _ _ _ H) as [Hin Hne].
    split; [assumption|]. split; [assumption|].
    split; [eapply tryCandidates_loop_sets_browser; eassumption|].
    pose proof (tryCandidates_loop_preserves (R := same_session)
                  (fun _ _ => I) env candidates [] w) as Hs.
    now rewrite H in Hs.
  - eapply tryCandidates_loop_Throw_steady; eassumption.
Qed.

Lemma tryCandidatesAndConnect_outcome_witness :
  let env := Scenario.reachable (fun _ _ => false) in
  let run :=
    tryCandidatesAndConnect env (pushCandidatesForHostPort "10.0.0.5" 9222 [])
      (ensureBrowserConnected env) logger Scenario.start in
  In "http://10.0.0.5:9999" (pushCandidatesForHostPort "10.0.0.5" 9222 [])
  /\ is_empty Scenario.advertised = false
  /\ browser_var (snd run) = Some 2
  /\ same_session Scenario.start (snd run).
Proof.
  apply (tryCandidatesAndConnect_outcome
           (Scenario.reachable (fun _ _ => false))
           (pushCandidatesForHostPort "10.0.0.5" 9222 []) Scenario.start
           (Ok {| newBrowser := 2; resolvedHttpUrl := "http://10.0.0.5:9999";
                  r_wsEndpoint := Scenario.advertised |})).
  vm_compute. reflexivity.
Defined.





End SwitchFailures.
